(** * cachingreverseproxy: a single-upstream caching reverse proxy

    A shallow embedding of package [single] (src/main.go): the tracking
    writer, the partially downloaded file, the object handle with its
    downloader, and the request pipeline [ServeHTTP], followed by the
    properties established about them. *)

From Stdlib Require Import ZArith Lia Bool String Ascii.
From Stdlib.Strings Require Import Byte.
From Stdlib Require Import Sorting.Sorted.
From stdpp Require Import base decidable option list gmap strings fin_maps.

Local Open Scope Z_scope.

(** ** 64-bit integers

    Go's [int64] as [Z] with two's complement wrap-around. *)

Module Int64.
Definition modulus : Z := 2 ^ 64.
Definition max : Z := 2 ^ 63 - 1.
Definition min : Z := - 2 ^ 63.
Definition wrap (z : Z) : Z := (z + 2 ^ 63) mod 2 ^ 64 - 2 ^ 63.
Definition add (a b : Z) : Z := wrap (a + b).
Definition sub (a b : Z) : Z := wrap (a - b).
Definition in_range (z : Z) : Prop := min <= z <= max.
End Int64.

(** ** Errors

    The values of Go's [error] interface that the package produces or
    receives.  [ErrWhence] and [ErrNegativeSeek] are the two [fmt.Errorf]
    values of [partiallyDownloadedFile.Seek], with the integer they print. *)

Inductive error : Type :=
| EOF
| ErrUnexpectedEOF
| ErrShortWrite
| ErrClosed
| ENOENT
| EACCES
| ENOSPC
| EEXIST
| EINVAL
| EIO
| ErrTransport
| ErrWhence (whence : Z)
| ErrNegativeSeek (printed : Z).

#[global] Instance error_eq_dec : EqDecision error.
Proof. solve_decision. Defined.

(** [os.IsNotExist] *)
Definition IsNotExist (e : error) : bool :=
  match e with ENOENT => true | _ => false end.

Definition Zlen {A} (l : list A) : Z := Z.of_nat (length l).

(** ** Open files

    An [*os.File] opened on a regular file: the inode it refers to, its
    offset and whether it was closed.  The bytes of the inode are shared
    with every other descriptor on it and are passed to the operations. *)

Record OsFile : Type := mkOsFile {
  fd_ino : nat;
  fd_off : Z;
  fd_closed : bool;
}.

Definition io_SeekStart : Z := 0.
Definition io_SeekCurrent : Z := 1.
Definition io_SeekEnd : Z := 2.

(** [os.File.Read]: a read into an empty buffer returns [0, nil]; at or
    past the end of the data it returns [0, io.EOF]; otherwise it fills
    the buffer with what is there. *)
Definition file_read (f : OsFile) (data : list byte) (lenp : Z)
  : Z * list byte * option error * OsFile :=
  if fd_closed f then (0, [], Some ErrClosed, f)
  else if lenp <=? 0 then (0, [], None, f)
  else
    let avail := Zlen data - fd_off f in
    if avail <=? 0 then (0, [], Some EOF, f)
    else
      let n := Z.min lenp avail in
      (n, take (Z.to_nat n) (drop (Z.to_nat (fd_off f)) data), None,
       mkOsFile (fd_ino f) (fd_off f + n) false).

(** [os.File.Seek(off, io.SeekStart)]: on failure the returned offset
    is 0. *)
Definition file_seek_start (f : OsFile) (off : Z) : Z * option error * OsFile :=
  if fd_closed f then (0, Some ErrClosed, f)
  else if off <? 0 then (0, Some EINVAL, f)
  else (off, None, mkOsFile (fd_ino f) off false).

(** [os.File.Write] on the descriptor returned by [ioutil.TempFile]:
    the file starts empty and is only ever written sequentially, so the
    bytes land at its end.  [room] is what the device still takes (a full
    disk takes less than the buffer); a file never grows past the largest
    offset.  A short write comes with an error. *)
Definition file_write (data p : list byte) (room : nat)
  : Z * option error * list byte :=
  let n := Z.min (Zlen p) (Z.min (Z.of_nat room) (Int64.max - Zlen data)) in
  let n := Z.max 0 n in
  (n, if n <? Zlen p then Some ENOSPC else None, data ++ take (Z.to_nat n) p).

(** ** Tracking writer *)

Record trackingWriter : Type := mkTrackingWriter {
  tw_wrapped : nat;          (* inode of the file written to *)
  tw_size : Z;
  tw_written : Z;
  tw_done : bool;            (* the [done] channel is closed *)
}.

Definition newTrackingWriter (ino : nat) (size : Z) : trackingWriter :=
  mkTrackingWriter ino size 0 false.

(** [update]: add [n] to [written], then offer the new value on the
    unbuffered channel until no reader is waiting; [parked] is how many
    receives were ready.  The values sent are returned next to the state. *)
Definition tw_update (w : trackingWriter) (n : Z) (parked : nat)
  : trackingWriter * list Z :=
  let written := Int64.add (tw_written w) n in
  (mkTrackingWriter (tw_wrapped w) (tw_size w) written (tw_done w),
   replicate parked written).

Definition tw_Write (w : trackingWriter) (data p : list byte) (room parked : nat)
  : Z * option error * trackingWriter * list byte * list Z :=
  let '(n, err, data') := file_write data p room in
  let '(w', sent) := tw_update w n parked in
  (n, err, w', data', sent).

(** [Close]: close the file ([cerr] is what that returns) and close
    [done]. *)
Definition tw_Close (w : trackingWriter) (cerr : option error)
  : option error * trackingWriter :=
  (cerr, mkTrackingWriter (tw_wrapped w) (tw_size w) (tw_written w) true).

(** A sequence of [Write] calls, each with its buffer and what the
    environment allows; the result lists [written] after every call. *)
Fixpoint tw_writes (w : trackingWriter) (data : list byte)
    (calls : list (list byte * nat * nat)) : list Z :=
  match calls with
  | [] => []
  | (p, room, parked) :: calls' =>
      let '(_, _, w', data', _) := tw_Write w data p room parked in
      tw_written w' :: tw_writes w' data' calls'
  end.

(** ** Partially downloaded file *)

Record partiallyDownloadedFile : Type := mkPartial {
  pd_wrapped : OsFile;
  pd_readyPos : Z;
  pd_pos : Z;
  pd_seekBeforeRead : bool;
}.

(** What a [select] of the wait loop receives: a value sent by the writer
    on [updateWritten], or the closing of [done]. *)
Inductive selectEvent : Type :=
| RecvUpdate (written : Z)
| RecvDone.

(** The labelled loop of [Read].  The result is the value of [readyPos]
    when the loop is left, or [inl] of its last value when the reader
    stays parked because nothing more arrives. *)
Fixpoint wait_loop (pos readyPos : Z) (tw : trackingWriter)
    (evs : list selectEvent) : Z + Z :=
  if readyPos <=? pos then
    match evs with
    | [] => inl readyPos
    | RecvUpdate v :: evs' => wait_loop pos v tw evs'
    | RecvDone :: _ => inr (tw_written tw)
    end
  else inr readyPos.

Inductive ReadOutcome : Type :=
| ReadParked (r : partiallyDownloadedFile)
| ReadPanics (r : partiallyDownloadedFile)
| ReadReturns (n : Z) (bytes : list byte) (err : option error)
    (r : partiallyDownloadedFile).

(** [Read] with a buffer of [lenp] bytes.  [tw] is the writer as the
    reader sees it ([size] never changes; [written] is read only after
    [done]), [data] the bytes of the file when it is read. *)
Definition pd_Read (r : partiallyDownloadedFile) (tw : trackingWriter)
    (data : list byte) (evs : list selectEvent) (lenp : Z) : ReadOutcome :=
  if tw_size tw <=? pd_pos r then ReadReturns 0 [] (Some EOF) r
  else
    match wait_loop (pd_pos r) (pd_readyPos r) tw evs with
    | inl rp =>
        ReadParked (mkPartial (pd_wrapped r) rp (pd_pos r) (pd_seekBeforeRead r))
    | inr rp =>
        let seeked :=
          if pd_seekBeforeRead r then
            let '(pos', err, f') := file_seek_start (pd_wrapped r) (pd_pos r) in
            (mkPartial f' rp pos' (bool_decide (is_Some err)), err)
          else (mkPartial (pd_wrapped r) rp (pd_pos r) false, None) in
        match seeked with
        | (r1, Some e) => ReadReturns 0 [] (Some e) r1
        | (r1, None) =>
            let avail := Int64.sub rp (pd_pos r1) in
            if (avail <? lenp) && (avail <? 0) then ReadPanics r1
            else
              let lenp' := if avail <? lenp then avail else lenp in
              let '(n, bytes, err, f') := file_read (pd_wrapped r1) data lenp' in
              ReadReturns n bytes err
                (mkPartial f' rp (Int64.add (pd_pos r1) n) false)
        end
    end.

(** [Seek]; the error for a negative position prints the old position. *)
Definition pd_Seek (r : partiallyDownloadedFile) (tw : trackingWriter)
    (offset whence : Z) : Z * option error * partiallyDownloadedFile :=
  let target :=
    if whence =? io_SeekStart then Some offset
    else if whence =? io_SeekCurrent then Some (Int64.add (pd_pos r) offset)
    else if whence =? io_SeekEnd then Some (Int64.add (tw_size tw) offset)
    else None in
  match target with
  | None => (pd_pos r, Some (ErrWhence whence), r)
  | Some pos =>
      if pos <? 0 then (pd_pos r, Some (ErrNegativeSeek (pd_pos r)), r)
      else (pos, None, mkPartial (pd_wrapped r) (pd_readyPos r) pos true)
  end.

Definition pd_Close (r : partiallyDownloadedFile) (cerr : option error)
  : option error * partiallyDownloadedFile :=
  (cerr,
   mkPartial (mkOsFile (fd_ino (pd_wrapped r)) (fd_off (pd_wrapped r)) true)
     (pd_readyPos r) (pd_pos r) (pd_seekBeforeRead r)).

(** ** Library: time

    A [time.Time] in UTC: seconds since the Unix epoch and the nanoseconds
    within the second. *)

Record Time : Type := mkTime { t_sec : Z; t_nsec : Z }.

#[global] Instance Time_eq_dec : EqDecision Time.
Proof. solve_decision. Defined.

(** The zero [time.Time] is January 1, year 1. *)
Definition zeroTime : Time := mkTime (-62135596800) 0.
Definition unixEpochTime : Time := mkTime 0 0.

(** [isZeroTime] of net/http. *)
Definition isZeroTime (t : Time) : bool :=
  bool_decide (t = zeroTime) || bool_decide (t = unixEpochTime).

Definition digit (n : Z) : ascii := ascii_of_nat (48 + Z.to_nat (n mod 10)).

Definition pad2 (n : Z) : string :=
  String (digit (n / 10)) (String (digit n) EmptyString).

Fixpoint digits_rev (fuel : nat) (n : Z) : list ascii :=
  match fuel with
  | O => []
  | S fuel' => if n <? 10 then [digit n] else digit n :: digits_rev fuel' (n / 10)
  end.

(** [strconv.FormatInt(n, 10)] *)
Definition FormatInt (n : Z) : string :=
  let ds := string_of_list_ascii (rev (digits_rev (S (Z.to_nat (Z.log2 (Z.abs n)))) (Z.abs n))) in
  if n <? 0 then String "-" ds else ds.

(** A year, padded to four digits. *)
Definition pad4 (y : Z) : string :=
  if y <? 0 then String "-" (pad2 (- y / 100 mod 100) ++ pad2 (- y mod 100))
  else if y <? 10000 then pad2 (y / 100) ++ pad2 (y mod 100)
  else FormatInt y.

Definition dayName (d : Z) : string :=
  nth (Z.to_nat d) ["Sun"; "Mon"; "Tue"; "Wed"; "Thu"; "Fri"; "Sat"]%string ""%string.

Definition monthName (m : Z) : string :=
  nth (Z.to_nat (m - 1))
    ["Jan"; "Feb"; "Mar"; "Apr"; "May"; "Jun";
     "Jul"; "Aug"; "Sep"; "Oct"; "Nov"; "Dec"]%string ""%string.

(** Year, month and day of a day count since 1970-01-01. *)
Definition civil (days : Z) : Z * Z * Z :=
  let z := days + 719468 in
  let era := z / 146097 in
  let doe := z - era * 146097 in
  let yoe := (doe - doe / 1460 + doe / 36524 - doe / 146096) / 365 in
  let doy := doe - (365 * yoe + yoe / 4 - yoe / 100) in
  let mp := (5 * doy + 2) / 153 in
  let d := doy - (153 * mp + 2) / 5 + 1 in
  let m := if mp <? 10 then mp + 3 else mp - 9 in
  let y := yoe + era * 400 + (if m <=? 2 then 1 else 0) in
  (y, m, d).

(** [t.Format(http.TimeFormat)], the layout [Mon, 02 Jan 2006 15:04:05 GMT]. *)
Definition formatHTTP (t : Time) : string :=
  let days := t_sec t / 86400 in
  let rem := t_sec t mod 86400 in
  let '(y, m, d) := civil days in
  (dayName ((days + 4) mod 7) ++ ", " ++ pad2 d ++ " " ++ monthName m ++ " "
   ++ pad4 y ++ " " ++ pad2 (rem / 3600) ++ ":" ++ pad2 (rem / 60 mod 60) ++ ":"
   ++ pad2 (rem mod 60) ++ " GMT")%string.

(** ** Library: package path *)

Definition slash : ascii := "/"%char.

Fixpoint split_slash (cur : list ascii) (s : list ascii) : list (list ascii) :=
  match s with
  | [] => [rev cur]
  | c :: s' =>
      if Ascii.eqb c slash then rev cur :: split_slash [] s'
      else split_slash (c :: cur) s'
  end.

Definition dotdot : list ascii := ["."; "."]%char.

(** One element of the path against the elements kept so far (most recent
    first). *)
Definition clean_step (rooted : bool) (stack : list (list ascii))
    (seg : list ascii) : list (list ascii) :=
  if bool_decide (seg = []) || bool_decide (seg = ["."%char]) then stack
  else if bool_decide (seg = dotdot) then
    match stack with
    | top :: rest => if bool_decide (top = dotdot) then seg :: stack else rest
    | [] => if rooted then [] else [seg]
    end
  else seg :: stack.

Fixpoint join_slash (segs : list (list ascii)) : list ascii :=
  match segs with
  | [] => []
  | [s] => s
  | s :: segs' => s ++ slash :: join_slash segs'
  end.

(** [path.Clean] *)
Definition path_Clean (p : string) : string :=
  let cs := list_ascii_of_string p in
  match cs with
  | [] => "."%string
  | c :: _ =>
      let rooted := Ascii.eqb c slash in
      let out := join_slash (rev (fold_left (clean_step rooted) (split_slash [] cs) [])) in
      if rooted then String slash (string_of_list_ascii out)
      else match out with [] => "."%string | _ => string_of_list_ascii out end
  end.

(** [path.Join] of two elements. *)
Definition path_Join (a b : string) : string :=
  match a, b with
  | EmptyString, EmptyString => EmptyString
  | EmptyString, _ => path_Clean b
  | _, EmptyString => path_Clean a
  | _, _ => path_Clean (a ++ "/" ++ b)
  end.

Fixpoint drop_trailing_slashes (rs : list ascii) : list ascii :=
  match rs with
  | c :: rs' => if Ascii.eqb c slash then drop_trailing_slashes rs' else rs
  | [] => []
  end.

Fixpoint take_until_slash (rs : list ascii) : list ascii :=
  match rs with
  | c :: rs' => if Ascii.eqb c slash then [] else c :: take_until_slash rs'
  | [] => []
  end.

Fixpoint drop_until_slash (rs : list ascii) : list ascii :=
  match rs with
  | c :: rs' => if Ascii.eqb c slash then rs else drop_until_slash rs'
  | [] => []
  end.

(** [path.Base] *)
Definition path_Base (p : string) : string :=
  match list_ascii_of_string p with
  | [] => "."%string
  | cs =>
      match rev (take_until_slash (drop_trailing_slashes (rev cs))) with
      | [] => "/"%string
      | b => string_of_list_ascii b
      end
  end.

(** [path.Dir]: everything up to the final slash, cleaned. *)
Definition path_Dir (p : string) : string :=
  path_Clean (string_of_list_ascii (rev (drop_until_slash (rev (list_ascii_of_string p))))).

(** ** Library: net/http values

    [http.Header] is a map from header names to their values. *)

Abbreviation Header := (gmap string (list string)).

Definition Header_Set (k v : string) (h : Header) : Header := <[k := [v]]> h.

Definition Header_Get (k : string) (h : Header) : string :=
  match h !! k with
  | Some (v :: _) => v
  | _ => EmptyString
  end.

Definition http_MethodGet : string := "GET".
Definition http_MethodHead : string := "HEAD".

Definition http_StatusOK : Z := 200.
Definition http_StatusNotModified : Z := 304.
Definition http_StatusMethodNotAllowed : Z := 405.
Definition http_StatusInternalServerError : Z := 500.
Definition http_StatusBadGateway : Z := 502.

(** [http.StatusText] on the codes the package passes to it. *)
Definition http_StatusText (code : Z) : string :=
  if code =? 500 then "Internal Server Error"
  else if code =? 502 then "Bad Gateway"
  else if code =? 405 then "Method Not Allowed"
  else EmptyString.

(** The downstream request: method, URL path and headers. *)
Record Request : Type := mkRequest {
  Method : string;
  URLPath : string;
  ReqHeader : Header;
}.

(** The request sent upstream; [NewRequest] is given no body. *)
Record UpstreamRequest : Type := mkUpstreamRequest {
  u_Method : string;
  u_URL : string;
  u_Header : Header;
}.

(** What reading an upstream body yields: the chunks it delivers and
    whether it ends with an error instead of the end of the stream. *)
Record Body : Type := mkBody {
  b_chunks : list (list byte);
  b_err : option error;
}.

Record Response : Type := mkResponse {
  StatusCode : Z;
  RespHeader : Header;
  ContentLength : Z;
  RespBody : Body;
}.

(** An [http.ResponseWriter], as net/http documents it: the header map
    can be changed until the status line is written; the first [Write]
    without a [WriteHeader] writes status 200; a [WriteHeader] after the
    status line went out changes nothing and is reported as superfluous. *)
Record ResponseWriter : Type := mkResponseWriter {
  rw_Header : Header;
  rw_status : option Z;
  rw_sent : Header;
  rw_body : list byte;
  rw_superfluous : list Z;
}.

Definition newResponseWriter : ResponseWriter :=
  mkResponseWriter ∅ None ∅ [] [].

Definition rw_setHeader (f : Header -> Header) (w : ResponseWriter) : ResponseWriter :=
  mkResponseWriter (f (rw_Header w)) (rw_status w) (rw_sent w) (rw_body w)
    (rw_superfluous w).

Definition WriteHeader (code : Z) (w : ResponseWriter) : ResponseWriter :=
  match rw_status w with
  | Some _ =>
      mkResponseWriter (rw_Header w) (rw_status w) (rw_sent w) (rw_body w)
        (rw_superfluous w ++ [code])
  | None =>
      mkResponseWriter (rw_Header w) (Some code) (rw_Header w) (rw_body w)
        (rw_superfluous w)
  end.

Definition rw_Write (p : list byte) (w : ResponseWriter) : ResponseWriter :=
  let w := match rw_status w with None => WriteHeader http_StatusOK w | Some _ => w end in
  mkResponseWriter (rw_Header w) (rw_status w) (rw_sent w) (rw_body w ++ p)
    (rw_superfluous w).

(** [fmt.Fprintln(w, s)] *)
Definition Fprintln (s : string) (w : ResponseWriter) : ResponseWriter :=
  rw_Write (list_byte_of_string (s ++ String "010" EmptyString)) w.

(** [http.Error] *)
Definition http_Error (msg : string) (code : Z) (w : ResponseWriter) : ResponseWriter :=
  let w := rw_setHeader (Header_Set "Content-Type" "text/plain; charset=utf-8") w in
  let w := rw_setHeader (Header_Set "X-Content-Type-Options" "nosniff") w in
  Fprintln msg (WriteHeader code w).

Definition statusError (code : Z) (w : ResponseWriter) : ResponseWriter :=
  http_Error (http_StatusText code) code w.

(** ** The environment

    What the program does not decide: which system calls fail, what the
    upstream answers, the random suffix [ioutil.TempFile] picks, the
    clock, the room left on the device, and the parts of the standard
    library kept abstract ([time.Parse], the content type sniffing, the
    range and precondition handling of [http.ServeContent] and what it
    makes of a directory, which depends on the file system).  A system
    call fails when [fault] says so, whatever the reason (a directory in
    the place of a file, a file in the place of a directory, rights, the
    device), and so succeeds when it says nothing, unless the name it
    works on is missing. *)

Inductive Syscall : Type :=
| SysOpen (path : string)
| SysStat (path : string)
| SysMkdirAll (dir : string)
| SysTempFile (dir : string)
| SysChtimes (path : string)
| SysClose (ino : nat)
| SysRename (old new : string)
| SysRemove (path : string).

#[global] Instance Syscall_eq_dec : EqDecision Syscall.
Proof. solve_decision. Defined.

Record Env : Type := mkEnvironment {
  fault : Syscall -> option error;
  validURL : string -> bool;
  upstream : UpstreamRequest -> option Response;
  nonce : string;
  now : Time;
  room : nat;
  time_Parse : string -> option Time;
  contentType : string -> list byte -> string;
  serveConditional :
    ResponseWriter -> Request -> string -> Time -> list byte -> ResponseWriter;
  serveDirectory : ResponseWriter -> Request -> string -> Time -> ResponseWriter;
}.

(** An environment in which [http.ServeContent] writes nothing when it
    is given a directory. *)
Abbreviation mkEnv fault validURL upstream nonce now room time_Parse contentType
    serveConditional :=
  (mkEnvironment fault validURL upstream nonce now room time_Parse contentType
     serveConditional (λ rw _ _ _, rw)).

(** ** The world

    Everything shared between the requests and the downloaders: the file
    names of the cache directory and the inodes behind them, the
    directories with their modification times, the handle registry
    ([objectHandles], a [sync.Map]) and the handles it points
    to, the upstream bodies, the downloader goroutines, and a log of the
    calls made to the outside. *)

Record Inode : Type := mkInode { i_data : list byte; i_mtime : Time }.

Record objectHandle : Type := mkHandle {
  h_cleanPath : string;
  h_once : bool;                            (* [once] has run *)
  h_tempPath : string;
  h_trackingWriter : option trackingWriter;
}.

Record BodyState : Type := mkBodyState {
  bs_rest : list (list byte);
  bs_err : option error;
  bs_closed : bool;
}.

(** Where a downloader goroutine stands. *)
Inductive DlPc : Type :=
| DlCopy | DlChtimes | DlClose | DlPublish | DlDelete | DlBodyClose | DlExit.

#[global] Instance DlPc_eq_dec : EqDecision DlPc.
Proof. solve_decision. Defined.

Record Downloader : Type := mkDownloader {
  d_handle : nat;
  d_body : nat;
  d_modTime : Time;
  d_cachePath : string;
  d_pc : DlPc;
  d_err : option error;                     (* the goroutine's [err] *)
  d_n : Z;                                  (* bytes copied so far *)
}.

Inductive Call : Type :=
| CallOpen (path : string) (err : option error)
| CallStat (path : string)
| CallDo (req : UpstreamRequest)
| CallMkdirAll (dir : string) (err : option error)
| CallTempFile (dir pattern : string) (err : option error)
| CallWrite (handle : nat) (n : Z) (err : option error)
| CallChtimes (path : string) (mtime : Time) (err : option error)
| CallCloseWriter (handle : nat) (err : option error)
| CallRename (old new : string) (err : option error)
| CallRemove (path : string) (err : option error)
| CallLoadOrStore (key : string) (handle : nat) (loaded : bool)
| CallDelete (key : string)
| CallGo (goroutine : nat)
| CallBodyClose (body : nat).

#[global] Instance Header_eq_dec : EqDecision Header.
Proof. apply _. Defined.

#[global] Instance UpstreamRequest_eq_dec : EqDecision UpstreamRequest.
Proof. solve_decision. Defined.

#[global] Instance Call_eq_dec : EqDecision Call.
Proof. solve_decision. Defined.

Record World : Type := mkFileSystem {
  names : gmap string nat;
  inodes : list Inode;
  dirs : gmap string Time;
  objectHandles : gmap string nat;
  handles : list objectHandle;
  bodies : list BodyState;
  goroutines : list Downloader;
  calls : list Call;
}.

(** A world without directories. *)
Abbreviation mkWorld names inodes objectHandles handles bodies goroutines calls :=
  (mkFileSystem names inodes ∅ objectHandles handles bodies goroutines calls).

Definition emptyWorld : World := mkWorld ∅ [] ∅ [] [] [] [].

Definition set_names (f : gmap string nat -> gmap string nat) (w : World) : World :=
  mkFileSystem (f (names w)) (inodes w) (dirs w) (objectHandles w) (handles w) (bodies w)
    (goroutines w) (calls w).
Definition set_inodes (f : list Inode -> list Inode) (w : World) : World :=
  mkFileSystem (names w) (f (inodes w)) (dirs w) (objectHandles w) (handles w) (bodies w)
    (goroutines w) (calls w).
Definition set_dirs (f : gmap string Time -> gmap string Time) (w : World) : World :=
  mkFileSystem (names w) (inodes w) (f (dirs w)) (objectHandles w) (handles w) (bodies w)
    (goroutines w) (calls w).
Definition set_objectHandles (f : gmap string nat -> gmap string nat) (w : World) : World :=
  mkFileSystem (names w) (inodes w) (dirs w) (f (objectHandles w)) (handles w) (bodies w)
    (goroutines w) (calls w).
Definition set_handles (f : list objectHandle -> list objectHandle) (w : World) : World :=
  mkFileSystem (names w) (inodes w) (dirs w) (objectHandles w) (f (handles w)) (bodies w)
    (goroutines w) (calls w).
Definition set_bodies (f : list BodyState -> list BodyState) (w : World) : World :=
  mkFileSystem (names w) (inodes w) (dirs w) (objectHandles w) (handles w) (f (bodies w))
    (goroutines w) (calls w).
Definition set_goroutines (f : list Downloader -> list Downloader) (w : World) : World :=
  mkFileSystem (names w) (inodes w) (dirs w) (objectHandles w) (handles w) (bodies w)
    (f (goroutines w)) (calls w).
Definition log (c : Call) (w : World) : World :=
  mkFileSystem (names w) (inodes w) (dirs w) (objectHandles w) (handles w) (bodies w)
    (goroutines w) (calls w ++ [c]).

(** *** System calls *)

Definition lookup_file (path : string) (w : World) : option Inode :=
  names w !! path ≫= λ ino, inodes w !! ino.

(** What [os.Open] gives a descriptor on: a regular file, or the
    directory at a path. *)
Inductive Opened : Type :=
| OpenedFile (f : OsFile)
| OpenedDir (path : string).

(** [os.Open] opens what is at the path, a regular file or a directory. *)
Definition os_Open (env : Env) (path : string) (w : World) : (error + Opened) * World :=
  let res :=
    match fault env (SysOpen path) with
    | Some e => inl e
    | None =>
        match names w !! path with
        | Some ino => inr (OpenedFile (mkOsFile ino 0 false))
        | None =>
            match dirs w !! path with
            | Some _ => inr (OpenedDir path)
            | None => inl ENOENT
            end
        end
    end in
  (res, log (CallOpen path (match res with inl e => Some e | inr _ => None end)) w).

(** [f.Stat()] then [ModTime()] *)
Definition os_Stat (env : Env) (path : string) (f : Opened) (w : World)
  : (error + Time) * World :=
  let res :=
    match fault env (SysStat path) with
    | Some e => inl e
    | None =>
        match f with
        | OpenedFile f =>
            match inodes w !! fd_ino f with
            | Some i => inr (i_mtime i)
            | None => inl EIO
            end
        | OpenedDir d =>
            match dirs w !! d with
            | Some t => inr t
            | None => inl EIO
            end
        end
    end in
  (res, log (CallStat path) w).

(** Creating, renaming or removing an entry of a directory sets the
    modification time of the directory. *)
Definition touch (t : Time) (dir : string) (ds : gmap string Time) : gmap string Time :=
  alter (λ _, t) dir ds.

(** The path and the directories above it, up to the root or the working
    directory, which are there in any case. *)
Fixpoint ancestors (fuel : nat) (dir : string) : list string :=
  match fuel with
  | O => []
  | S fuel' =>
      if String.eqb (path_Dir dir) dir then []
      else dir :: ancestors fuel' (path_Dir dir)
  end.

Definition mkdir (t : Time) (dir : string) (ds : gmap string Time) : gmap string Time :=
  match ds !! dir with
  | Some _ => ds
  | None => <[dir := t]> (touch t (path_Dir dir) ds)
  end.

(** [os.MkdirAll]: the directories that are missing are created, from the
    top down. *)
Definition os_MkdirAll (env : Env) (dir : string) (w : World) : option error * World :=
  match fault env (SysMkdirAll dir) with
  | Some e => (Some e, log (CallMkdirAll dir (Some e)) w)
  | None =>
      (None,
       log (CallMkdirAll dir None)
         (set_dirs (λ ds, foldr (mkdir (now env)) ds (ancestors (S (String.length dir)) dir))
            w))
  end.

(** [ioutil.TempFile(dir, prefix + "*")]: a new empty file named after the
    prefix and the random string. *)
Definition ioutil_TempFile (env : Env) (dir pfx : string) (w : World)
  : (error + string * nat) * World :=
  let name := path_Join dir (pfx ++ nonce env) in
  let pattern := (pfx ++ "*")%string in
  match fault env (SysTempFile dir) with
  | Some e => (inl e, log (CallTempFile dir pattern (Some e)) w)
  | None =>
      match names w !! name with
      | Some _ => (inl EEXIST, log (CallTempFile dir pattern (Some EEXIST)) w)
      | None =>
          let ino := length (inodes w) in
          (inr (name, ino),
           log (CallTempFile dir pattern None)
             (set_names <[name := ino]>
                (set_inodes (λ l, l ++ [mkInode [] (now env)])
                   (set_dirs (touch (now env) (path_Dir name)) w))))
      end
  end.

Definition os_Chtimes (env : Env) (path : string) (mtime : Time) (w : World)
  : option error * World :=
  match fault env (SysChtimes path) with
  | Some e => (Some e, log (CallChtimes path mtime (Some e)) w)
  | None =>
      match names w !! path with
      | None => (Some ENOENT, log (CallChtimes path mtime (Some ENOENT)) w)
      | Some ino =>
          (None,
           log (CallChtimes path mtime None)
             (set_inodes (alter (λ i, mkInode (i_data i) mtime) ino) w))
      end
  end.

Definition os_Rename (env : Env) (old new : string) (w : World) : option error * World :=
  match fault env (SysRename old new) with
  | Some e => (Some e, log (CallRename old new (Some e)) w)
  | None =>
      match names w !! old with
      | None => (Some ENOENT, log (CallRename old new (Some ENOENT)) w)
      | Some ino =>
          (None, log (CallRename old new None)
                   (set_names (λ m, <[new := ino]> (delete old m))
                      (set_dirs (λ ds, touch (now env) (path_Dir new)
                                         (touch (now env) (path_Dir old) ds)) w)))
      end
  end.

Definition os_Remove (env : Env) (path : string) (w : World) : option error * World :=
  match fault env (SysRemove path) with
  | Some e => (Some e, log (CallRemove path (Some e)) w)
  | None =>
      match names w !! path with
      | None => (Some ENOENT, log (CallRemove path (Some ENOENT)) w)
      | Some ino =>
          (None, log (CallRemove path None)
                   (set_names (delete path)
                      (set_dirs (touch (now env) (path_Dir path)) w)))
      end
  end.

(** [body.Close()] *)
Definition body_Close (b : nat) (w : World) : World :=
  log (CallBodyClose b)
    (set_bodies (alter (λ s, mkBodyState (bs_rest s) (bs_err s) true) b) w).

(** ** The downloader goroutine

    The function started by [go] inside [objectHandle.Get].  Its actions
    on the shared state come first; [downloader] runs them in the order
    of the source, [dl_step] runs one of them at a time. *)

Definition set_pc (d : Downloader) (pc : DlPc) (err : option error) (n : Z) : Downloader :=
  mkDownloader (d_handle d) (d_body d) (d_modTime d) (d_cachePath d) pc err n.

Definition set_writer (h : objectHandle) (tw : trackingWriter) : objectHandle :=
  mkHandle (h_cleanPath h) (h_once h) (h_tempPath h) (Some tw).

Definition tempPathOf (hid : nat) (w : World) : string :=
  default EmptyString (h_tempPath <$> handles w !! hid).

Definition cleanPathOfHandle (hid : nat) (w : World) : string :=
  default EmptyString (h_cleanPath <$> handles w !! hid).

(** [body.Read]: the next chunk, if the body has one. *)
Definition body_Read (b : nat) (w : World) : option (list byte) * World :=
  match bodies w !! b with
  | Some (mkBodyState (chunk :: rest) err closed) =>
      (Some chunk, set_bodies <[b := mkBodyState rest err closed]> w)
  | _ => (None, w)
  end.

Definition body_err (b : nat) (w : World) : option error :=
  bodies w !! b ≫= bs_err.

(** [h.trackingWriter.Write(chunk)] on the shared writer and file.  The
    goroutine starts after the writer is stored in the handle; without a
    writer nothing is written. *)
Definition writer_Write (env : Env) (hid : nat) (chunk : list byte) (w : World)
  : Z * option error * World :=
  match handles w !! hid with
  | Some h =>
      match h_trackingWriter h with
      | Some tw =>
          let data := default [] (i_data <$> inodes w !! tw_wrapped tw) in
          let '(n, err, tw', data', _) := tw_Write tw data chunk (room env) 0 in
          let w := set_inodes <[tw_wrapped tw := mkInode data' (now env)]> w in
          let w := set_handles <[hid := set_writer h tw']> w in
          (n, err, log (CallWrite hid n err) w)
      | None => (0, Some EINVAL, w)
      end
  | None => (0, Some EINVAL, w)
  end.

(** One round of the loop of [io.Copy] that read [chunk]: the error that
    ends the copy, if any. *)
Definition copy_chunk (env : Env) (hid : nat) (chunk : list byte) (w : World)
  : Z * option error * World :=
  let '(n, err, w) := writer_Write env hid chunk w in
  (n,
   match err with
   | Some e => Some e
   | None => if n =? Zlen chunk then None else Some ErrShortWrite
   end, w).

(** [io.Copy(h.trackingWriter, body)]; [fuel] bounds the rounds and is
    the number of chunks the body still holds. *)
Fixpoint io_Copy (env : Env) (hid b : nat) (fuel : nat) (w : World)
  : Z * option error * World :=
  match fuel with
  | O => (0, body_err b w, w)
  | S fuel' =>
      match body_Read b w with
      | (None, w) => (0, body_err b w, w)
      | (Some chunk, w) =>
          let '(n, err, w) := copy_chunk env hid chunk w in
          match err with
          | Some e => (n, Some e, w)
          | None =>
              let '(m, err, w) := io_Copy env hid b fuel' w in
              (n + m, err, w)
          end
      end
  end.

(** [h.trackingWriter.Close()] *)
Definition writer_Close (env : Env) (hid : nat) (w : World) : World :=
  match handles w !! hid with
  | Some h =>
      match h_trackingWriter h with
      | Some tw =>
          let '(cerr, tw') := tw_Close tw (fault env (SysClose (tw_wrapped tw))) in
          log (CallCloseWriter hid cerr) (set_handles <[hid := set_writer h tw']> w)
      | None => w
      end
  | None => w
  end.

(** [os.Rename(h.tempPath, cachePath)] when [err] is nil, [os.Remove]
    otherwise. *)
Definition publish (env : Env) (hid : nat) (cachePath : string) (err : option error)
    (w : World) : World :=
  match err with
  | None => (os_Rename env (tempPathOf hid w) cachePath w).2
  | Some _ => (os_Remove env (tempPathOf hid w) w).2
  end.

(** [h.proxy.objectHandles.Delete(h.cleanPath)] *)
Definition registry_Delete (hid : nat) (w : World) : World :=
  log (CallDelete (cleanPathOfHandle hid w))
    (set_objectHandles (delete (cleanPathOfHandle hid w)) w).

(** The goroutine from start to end. *)
Definition downloader (env : Env) (hid b : nat) (modTime : Time) (cachePath : string)
    (w : World) : World :=
  let chunks := default [] (bs_rest <$> bodies w !! b) in
  let '(n, err, w) := io_Copy env hid b (length chunks) w in
  let '(err, w) :=
    match err with
    | Some e => (Some e, w)
    | None => os_Chtimes env (tempPathOf hid w) modTime w
    end in
  let w := writer_Close env hid w in
  let w := publish env hid cachePath err w in
  let w := registry_Delete hid w in
  body_Close b w.

Definition set_goroutine (g : nat) (d : Downloader) (w : World) : World :=
  set_goroutines <[g := d]> w.

Definition dl_step (env : Env) (g : nat) (w : World) : World :=
  match goroutines w !! g with
  | None => w
  | Some d =>
      match d_pc d with
      | DlCopy =>
          match body_Read (d_body d) w with
          | (Some chunk, w) =>
              let '(n, err, w) := copy_chunk env (d_handle d) chunk w in
              set_goroutine g
                (set_pc d (match err with Some _ => DlClose | None => DlCopy end)
                   err (d_n d + n)) w
          | (None, w) =>
              set_goroutine g
                (set_pc d
                   (match body_err (d_body d) w with
                    | Some _ => DlClose
                    | None => DlChtimes
                    end)
                   (body_err (d_body d) w) (d_n d)) w
          end
      | DlChtimes =>
          let '(err, w) := os_Chtimes env (tempPathOf (d_handle d) w) (d_modTime d) w in
          set_goroutine g (set_pc d DlClose err (d_n d)) w
      | DlClose =>
          set_goroutine g (set_pc d DlPublish (d_err d) (d_n d))
            (writer_Close env (d_handle d) w)
      | DlPublish =>
          set_goroutine g (set_pc d DlDelete (d_err d) (d_n d))
            (publish env (d_handle d) (d_cachePath d) (d_err d) w)
      | DlDelete =>
          set_goroutine g (set_pc d DlBodyClose (d_err d) (d_n d))
            (registry_Delete (d_handle d) w)
      | DlBodyClose =>
          set_goroutine g (set_pc d DlExit (d_err d) (d_n d))
            (body_Close (d_body d) w)
      | DlExit => w
      end
  end.

Fixpoint dl_run (env : Env) (g : nat) (fuel : nat) (w : World) : World :=
  match fuel with
  | O => w
  | S fuel' => dl_run env g fuel' (dl_step env g w)
  end.

(** ** Object handle *)

(** The two implementations of [ReadSeekCloser] that [Get] returns: a
    [partiallyDownloadedFile] of a handle and an [*os.File], each opened
    on a regular file; and either of them opened on a directory, wrapped
    for the handle [wrapper] or bare. *)
Inductive ReadSeekCloser : Type :=
| RSPartial (handle : nat) (r : partiallyDownloadedFile)
| RSFile (f : OsFile)
| RSDirectory (wrapper : option nat) (path : string).

(** What a request needs once its upstream answer was found cachable. *)
Record Cachable : Type := mkCachable {
  c_cleanPath : string;
  c_cachePath : string;
  c_body : nat;
  c_modTime : Time;
  c_size : Z;
}.

(** [objectHandles.LoadOrStore(cleanPath, &objectHandle{...})] *)
Definition LoadOrStore (key : string) (w : World) : nat * World :=
  match objectHandles w !! key with
  | Some hid => (hid, log (CallLoadOrStore key hid true) w)
  | None =>
      let hid := length (handles w) in
      (hid,
       log (CallLoadOrStore key hid false)
         (set_objectHandles <[key := hid]>
            (set_handles (λ l, l ++ [mkHandle key false EmptyString None]) w)))
  end.

(** [h.once.Do(func() {...})]; the result is [shouldCloseBody]. *)
Definition Get_once (env : Env) (hid : nat) (c : Cachable) (w : World) : bool * World :=
  match handles w !! hid with
  | None => (true, w)
  | Some h =>
      if h_once h then (true, w)
      else
        let cacheDir := path_Dir (c_cachePath c) in
        let w := set_handles
                   <[hid := mkHandle (h_cleanPath h) true (h_tempPath h)
                              (h_trackingWriter h)]> w in
        let '(err, w) := os_MkdirAll env cacheDir w in
        match err with
        | Some _ => (true, w)
        | None =>
            let '(res, w) :=
              ioutil_TempFile env cacheDir (path_Base (c_cachePath c) ++ ".part.") w in
            match res with
            | inl _ => (true, w)
            | inr (name, ino) =>
                let w := set_handles
                           <[hid := mkHandle (h_cleanPath h) true name
                                      (Some (newTrackingWriter ino (c_size c)))]> w in
                let g := length (goroutines w) in
                (false,
                 log (CallGo g)
                   (set_goroutines
                      (λ l, l ++ [mkDownloader hid (c_body c) (c_modTime c)
                                    (c_cachePath c) DlCopy None 0]) w))
            end
        end
  end.

(** [os.Open(h.tempPath)] and the reader built on it. *)
Definition Get_openTemp (env : Env) (hid : nat) (w : World)
  : (error + ReadSeekCloser) * World :=
  let tempPath := default EmptyString (h_tempPath <$> handles w !! hid) in
  let '(res, w) := os_Open env tempPath w in
  (match res with
   | inr (OpenedFile rfile) => inr (RSPartial hid (mkPartial rfile 0 0 false))
   | inr (OpenedDir d) => inr (RSDirectory (Some hid) d)
   | inl e => inl e
   end, w).

(** [os.Open(cachePath)], tried when the temporary file is gone. *)
Definition Get_openCache (env : Env) (cachePath : string) (w : World)
  : (error + ReadSeekCloser) * World :=
  let '(res, w) := os_Open env cachePath w in
  (match res with
   | inr (OpenedFile rfile) => inr (RSFile rfile)
   | inr (OpenedDir d) => inr (RSDirectory None d)
   | inl e => inl e
   end, w).

(** The deferred function of [Get]. *)
Definition Get_defer (shouldCloseBody : bool) (body : nat) (w : World) : World :=
  if shouldCloseBody then body_Close body w else w.

Definition Get (env : Env) (hid : nat) (c : Cachable) (w : World)
  : (error + ReadSeekCloser) * World :=
  let '(shouldCloseBody, w) := Get_once env hid c w in
  let '(res, w) := Get_openTemp env hid w in
  let '(res, w) :=
    match res with
    | inr rd => (inr rd, w)
    | inl e => if IsNotExist e then Get_openCache env (c_cachePath c) w else (inl e, w)
    end in
  (res, Get_defer shouldCloseBody (c_body c) w).

(** ** Library: http.ServeContent

    For a request without range or precondition headers: [Last-Modified]
    unless the time is the zero time or the epoch, the content type,
    [Accept-Ranges], the length, status 200 and, unless the method is
    HEAD, the whole content.  A nil file cannot seek.  A request whose
    [If-None-Match] is [*], without [If-Match] and [If-Unmodified-Since],
    is answered 304 by [checkPreconditions] before anything is read; the
    rest of the range and precondition handling is left to the
    environment, and so is what becomes of a directory. *)

Definition conditionalHeaders : list string :=
  ["If-Match"; "If-Unmodified-Since"; "If-None-Match"; "If-Modified-Since";
   "Range"; "If-Range"]%string.

Definition plainRequest (r : Request) : bool :=
  forallb (λ k, bool_decide (ReqHeader r !! k = None)) conditionalHeaders.

Definition http_StatusPreconditionFailed : Z := 412.

(** [checkIfMatch] and [checkIfUnmodifiedSince] find no header and
    [checkIfNoneMatch] finds [*]. *)
Definition noneMatchAny (r : Request) : bool :=
  bool_decide (ReqHeader r !! "If-Match"%string = None)
  && bool_decide (ReqHeader r !! "If-Unmodified-Since"%string = None)
  && String.eqb (Header_Get "If-None-Match" (ReqHeader r)) "*".

Definition writeNotModified (rw : ResponseWriter) : ResponseWriter :=
  let rw :=
    rw_setHeader
      (λ h, delete "Content-Encoding"%string
              (delete "Content-Length"%string (delete "Content-Type"%string h))) rw in
  let rw :=
    if String.eqb (Header_Get "Etag" (rw_Header rw)) EmptyString then rw
    else rw_setHeader (delete "Last-Modified"%string) rw in
  WriteHeader http_StatusNotModified rw.

(** The answer of [checkPreconditions] to [If-None-Match: *]. *)
Definition noneMatchAnswer (r : Request) (rw : ResponseWriter) : ResponseWriter :=
  if String.eqb (Method r) http_MethodGet || String.eqb (Method r) http_MethodHead
  then writeNotModified rw
  else WriteHeader http_StatusPreconditionFailed rw.

Definition ServeContent (env : Env) (rw : ResponseWriter) (r : Request)
    (name : string) (modtime : Time) (content : option (list byte)) : ResponseWriter :=
  let rw :=
    if isZeroTime modtime then rw
    else rw_setHeader (Header_Set "Last-Modified" (formatHTTP modtime)) rw in
  if negb (plainRequest r) then
    if noneMatchAny r then noneMatchAnswer r rw
    else serveConditional env rw r name modtime (default [] content)
  else
    match content with
    | None => http_Error "seeker can't seek" http_StatusInternalServerError rw
    | Some data =>
        let rw :=
          match rw_Header rw !! "Content-Type"%string with
          | None => rw_setHeader (Header_Set "Content-Type" (contentType env name data)) rw
          | Some _ => rw
          end in
        let rw := rw_setHeader (Header_Set "Accept-Ranges" "bytes") rw in
        let rw :=
          if String.eqb (Header_Get "Content-Encoding" (rw_Header rw)) EmptyString
          then rw_setHeader (Header_Set "Content-Length" (FormatInt (Zlen data))) rw
          else rw in
        let rw := WriteHeader http_StatusOK rw in
        if String.eqb (Method r) http_MethodHead then rw else rw_Write data rw
    end.

(** [http.ServeContent] over a directory. *)
Definition ServeContent_directory (env : Env) (rw : ResponseWriter) (r : Request)
    (name : string) (modtime : Time) : ResponseWriter :=
  let rw :=
    if isZeroTime modtime then rw
    else rw_setHeader (Header_Set "Last-Modified" (formatHTTP modtime)) rw in
  if noneMatchAny r then noneMatchAnswer r rw
  else serveDirectory env rw r name modtime.

(** ** The request pipeline *)

Record CachingReverseProxy : Type := mkProxy {
  upstreamPrefix : string;
  cacheDir : string;
}.

(** How far [ServeHTTP] is followed: to a complete response, to a panic
    of its own ([panic(err)] after [NewRequest] and after [Stat]), or to
    the call of [http.ServeContent] over the reader that [Get] returned.
    What that call and the reader's [Close] after it do, a panic of
    [Read] included, is not part of [Streaming]: it is what [pd_Read],
    [pd_Seek] and [pd_Close] say of the reader. *)
Inductive Served : Type :=
| Responded (rw : ResponseWriter)
| Panicked
| Streaming (rw : ResponseWriter) (name : string) (modtime : Time)
    (rd : ReadSeekCloser).

(** [client.Do]: the response and its body, registered in the world. *)
Definition client_Do (env : Env) (req : UpstreamRequest) (w : World)
  : option (Response * nat) * World :=
  let w := log (CallDo req) w in
  match upstream env req with
  | None => (None, w)
  | Some resp =>
      let b := length (bodies w) in
      (Some (resp, b),
       set_bodies
         (λ l, l ++ [mkBodyState (b_chunks (RespBody resp)) (b_err (RespBody resp)) false])
         w)
  end.

Definition hasAcceptRangeBytes (resp : Response) : bool :=
  existsb (String.eqb "bytes") (default [] (RespHeader resp !! "Accept-Ranges"%string)).

(** The end of [ServeHTTP], from the "not caching" log line on. *)
Definition passThrough (env : Env) (rw : ResponseWriter) (r : Request)
    (resp : Response) (body : nat) (w : World) : ResponseWriter * World :=
  let rw :=
    if negb (ContentLength resp =? -1)
    then rw_setHeader (Header_Set "Content-Length" (FormatInt (ContentLength resp))) rw
    else rw in
  let rw :=
    match time_Parse env (Header_Get "Last-Modified" (RespHeader resp)) with
    | Some _ =>
        rw_setHeader
          (Header_Set "Last-Modified" (Header_Get "Last-Modified" (RespHeader resp))) rw
    | None => rw
    end in
  let rw :=
    match RespHeader resp !! "Content-Type"%string with
    | Some contentType => rw_setHeader <["Content-Type"%string := contentType]> rw
    | None => rw
    end in
  let rw :=
    if hasAcceptRangeBytes resp
    then rw_setHeader (Header_Set "Accept-Ranges" "bytes") rw
    else rw in
  let rw := WriteHeader (StatusCode resp) rw in
  if String.eqb (Method r) http_MethodGet then
    let rest := default [] (bs_rest <$> bodies w !! body) in
    let rw := rw_Write (concat rest) rw in
    let w := set_bodies
               (alter (λ s, mkBodyState [] (bs_err s) (bs_closed s)) body) w in
    (rw, body_Close body w)
  else (rw, w).

(** What the first part of [ServeHTTP] leaves to do. *)
Inductive Begun : Type :=
| Done (s : Served)
| IsCachable (c : Cachable).

(** The cache probe: [os.Open(cachePath)], [Stat] and the upstream
    request with its conditional header.  A failing [Stat] panics. *)
Definition probeCache (env : Env) (method url cachePath : string) (w : World)
  : option (option Opened * Time * UpstreamRequest) * World :=
  let '(opened, w) := os_Open env cachePath w in
  match opened with
  | inr cacheFile =>
      let '(st, w) := os_Stat env cachePath cacheFile w in
      match st with
      | inr cacheModTime =>
          (Some (Some cacheFile, cacheModTime,
                 mkUpstreamRequest method url
                   (Header_Set "If-Modified-Since" (formatHTTP cacheModTime) ∅)), w)
      | inl _ => (None, w)
      end
  | inl _ => (Some (None, zeroTime, mkUpstreamRequest method url ∅), w)
  end.

(** The condition under which the answer goes through the cache. *)
Definition cachable (env : Env) (r : Request) (upstreamResp : Response) : bool :=
  String.eqb (Method r) http_MethodGet
  && (StatusCode upstreamResp =? http_StatusOK)
  && hasAcceptRangeBytes upstreamResp
  && negb (ContentLength upstreamResp =? -1)
  && bool_decide (is_Some (time_Parse env (Header_Get "Last-Modified" (RespHeader upstreamResp)))).

(** [http.ServeContent(w, r, path.Base(cachePath), cacheModTime,
    cacheFile)]: over the regular file or the directory that was opened,
    or over a nil file. *)
Definition serveCached (env : Env) (rw : ResponseWriter) (r : Request)
    (cachePath : string) (cacheFile : option Opened) (cacheModTime : Time)
    (w : World) : ResponseWriter :=
  match cacheFile with
  | Some (OpenedFile f) =>
      ServeContent env rw r (path_Base cachePath) cacheModTime
        (i_data <$> inodes w !! fd_ino f)
  | Some (OpenedDir _) =>
      ServeContent_directory env rw r (path_Base cachePath) cacheModTime
  | None => ServeContent env rw r (path_Base cachePath) cacheModTime None
  end.

(** [ServeHTTP] from the upstream response on. *)
Definition branchOnStatus (env : Env) (rw : ResponseWriter) (r : Request)
    (cleanPath cachePath : string) (cacheFile : option Opened) (cacheModTime : Time)
    (upstreamResp : Response) (body : nat) (w : World) : Begun * World :=
  if StatusCode upstreamResp =? http_StatusNotModified then
    (Done (Responded (serveCached env rw r cachePath cacheFile cacheModTime w)), w)
  else
    let upstreamLastModified :=
      default zeroTime (time_Parse env (Header_Get "Last-Modified" (RespHeader upstreamResp))) in
    if cachable env r upstreamResp then
      (IsCachable
         (mkCachable cleanPath cachePath body upstreamLastModified
            (ContentLength upstreamResp)), w)
    else
      let '(rw, w) := passThrough env rw r upstreamResp body w in
      (Done (Responded rw), w).

(** [ServeHTTP] up to the decision whether the answer is cachable. *)
Definition ServeHTTP_begin (env : Env) (p : CachingReverseProxy)
    (rw : ResponseWriter) (r : Request) (w : World) : Begun * World :=
  if negb (String.eqb (Method r) http_MethodHead)
     && negb (String.eqb (Method r) http_MethodGet) then
    (Done (Responded
             (WriteHeader http_StatusMethodNotAllowed
                (Fprintln "Only HEAD or GET allowed" rw))), w)
  else
    let cleanPath := path_Clean ("/" ++ URLPath r) in
    let cachePath := path_Join (cacheDir p) cleanPath in
    let url := (upstreamPrefix p ++ cleanPath)%string in
    if negb (validURL env url) then (Done Panicked, w)
    else
      let '(probe, w) := probeCache env (Method r) url cachePath w in
      match probe with
      | None => (Done Panicked, w)
      | Some (cacheFile, cacheModTime, upstreamReq) =>
          let '(done, w) := client_Do env upstreamReq w in
          match done with
          | None => (Done (Responded (statusError http_StatusBadGateway rw)), w)
          | Some (upstreamResp, body) =>
              branchOnStatus env rw r cleanPath cachePath cacheFile cacheModTime
                upstreamResp body w
          end
      end.

(** The end of the cachable branch, after [handle.Get] returned. *)
Definition ServeHTTP_finish (rw : ResponseWriter) (c : Cachable)
    (res : error + ReadSeekCloser) : Served :=
  match res with
  | inl _ => Responded (statusError http_StatusInternalServerError rw)
  | inr rd => Streaming rw (path_Base (c_cleanPath c)) (c_modTime c) rd
  end.

Definition ServeHTTP (env : Env) (p : CachingReverseProxy)
    (rw : ResponseWriter) (r : Request) (w : World) : Served * World :=
  let '(b, w) := ServeHTTP_begin env p rw r w in
  match b with
  | Done s => (s, w)
  | IsCachable c =>
      let '(handle, w) := LoadOrStore (c_cleanPath c) w in
      let '(res, w) := Get env handle c w in
      (ServeHTTP_finish rw c res, w)
  end.

(** ** Concurrent executions

    The HTTP server runs every request in a goroutine of its own, next to
    the downloaders.  A request advances through the shared-state actions
    of [ServeHTTP] one at a time; a schedule says which goroutine moves
    next and what the environment does at that moment. *)

Inductive RqPc : Type :=
| RqBegin
| RqLoadOrStore (c : Cachable)
| RqOnce (c : Cachable) (handle : nat)
| RqOpenTemp (c : Cachable) (handle : nat) (shouldCloseBody : bool)
| RqOpenCache (c : Cachable) (shouldCloseBody : bool)
| RqReturn (c : Cachable) (shouldCloseBody : bool) (res : error + ReadSeekCloser)
| RqEnd (s : Served).

Record RequestThread : Type := mkThread {
  rq_request : Request;
  rq_rw : ResponseWriter;
  rq_pc : RqPc;
}.

Definition rq_step (env : Env) (p : CachingReverseProxy) (t : RequestThread)
    (w : World) : RequestThread * World :=
  let goto pc := mkThread (rq_request t) (rq_rw t) pc in
  match rq_pc t with
  | RqBegin =>
      let '(b, w) := ServeHTTP_begin env p (rq_rw t) (rq_request t) w in
      (goto (match b with Done s => RqEnd s | IsCachable c => RqLoadOrStore c end), w)
  | RqLoadOrStore c =>
      let '(handle, w) := LoadOrStore (c_cleanPath c) w in
      (goto (RqOnce c handle), w)
  | RqOnce c handle =>
      let '(shouldCloseBody, w) := Get_once env handle c w in
      (goto (RqOpenTemp c handle shouldCloseBody), w)
  | RqOpenTemp c handle scb =>
      let '(res, w) := Get_openTemp env handle w in
      (goto (match res with
             | inr rd => RqReturn c scb (inr rd)
             | inl e => if IsNotExist e then RqOpenCache c scb else RqReturn c scb (inl e)
             end), w)
  | RqOpenCache c scb =>
      let '(res, w) := Get_openCache env (c_cachePath c) w in
      (goto (RqReturn c scb res), w)
  | RqReturn c scb res =>
      (goto (RqEnd (ServeHTTP_finish (rq_rw t) c res)), Get_defer scb (c_body c) w)
  | RqEnd _ => (t, w)
  end.

(** A request running on its own for [fuel] actions. *)
Fixpoint rq_run (env : Env) (p : CachingReverseProxy) (fuel : nat)
    (t : RequestThread) (w : World) : RequestThread * World :=
  match fuel with
  | O => (t, w)
  | S fuel' => let '(t', w') := rq_step env p t w in rq_run env p fuel' t' w'
  end.

Record Machine : Type := mkMachine {
  m_world : World;
  m_threads : list RequestThread;
}.

Inductive Label : Type :=
| RunRequest (env : Env) (i : nat)
| RunDownloader (env : Env) (g : nat).

Definition step (p : CachingReverseProxy) (m : Machine) (l : Label) : Machine :=
  match l with
  | RunRequest env i =>
      match m_threads m !! i with
      | Some t =>
          let '(t', w) := rq_step env p t (m_world m) in
          mkMachine w (<[i := t']> (m_threads m))
      | None => m
      end
  | RunDownloader env g => mkMachine (dl_step env g (m_world m)) (m_threads m)
  end.

Definition run (p : CachingReverseProxy) (m : Machine) (schedule : list Label) : Machine :=
  fold_left (step p) schedule m.

(** [n] clients sending the same request at once. *)
Definition clients (w : World) (r : Request) (n : nat) : Machine :=
  mkMachine w (replicate n (mkThread r newResponseWriter RqBegin)).

(** Clients sending the requests [rs] at once. *)
Definition clientsOf (w : World) (rs : list Request) : Machine :=
  mkMachine w ((λ r, mkThread r newResponseWriter RqBegin) <$> rs).

Definition isDo (c : Call) : bool :=
  match c with CallDo _ => true | _ => false end.

(** The upstream requests issued so far. *)
Definition upstreamRequests (w : World) : list Call := List.filter isDo (calls w).

(** A downloader still holds its place in the registry until it has run
    [Delete]. *)
Definition registered (d : Downloader) : bool :=
  match d_pc d with
  | DlBodyClose | DlExit => false
  | _ => true
  end.


(** ** Concrete scenarios *)

Definition bytes (s : string) : list byte := list_byte_of_string s.

(** A reader freshly returned by [Get] on inode 0. *)
Definition freshReader : partiallyDownloadedFile :=
  mkPartial (mkOsFile 0 0 false) 0 0 false.

(** A download of a 10-byte object that stopped after 4 bytes. *)
Definition shortWriter : trackingWriter := mkTrackingWriter 0 10 4 true.
Definition shortData : list byte := bytes "0123".

(** The object of the end-to-end scenarios and an environment that
    serves it. *)
Definition lastModified1 : string := "Wed, 21 Oct 2015 07:28:00 GMT".
Definition mtime1 : Time := mkTime 1445412480 0.

Definition parseTable (s : string) : option Time :=
  if String.eqb s lastModified1 then Some mtime1 else None.

Definition noFault : Syscall -> option error := λ _, None.

Definition faultOn (s : Syscall) (e : error) : Syscall -> option error :=
  λ s', if decide (s' = s) then Some e else None.

Definition object1 : Response :=
  mkResponse 200
    (<["Last-Modified"%string := [lastModified1]]>
       (<["Accept-Ranges"%string := ["bytes"%string]]>
          (<["Content-Type"%string := ["application/octet-stream"%string]]> ∅)))
    10 (mkBody [bytes "01234"; bytes "56789"] None).

Definition notFound : Response :=
  mkResponse 404 (<["Server"%string := ["nginx"%string]]> ∅) 0 (mkBody [] None).

Definition notModified : Response := mkResponse 304 ∅ 0 (mkBody [] None).

Definition testEnv (fault : Syscall -> option error)
    (upstream : UpstreamRequest -> option Response) : Env :=
  mkEnv fault (λ _, true) upstream "123456" (mkTime 1700000000 0) 4096
    parseTable (λ _ _, "application/octet-stream"%string) (λ rw _ _ _ _, rw).

Definition proxy1 : CachingReverseProxy := mkProxy "http://mirror.example.org" "cache.d".

Definition request (method path : string) : Request := mkRequest method path ∅.

(** The cache after scenario S1: [/x/y.pkg] is cached. *)
Definition cachedWorld : World :=
  mkWorld (<["cache.d/x/y.pkg"%string := 0%nat]> ∅)
    [mkInode (bytes "0123456789") mtime1] ∅ [] [] [] [].

(** An upstream body is closed. *)
Definition bodyClosed (b : nat) (w : World) : Prop :=
  bs_closed <$> bodies w !! b = Some true.


Definition isWrite (c : Call) : Prop :=
  match c with CallWrite _ _ _ => True | _ => False end.

(** What the copy loop of a downloader on handle [hid] reading body [b]
    leaves alone between two worlds: names, registry and goroutines; the
    handle but for its writer; the body but for what is left to read; and
    the log but for the writes added. *)
Definition copyFrame (hid b : nat) (w w' : World) : Prop :=
  names w' = names w
  ∧ objectHandles w' = objectHandles w
  ∧ goroutines w' = goroutines w
  ∧ length (inodes w') = length (inodes w)
  ∧ (∀ h, handles w !! hid = Some h -> is_Some (h_trackingWriter h) ->
          ∃ tw', handles w' !! hid = Some (set_writer h tw'))
  ∧ (∀ bs, bodies w !! b = Some bs ->
           ∃ rest, bodies w' !! b = Some (mkBodyState rest (bs_err bs) (bs_closed bs)))
  ∧ ∃ writes, calls w' = calls w ++ writes ∧ Forall isWrite writes.

(** Two worlds that differ at most in file names and inodes. *)
Definition sameButFiles (w w' : World) : Prop :=
  objectHandles w' = objectHandles w ∧ handles w' = handles w
  ∧ bodies w' = bodies w ∧ goroutines w' = goroutines w ∧ calls w' = calls w.

(** *** The skeleton of the shared state

    What decides how many downloads run: the registry, the path and the
    [once] of every handle, and the handle of every downloader with
    whether it still has to run [Delete]. *)

Record Skeleton : Type := mkSkeleton {
  sk_reg : gmap string nat;
  sk_handles : list (string * bool);
  sk_goroutines : list (nat * bool);
}.

Definition hsk (h : objectHandle) : string * bool := (h_cleanPath h, h_once h).
Definition gsk (d : Downloader) : nat * bool := (d_handle d, registered d).

Definition skeleton (w : World) : Skeleton :=
  mkSkeleton (objectHandles w) (hsk <$> handles w) (gsk <$> goroutines w).

(** An action that leaves the skeleton as it is. *)
Definition quiet (w w' : World) : Prop :=
  objectHandles w' = objectHandles w
  ∧ hsk <$> handles w' = hsk <$> handles w
  ∧ goroutines w' = goroutines w.

(** The moves of the skeleton: none; [LoadOrStore] storing a new handle;
    [once.Do] running, with or without starting the downloader; and a
    downloader running [Delete]. *)
Inductive skstep : Skeleton -> Skeleton -> Prop :=
| sk_stutter s : skstep s s
| sk_store s k :
    sk_reg s !! k = None ->
    skstep s (mkSkeleton (<[k := length (sk_handles s)]> (sk_reg s))
                (sk_handles s ++ [(k, false)]) (sk_goroutines s))
| sk_once s hid k (spawn : bool) :
    sk_handles s !! hid = Some (k, false) ->
    skstep s (mkSkeleton (sk_reg s) (<[hid := (k, true)]> (sk_handles s))
                (sk_goroutines s ++ (if spawn then [(hid, true)] else [])))
| sk_delete s g hid :
    sk_goroutines s !! g = Some (hid, true) ->
    skstep s (mkSkeleton
                (delete (default EmptyString (fst <$> sk_handles s !! hid)) (sk_reg s))
                (sk_handles s) (<[g := (hid, false)]> (sk_goroutines s))).

(** The invariant of the skeleton. *)
Record SkInv (s : Skeleton) : Prop := mkSkInv {
  (* a registered key leads to a handle of that path *)
  inv_reg : ∀ k hid, sk_reg s !! k = Some hid ->
                     ∃ o, sk_handles s !! hid = Some (k, o);
  (* a downloader belongs to a handle whose once has run *)
  inv_spawned : ∀ g hid b, sk_goroutines s !! g = Some (hid, b) ->
                           ∃ k, sk_handles s !! hid = Some (k, true);
  (* a handle has at most one downloader *)
  inv_once : ∀ g1 g2 hid b1 b2,
      sk_goroutines s !! g1 = Some (hid, b1) ->
      sk_goroutines s !! g2 = Some (hid, b2) -> g1 = g2;
  (* a downloader that has not run Delete is the one of the registry *)
  inv_live : ∀ g hid k o,
      sk_goroutines s !! g = Some (hid, true) ->
      sk_handles s !! hid = Some (k, o) -> sk_reg s !! k = Some hid;
  (* a handle whose once has not run is in the registry *)
  inv_fresh : ∀ hid k, sk_handles s !! hid = Some (k, false) ->
                       sk_reg s !! k = Some hid;
}.

(** The reader a request has been given, if any. *)
Definition readerOf (t : RequestThread) : option ReadSeekCloser :=
  match rq_pc t with
  | RqReturn _ _ (inr rd) => Some rd
  | RqEnd (Streaming _ _ _ rd) => Some rd
  | _ => None
  end.

(** The handle a request works with, if any. *)
Definition handleOf (t : RequestThread) : option nat :=
  match rq_pc t with
  | RqOnce _ hid | RqOpenTemp _ hid _ => Some hid
  | _ =>
      match readerOf t with
      | Some (RSPartial hid _) | Some (RSDirectory (Some hid) _) => Some hid
      | _ => None
      end
  end.

(** The request went through the registry and has not failed since. *)
Definition attached (t : RequestThread) : bool :=
  match rq_pc t with
  | RqLoadOrStore _ | RqOnce _ _ | RqOpenTemp _ _ _ | RqOpenCache _ _
  | RqReturn _ _ _ | RqEnd (Streaming _ _ _ _) => true
  | _ => false
  end.

Definition attachedCount (m : Machine) : nat :=
  length (List.filter attached (m_threads m)).

Definition requestPath (t : RequestThread) : string :=
  path_Clean ("/" ++ URLPath (rq_request t)).

(** The handle a request works with is a handle of the requested path. *)
Definition threadOK (s : Skeleton) (t : RequestThread) : Prop :=
  (∀ hid, handleOf t = Some hid -> ∃ o, sk_handles s !! hid = Some (requestPath t, o))
  ∧ match rq_pc t with
    | RqLoadOrStore c => c_cleanPath c = requestPath t
    | _ => True
    end.

Definition count (b : bool) : nat := if b then 1%nat else 0%nat.

(** The invariant of a run for clients that all ask for the path [k]. *)
Definition MInv (k : string) (m : Machine) : Prop :=
  SkInv (skeleton (m_world m))
  ∧ ∀ i t, m_threads m !! i = Some t ->
           requestPath t = k ∧ threadOK (skeleton (m_world m)) t.

(** Two clients at once, one after the other through [Get], while the
    downloader has not written anything yet. *)
Definition twoClients : Machine :=
  let env := testEnv noFault (λ _, Some object1) in
  run proxy1 (clients emptyWorld (request "GET" "/x/y.pkg") 2)
    (replicate 5 (RunRequest env 0) ++ replicate 5 (RunRequest env 1)).

(** Two clients at once.  The second has asked the upstream and found
    the answer cachable before the first goes through [Get]; it reaches
    the registry when the downloader of the first has renamed the file
    and run [Delete], and has not yet run its deferred [body.Close]. *)
Definition overlap : Machine :=
  let env := testEnv noFault (λ _, Some object1) in
  run proxy1 (clients emptyWorld (request "GET" "/x/y.pkg") 2)
    ([RunRequest env 1] ++ replicate 5 (RunRequest env 0)
     ++ replicate 7 (RunDownloader env 0) ++ replicate 4 (RunRequest env 1)).

(** Two clients of one path whose requests differ: another spelling of
    the path, and a [Range] header. *)
Definition rangeRequest : Request :=
  mkRequest "GET" "/x/./y.pkg" (<["Range"%string := ["bytes=0-3"%string]]> ∅).

Definition twoSpellings : Machine :=
  let env := testEnv noFault (λ _, Some object1) in
  run proxy1 (clientsOf emptyWorld [request "GET" "/x/y.pkg"; rangeRequest])
    (replicate 5 (RunRequest env 0) ++ replicate 5 (RunRequest env 1)).

(** The world after [/x/y.pkg] was requested from an empty cache and
    downloaded: the file and the directories made for it. *)
Definition downloadedWorld : World :=
  let env := testEnv noFault (λ _, Some object1) in
  dl_run env 0 8
    (ServeHTTP env proxy1 newResponseWriter (request "GET" "/x/y.pkg") emptyWorld).2.


(** The values a reader may receive on [updateWritten] are byte counts. *)
Definition validEvent (e : selectEvent) : Prop :=
  match e with
  | RecvUpdate v => 0 <= v <= Int64.max
  | RecvDone => True
  end.

(** The positions [Seek] may compute for [whence]. *)
Definition seekTarget (r : partiallyDownloadedFile) (tw : trackingWriter)
    (offset whence pos : Z) : Prop :=
  (whence = io_SeekStart ∧ pos = offset)
  ∨ (whence = io_SeekCurrent ∧ pos = Int64.add (pd_pos r) offset)
  ∨ (whence = io_SeekEnd ∧ pos = Int64.add (tw_size tw) offset).

(** The bound the data model states for a writer of declared [size]. *)
Definition writtenBounded (size : Z) (calls : list (list byte * nat * nat)) : Prop :=
  Forall (λ written, 0 <= written <= size)
    (tw_writes (newTrackingWriter 0 size) [] calls).

(** *** Notions used by the further properties *)

(** The reader's position and the offset of its file agree, or a seek is
    pending that will set the offset before the next read. *)
Definition inSync (r : partiallyDownloadedFile) : Prop :=
  pd_seekBeforeRead r = true ∨ fd_off (pd_wrapped r) = pd_pos r.

(** Two worlds with the same cache: file names, inodes, registry, handles
    and downloaders. *)
Definition sameCache (w w' : World) : Prop :=
  names w' = names w ∧ inodes w' = inodes w ∧ objectHandles w' = objectHandles w
  ∧ handles w' = handles w ∧ goroutines w' = goroutines w.

(** An element of a cleaned path: not empty, not [.] or [..], and free of
    slashes. *)
Definition plainElement (seg : list ascii) : Prop :=
  seg ≠ [] ∧ seg ≠ ["."%char] ∧ seg ≠ dotdot ∧ slash ∉ seg.

(** An upstream answer whose body breaks off after 5 of its 10 bytes. *)
Definition truncated : Response :=
  mkResponse 200 (RespHeader object1) 10 (mkBody [bytes "01234"] (Some ErrUnexpectedEOF)).


(** * Properties *)

(** ** 64-bit arithmetic *)

Lemma wrap_id (z : Z) : Int64.min <= z <= Int64.max -> Int64.wrap z = z.
Proof.
  unfold Int64.min, Int64.max, Int64.wrap. intros H.
  rewrite Z.mod_small by lia. lia.
Qed.

Lemma Zlen_nonneg {A} (l : list A) : 0 <= Zlen l.
Proof. unfold Zlen. lia. Qed.

Lemma Zlen_app {A} (l k : list A) : Zlen (l ++ k) = Zlen l + Zlen k.
Proof. unfold Zlen. rewrite length_app. lia. Qed.

Lemma Zlen_take {A} (l : list A) (n : Z) :
  0 <= n <= Zlen l -> Zlen (take (Z.to_nat n) l) = n.
Proof. unfold Zlen. intros H. rewrite length_take. lia. Qed.

(** ** Tracking writer *)

Lemma file_write_spec (data p : list byte) (room : nat) :
  let '(n, _, data') := file_write data p room in
  Zlen data <= Int64.max ->
  0 <= n <= Zlen p ∧ Zlen data' = Zlen data + n ∧ Zlen data' <= Int64.max.
Proof.
  unfold file_write. cbv zeta. intros Hd.
  pose proof (Zlen_nonneg data). pose proof (Zlen_nonneg p).
  set (n := Z.max 0 _).
  assert (Hn : 0 <= n <= Zlen p) by (subst n; lia).
  assert (Hn' : n <= Int64.max - Zlen data) by (subst n; lia).
  split; [exact Hn|].
  rewrite Zlen_app, Zlen_take by exact Hn. split; lia.
Qed.

(** One [Write] on a writer whose count is the length of the file. *)
Lemma tw_Write_spec (w : trackingWriter) (data p : list byte) (room parked : nat) :
  tw_written w = Zlen data -> Zlen data <= Int64.max ->
  let '(n, _, w', data', _) := tw_Write w data p room parked in
  0 <= n <= Zlen p
  ∧ tw_written w' = tw_written w + n
  ∧ tw_written w' = Zlen data'
  ∧ Zlen data' <= Int64.max
  ∧ tw_size w' = tw_size w.
Proof.
  intros Hw Hd. unfold tw_Write.
  pose proof (file_write_spec data p room) as Hf.
  destruct (file_write data p room) as [[n err] data']. cbn.
  destruct (Hf Hd) as (Hn & Hl & Hmax).
  pose proof (Zlen_nonneg data).
  unfold Int64.add. rewrite wrap_id by (unfold Int64.min, Int64.max in *; lia).
  repeat split; lia.
Qed.

Lemma tw_writes_spec (calls : list (list byte * nat * nat)) :
  ∀ (w : trackingWriter) (data : list byte),
    tw_written w = Zlen data -> Zlen data <= Int64.max ->
    Sorted.StronglySorted Z.le (tw_written w :: tw_writes w data calls)
    ∧ Forall (λ x, x <= tw_written w + Zlen (concat (map (λ c, c.1.1) calls)))
        (tw_writes w data calls).
Proof.
  induction calls as [|[[p room] parked] calls IH]; intros w data Hw Hd.
  - cbn. split; repeat constructor.
  - cbn [tw_writes map concat].
    pose proof (tw_Write_spec w data p room parked Hw Hd) as Hs.
    destruct (tw_Write w data p room parked) as [[[[n err] w'] data'] sent].
    destruct Hs as (Hn & Hw' & Hwd & Hmax & _).
    destruct (IH w' data' Hwd Hmax) as [Hsorted Hbound].
    rewrite Zlen_app. cbn [fst].
    pose proof (Zlen_nonneg (concat (map (λ c : list byte * nat * nat, c.1.1) calls))).
    split.
    + constructor.
      * exact Hsorted.
      * apply Sorted.StronglySorted_inv in Hsorted as [_ Hall].
        constructor; [lia|].
        eapply Forall_impl; [exact Hall|]. intros x Hx. cbn in Hx. lia.
    + constructor; [lia|].
      eapply Forall_impl; [exact Hbound|]. intros x Hx. cbn in Hx. lia.
Qed.

(** C8 (as stated): with a declared size of 3, one [Write] of 5 bytes
    leaves [written] at 5; the writer never compares [written] with
    [size]. *)
Lemma written_exceeds_size :
  ¬ writtenBounded 3 [(bytes "01234", 8%nat, 0%nat)].
Proof.
  unfold writtenBounded. intros H.
  apply Forall_cons in H as [[_ H] _].
  vm_compute in H. apply H. reflexivity.
Qed.

(** C8 (amended): for every tracking writer on its new file and every
    sequence of [Write] calls, [written] never decreases from one call to
    the next and is never negative; it stays at or below [size] when the
    buffers written add up to at most [size] bytes. *)
Theorem written_monotone (ino : nat) (size : Z)
    (calls : list (list byte * nat * nat)) :
  let history := tw_writes (newTrackingWriter ino size) [] calls in
  StronglySorted Z.le (0 :: history)
  ∧ Forall (λ written, 0 <= written) history
  ∧ (Zlen (concat (map (λ c, c.1.1) calls)) <= size ->
     Forall (λ written, 0 <= written <= size) history).
Proof.
  cbv zeta.
  destruct (tw_writes_spec calls (newTrackingWriter ino size) [])
    as [Hsorted Hbound]; [reflexivity | unfold Zlen, Int64.max; simpl length; lia |].
  cbn [newTrackingWriter tw_written] in *.
  assert (Hpos : Forall (λ written, 0 <= written)
                   (tw_writes (newTrackingWriter ino size) [] calls)).
  { apply StronglySorted_inv in Hsorted as [_ Hall]. exact Hall. }
  split; [exact Hsorted|]. split; [exact Hpos|].
  intros Htotal.
  apply Forall_and. split; [exact Hpos|].
  eapply Forall_impl; [exact Hbound|]. intros x Hx. cbn in Hx. lia.
Qed.

Lemma written_monotone_witness :
  Forall (λ written, 0 <= written <= 10)
    (tw_writes (newTrackingWriter 0 10) []
       [(bytes "0123", 100%nat, 0%nat); (bytes "456789", 100%nat, 1%nat)]).
Proof.
  apply (written_monotone 0 10
           [(bytes "0123", 100%nat, 0%nat); (bytes "456789", 100%nat, 1%nat)]).
  vm_compute. intros H. discriminate H.
Defined.

(** ** Partially downloaded file *)

Ltac case_ltb :=
  match goal with
  | |- context [?x <? ?y] => destruct (Z.ltb_spec0 x y)
  end.

Ltac case_leb :=
  match goal with
  | |- context [?x <=? ?y] => destruct (Z.leb_spec0 x y)
  end.

(** C7: [Seek] computes the position from the start, from the current
    position or from the declared size; a negative position and an
    unknown [whence] give an error and leave the reader as it was;
    otherwise the position is stored, [seekBeforeRead] is set, and the
    position is returned, also past [size], where the next [Read] returns
    the end of the stream. *)
Theorem Seek_spec (r : partiallyDownloadedFile) (tw : trackingWriter)
    (offset whence : Z) :
  (∀ pos, seekTarget r tw offset whence pos -> 0 <= pos ->
     pd_Seek r tw offset whence
     = (pos, None, mkPartial (pd_wrapped r) (pd_readyPos r) pos true))
  ∧ (∀ pos, seekTarget r tw offset whence pos -> pos < 0 ->
       ∃ e, pd_Seek r tw offset whence = (pd_pos r, Some e, r))
  ∧ ((∀ pos, ¬ seekTarget r tw offset whence pos) ->
       ∃ e, pd_Seek r tw offset whence = (pd_pos r, Some e, r))
  ∧ (∀ pos r', pd_Seek r tw offset whence = (pos, None, r') ->
       pd_pos r' = pos ∧ pd_seekBeforeRead r' = true
       ∧ (tw_size tw <= pos ->
          ∀ data evs lenp,
            pd_Read r' tw data evs lenp = ReadReturns 0 [] (Some EOF) r')).
Proof.
  unfold seekTarget, pd_Seek, io_SeekStart, io_SeekCurrent, io_SeekEnd.
  repeat split.
  - intros pos [[-> ->]|[[-> ->]|[-> ->]]] Hpos; cbn; case_ltb; (lia || reflexivity).
  - intros pos [[-> ->]|[[-> ->]|[-> ->]]] Hpos; cbn; case_ltb; (lia || eauto).
  - intros Hnone.
    destruct (Z.eqb_spec whence 0) as [->|]; [exfalso; eapply Hnone; eauto|].
    destruct (Z.eqb_spec whence 1) as [->|]; [exfalso; eapply Hnone; eauto|].
    destruct (Z.eqb_spec whence 2) as [->|]; [exfalso; eapply Hnone; eauto|].
    eauto.
  - revert H.
    destruct (if whence =? 0 then _ else _) as [p|]; [|intros [=]].
    destruct (p <? 0); intros [= <- <-]; reflexivity.
  - revert H.
    destruct (if whence =? 0 then _ else _) as [p|]; [|intros [=]].
    destruct (p <? 0); intros [= <- <-]; reflexivity.
  - intros Hsize data evs lenp. revert H.
    destruct (if whence =? 0 then _ else _) as [p|]; [|intros [=]].
    destruct (p <? 0); intros [= <- <-].
    unfold pd_Read. cbn [pd_pos].
    destruct (Z.leb_spec0 (tw_size tw) p); [reflexivity | lia].
Qed.

Lemma Seek_spec_witness :
  pd_Seek freshReader shortWriter 2 io_SeekEnd
  = (12, None, mkPartial (mkOsFile 0 0 false) 0 12 true)
  ∧ pd_Read (mkPartial (mkOsFile 0 0 false) 0 12 true) shortWriter shortData [] 8
    = ReadReturns 0 [] (Some EOF) (mkPartial (mkOsFile 0 0 false) 0 12 true).
Proof.
  destruct (Seek_spec freshReader shortWriter 2 io_SeekEnd) as (Hok & _ & _ & Hnext).
  assert (Hseek : pd_Seek freshReader shortWriter 2 io_SeekEnd
                  = (12, None, mkPartial (mkOsFile 0 0 false) 0 12 true)).
  { apply (Hok 12); [right; right; split; reflexivity | lia]. }
  split; [exact Hseek|].
  apply (Hnext 12 _ Hseek). vm_compute. intros H. discriminate H.
Defined.

Lemma wait_loop_done (pos readyPos : Z) (tw : trackingWriter) (evs : list selectEvent) :
  readyPos <= pos -> wait_loop pos readyPos tw (RecvDone :: evs) = inr (tw_written tw).
Proof. intros H. cbn. case_leb; [reflexivity | lia]. Qed.

(** C6: once [done] has fired on a short download, a [Read] at the final
    [readyPos] comes back with no byte and no error; it does not return
    the end of the stream. *)
Theorem Read_short_download_no_EOF (r : partiallyDownloadedFile)
    (tw : trackingWriter) (data : list byte) (evs : list selectEvent) (lenp : Z) :
  tw_written tw < tw_size tw -> tw_size tw <= Int64.max ->
  pd_pos r = tw_written tw -> 0 <= pd_pos r -> pd_readyPos r <= pd_pos r ->
  fd_closed (pd_wrapped r) = false ->
  ∃ r', pd_Read r tw data (RecvDone :: evs) lenp = ReadReturns 0 [] None r'
        ∧ pd_pos r' = pd_pos r ∧ pd_readyPos r' = tw_written tw.
Proof.
  intros Hshort Hmax Hpos Hnn Hready Hopen.
  unfold pd_Read. case_leb; [lia|].
  rewrite wait_loop_done by exact Hready.
  assert (Hseek : ∃ f, (if pd_seekBeforeRead r
       then let '(pos', err, f') := file_seek_start (pd_wrapped r) (pd_pos r) in
            (mkPartial f' (tw_written tw) pos' (bool_decide (is_Some err)), err)
       else (mkPartial (pd_wrapped r) (tw_written tw) (pd_pos r) false, None))
      = (mkPartial f (tw_written tw) (pd_pos r) false, None) ∧ fd_closed f = false).
  { destruct (pd_seekBeforeRead r).
    - unfold file_seek_start. rewrite Hopen. case_ltb; [lia|].
      eexists. split; reflexivity.
    - eexists. split; [reflexivity | exact Hopen]. }
  destruct Hseek as (f & -> & Hf). cbn [pd_pos pd_wrapped].
  unfold Int64.sub. rewrite Hpos, Z.sub_diag.
  change (Int64.wrap 0) with 0. rewrite Z.ltb_irrefl, andb_false_r.
  unfold file_read. rewrite Hf.
  assert (Hlen : ((if 0 <? lenp then 0 else lenp) <=? 0) = true).
  { destruct (Z.ltb_spec0 0 lenp); apply Z.leb_le; lia. }
  rewrite Hlen. eexists. split; [reflexivity|]. cbn.
  unfold Int64.add. rewrite Z.add_0_r.
  split; [|reflexivity].
  apply wrap_id. unfold Int64.min, Int64.max in *. lia.
Qed.

Lemma Read_short_download_no_EOF_witness :
  ∃ r', pd_Read (mkPartial (mkOsFile 0 4 false) 4 4 false) shortWriter shortData
          [RecvDone] 8 = ReadReturns 0 [] None r'
        ∧ pd_pos r' = 4 ∧ pd_readyPos r' = 4.
Proof.
  apply (Read_short_download_no_EOF (mkPartial (mkOsFile 0 4 false) 4 4 false)
           shortWriter shortData [] 8); vm_compute; congruence.
Defined.

Lemma wait_loop_range (pos : Z) (tw : trackingWriter) (evs : list selectEvent) :
  0 <= tw_written tw <= Int64.max -> Forall validEvent evs ->
  ∀ readyPos rp, 0 <= readyPos <= Int64.max ->
                 wait_loop pos readyPos tw evs = inr rp -> 0 <= rp <= Int64.max.
Proof.
  intros Hw Hevs. induction Hevs as [|e evs He Hevs IH]; intros readyPos rp Hr; cbn.
  - case_leb; intros [= <-]. exact Hr.
  - case_leb; [|intros [= <-]; exact Hr].
    destruct e as [v|]; [apply IH; exact He | intros [= <-]; exact Hw].
Qed.

(** X1: no [Read] returns bytes beyond [readyPos]: what it returns ends
    at or before the value of [readyPos] it leaves behind. *)
Lemma Read_within_ready (r : partiallyDownloadedFile) (tw : trackingWriter)
    (data : list byte) (evs : list selectEvent) (lenp n : Z) (bs : list byte)
    (err : option error) (r' : partiallyDownloadedFile) :
  0 <= pd_pos r <= Int64.max -> 0 <= pd_readyPos r <= Int64.max ->
  0 <= tw_written tw <= Int64.max -> Forall validEvent evs ->
  0 <= fd_off (pd_wrapped r) ->
  pd_Read r tw data evs lenp = ReadReturns n bs err r' ->
  0 <= n ∧ Zlen bs = n ∧ (0 < n -> pd_pos r + n <= pd_readyPos r').
Proof.
  intros Hpos Hready Hw Hevs Hoff. unfold pd_Read.
  assert (Hzero : ∀ (e : option error) (r0 : partiallyDownloadedFile),
            ReadReturns 0 [] e r0 = ReadReturns n bs err r' ->
            0 <= n ∧ Zlen bs = n ∧ (0 < n -> pd_pos r + n <= pd_readyPos r')).
  { intros e r0 [= <- <- <- <-]. split; [lia|]. split; [reflexivity | lia]. }
  case_leb; [apply Hzero|].
  destruct (wait_loop (pd_pos r) (pd_readyPos r) tw evs) as [rp|rp] eqn:Hwait;
    [intros [=]|].
  pose proof (wait_loop_range _ tw evs Hw Hevs _ _ Hready Hwait) as Hrp.
  assert (Hcore : ∀ f, 0 <= fd_off f ->
            (let avail := Int64.sub rp (pd_pos r) in
             if (avail <? lenp) && (avail <? 0)
             then ReadPanics (mkPartial f rp (pd_pos r) false)
             else
               let lenp' := if avail <? lenp then avail else lenp in
               let '(n, bytes, err, f') := file_read f data lenp' in
               ReadReturns n bytes err
                 (mkPartial f' rp (Int64.add (pd_pos r) n) false))
            = ReadReturns n bs err r' ->
            0 <= n ∧ Zlen bs = n ∧ (0 < n -> pd_pos r + n <= pd_readyPos r')).
  { intros f Hf. cbv zeta. unfold Int64.sub.
    rewrite wrap_id by (unfold Int64.min, Int64.max in *; lia).
    destruct (Z.ltb_spec0 (rp - pd_pos r) lenp) as [H1|H1];
      destruct (Z.ltb_spec0 (rp - pd_pos r) 0) as [H2|H2];
      cbn [andb]; try (intros Hd; discriminate Hd); unfold file_read;
      destruct (fd_closed f); try apply Hzero;
      case_leb; try apply Hzero; case_leb; try apply Hzero;
      intros [= <- <- <- <-]; cbn [pd_readyPos];
      (split; [lia|]); (split; [|intros; lia]);
      apply Zlen_take; unfold Zlen in *; rewrite length_drop; lia. }
  destruct (pd_seekBeforeRead r).
  - unfold file_seek_start.
    destruct (fd_closed (pd_wrapped r)); [apply Hzero|].
    case_ltb; [apply Hzero|]. cbn [pd_pos pd_wrapped bool_decide].
    apply Hcore. cbn. lia.
  - cbn [pd_pos pd_wrapped]. apply Hcore. exact Hoff.
Qed.

Lemma Read_within_ready_witness :
  0 <= 2 ∧ Zlen (bytes "23") = 2 ∧ (0 < 2 -> 2 + 2 <= 4).
Proof.
  apply (Read_within_ready (mkPartial (mkOsFile 0 0 false) 0 2 true) shortWriter
           shortData [RecvUpdate 4] 8 2 (bytes "23") None
           (mkPartial (mkOsFile 0 4 false) 4 4 false)).
  - vm_compute. split; intros H; discriminate H.
  - vm_compute. split; intros H; discriminate H.
  - vm_compute. split; intros H; discriminate H.
  - repeat constructor; vm_compute; intros H; discriminate H.
  - vm_compute. intros H; discriminate H.
  - reflexivity.
Defined.

(** C10: when [done] fires on a download that stopped before the
    reader's position, the wait loop is left with [readyPos] below [pos]
    and the slice expression of the clamp panics. *)
Theorem Read_panics_past_short_download (r : partiallyDownloadedFile)
    (tw : trackingWriter) (data : list byte) (evs : list selectEvent) (lenp : Z) :
  0 <= tw_written tw -> tw_written tw < pd_pos r -> pd_pos r < tw_size tw ->
  tw_size tw <= Int64.max -> pd_readyPos r <= pd_pos r ->
  fd_closed (pd_wrapped r) = false -> 0 <= lenp ->
  ∃ r', pd_Read r tw data (RecvDone :: evs) lenp = ReadPanics r'
        ∧ pd_readyPos r' - pd_pos r' < 0.
Proof.
  intros Hw Hpast Hsize Hmax Hready Hopen Hlen.
  unfold pd_Read. case_leb; [lia|].
  rewrite wait_loop_done by exact Hready.
  assert (Hseek : ∃ f, (if pd_seekBeforeRead r
       then let '(pos', err, f') := file_seek_start (pd_wrapped r) (pd_pos r) in
            (mkPartial f' (tw_written tw) pos' (bool_decide (is_Some err)), err)
       else (mkPartial (pd_wrapped r) (tw_written tw) (pd_pos r) false, None))
      = (mkPartial f (tw_written tw) (pd_pos r) false, None)).
  { destruct (pd_seekBeforeRead r).
    - unfold file_seek_start. rewrite Hopen. case_ltb; [lia|].
      eexists. reflexivity.
    - eexists. reflexivity. }
  destruct Hseek as (f & ->). cbn [pd_pos pd_wrapped].
  unfold Int64.sub. rewrite wrap_id by (unfold Int64.min, Int64.max in *; lia).
  assert (H1 : (tw_written tw - pd_pos r <? lenp) = true) by (apply Z.ltb_lt; lia).
  assert (H2 : (tw_written tw - pd_pos r <? 0) = true) by (apply Z.ltb_lt; lia).
  rewrite H1, H2. cbn. eexists. split; [reflexivity|]. cbn. lia.
Qed.

Lemma Read_panics_past_short_download_witness :
  pd_Seek freshReader shortWriter 8 io_SeekStart
  = (8, None, mkPartial (mkOsFile 0 0 false) 0 8 true)
  ∧ ∃ r', pd_Read (mkPartial (mkOsFile 0 0 false) 0 8 true) shortWriter shortData
            [RecvDone] 8 = ReadPanics r'
          ∧ pd_readyPos r' - pd_pos r' < 0.
Proof.
  split; [reflexivity|].
  apply (Read_panics_past_short_download (mkPartial (mkOsFile 0 0 false) 0 8 true)
           shortWriter shortData [] 8); vm_compute; congruence.
Defined.

(** ** Request pipeline *)

(** C2: for a method other than GET and HEAD the body is written before
    the status, so the response goes out with status 200 and the later
    [WriteHeader(405)] is superfluous; the body is the message and a
    newline, and nothing else is called: the world is unchanged. *)
Theorem method_gate_status (env : Env) (p : CachingReverseProxy) (r : Request)
    (w : World) :
  Method r ≠ http_MethodGet -> Method r ≠ http_MethodHead ->
  ∃ rw, ServeHTTP env p newResponseWriter r w = (Responded rw, w)
        ∧ rw_status rw = Some http_StatusOK
        ∧ rw_superfluous rw = [http_StatusMethodNotAllowed]
        ∧ rw_body rw = bytes ("Only HEAD or GET allowed" ++ String "010" EmptyString).
Proof.
  intros Hget Hhead.
  unfold ServeHTTP, ServeHTTP_begin.
  apply String.eqb_neq in Hget, Hhead. rewrite Hget, Hhead. cbn [negb andb].
  eexists. split; [reflexivity|]. repeat split.
Qed.

Lemma method_gate_status_witness :
  ∃ rw, ServeHTTP (testEnv noFault (λ _, Some object1)) proxy1 newResponseWriter
          (request "POST" "/x") emptyWorld = (Responded rw, emptyWorld)
        ∧ rw_status rw = Some 200
        ∧ rw_superfluous rw = [405]
        ∧ rw_body rw = bytes ("Only HEAD or GET allowed" ++ String "010" EmptyString).
Proof.
  apply (method_gate_status (testEnv noFault (λ _, Some object1)) proxy1
           (request "POST" "/x") emptyWorld); intros H; discriminate H.
Defined.

(** The headers of the response at the time the status line is written. *)
Lemma passThrough_headers (env : Env) (r : Request) (resp : Response) (body : nat)
    (w : World) :
  let rw := (passThrough env newResponseWriter r resp body w).1 in
  rw_status rw = Some (StatusCode resp)
  ∧ rw_sent rw !! "Content-Length"%string
    = (if ContentLength resp =? -1 then None
       else Some [FormatInt (ContentLength resp)])
  ∧ rw_sent rw !! "Last-Modified"%string
    = (match time_Parse env (Header_Get "Last-Modified" (RespHeader resp)) with
       | Some _ => Some [Header_Get "Last-Modified" (RespHeader resp)]
       | None => None
       end)
  ∧ rw_sent rw !! "Content-Type"%string = RespHeader resp !! "Content-Type"%string
  ∧ rw_sent rw !! "Accept-Ranges"%string
    = (if hasAcceptRangeBytes resp then Some ["bytes"%string] else None)
  ∧ ∀ k, k ∉ ["Content-Length"; "Last-Modified"; "Content-Type"; "Accept-Ranges"]%string ->
         rw_sent rw !! k = None.
Proof.
  cbv zeta. unfold passThrough.
  destruct (ContentLength resp =? -1);
    destruct (time_Parse env (Header_Get "Last-Modified" (RespHeader resp)));
    destruct (RespHeader resp !! "Content-Type"%string) eqn:Hct;
    destruct (hasAcceptRangeBytes resp);
    destruct (String.eqb (Method r) http_MethodGet).
  all: cbv beta iota zeta delta
         [WriteHeader rw_Write rw_setHeader newResponseWriter negb fst
          rw_Header rw_status rw_sent rw_body rw_superfluous].
  all: split; [reflexivity|].
  all: split; [|split; [|split; [|split]]].
  all: try (intros k Hk; unfold Header_Set;
            repeat (rewrite lookup_insert_ne
                      by (intros <-; apply Hk; repeat constructor));
            apply lookup_empty).
  all: unfold Header_Set; simplify_map_eq; reflexivity.
Qed.

Lemma passThrough_body (env : Env) (r : Request) (resp : Response) (body : nat)
    (w : World) :
  let '(rw, w') := passThrough env newResponseWriter r resp body w in
  (Method r = http_MethodGet ->
     rw_body rw = concat (default [] (bs_rest <$> bodies w !! body))
     ∧ calls w' = calls w ++ [CallBodyClose body]
     ∧ ∀ bs, bodies w !! body = Some bs ->
             bodies w' !! body = Some (mkBodyState [] (bs_err bs) true))
  ∧ (Method r ≠ http_MethodGet -> rw_body rw = [] ∧ w' = w).
Proof.
  unfold passThrough.
  destruct (String.eqb_spec (Method r) http_MethodGet) as [Heq|Hne].
  - split; [intros _ | intros H; contradiction].
    split; [|split].
    + destruct (ContentLength resp =? -1),
        (time_Parse env (Header_Get "Last-Modified" (RespHeader resp))),
        (RespHeader resp !! "Content-Type"%string),
        (hasAcceptRangeBytes resp); reflexivity.
    + reflexivity.
    + intros bs Hbs. cbn. rewrite !list_lookup_alter.
      destruct (decide (body = body)); [|contradiction].
      rewrite Hbs. reflexivity.
  - split; [intros H; contradiction | intros _].
    split; [|reflexivity].
    destruct (ContentLength resp =? -1),
      (time_Parse env (Header_Get "Last-Modified" (RespHeader resp))),
      (RespHeader resp !! "Content-Type"%string),
      (hasAcceptRangeBytes resp); reflexivity.
Qed.

(** C4 (as stated): a HEAD request answered 404 upstream takes the
    pass-through path and leaves the upstream body open. *)
Lemma passThrough_HEAD_leaves_body_open :
  let served := ServeHTTP (testEnv noFault (λ _, Some notFound)) proxy1
                  newResponseWriter (request "HEAD" "/missing") emptyWorld in
  (∃ rw, served.1 = Responded rw ∧ rw_status rw = Some 404)
  ∧ ¬ bodyClosed 0 served.2
  ∧ CallBodyClose 0 ∉ calls served.2.
Proof.
  cbv zeta. split; [eexists; split; vm_compute; reflexivity|].
  split.
  - unfold bodyClosed. vm_compute. intros H. discriminate H.
  - compute_done.
Qed.

(** C4 (amended): on the pass-through path the status written is the
    upstream status; of the upstream headers only Content-Length (when
    known), Last-Modified (when it parses), Content-Type (when present)
    and Accept-Ranges: bytes (when advertised) are sent; for GET the body
    is copied and the upstream body is then closed; for HEAD nothing is
    copied and the upstream body is left as it is. *)
Theorem passThrough_path (env : Env) (r : Request) (cleanPath cachePath : string)
    (cacheFile : option Opened) (cacheModTime : Time) (resp : Response)
    (body : nat) (w : World) :
  StatusCode resp ≠ http_StatusNotModified -> cachable env r resp = false ->
  ∃ rw w',
    branchOnStatus env newResponseWriter r cleanPath cachePath cacheFile
      cacheModTime resp body w = (Done (Responded rw), w')
    ∧ rw_status rw = Some (StatusCode resp)
    ∧ rw_sent rw !! "Content-Length"%string
      = (if ContentLength resp =? -1 then None
         else Some [FormatInt (ContentLength resp)])
    ∧ rw_sent rw !! "Last-Modified"%string
      = (match time_Parse env (Header_Get "Last-Modified" (RespHeader resp)) with
         | Some _ => Some [Header_Get "Last-Modified" (RespHeader resp)]
         | None => None
         end)
    ∧ rw_sent rw !! "Content-Type"%string = RespHeader resp !! "Content-Type"%string
    ∧ rw_sent rw !! "Accept-Ranges"%string
      = (if hasAcceptRangeBytes resp then Some ["bytes"%string] else None)
    ∧ (∀ k, k ∉ ["Content-Length"; "Last-Modified"; "Content-Type";
                 "Accept-Ranges"]%string -> rw_sent rw !! k = None)
    ∧ (Method r = http_MethodGet ->
         rw_body rw = concat (default [] (bs_rest <$> bodies w !! body))
         ∧ calls w' = calls w ++ [CallBodyClose body]
         ∧ ∀ bs, bodies w !! body = Some bs ->
                 bodies w' !! body = Some (mkBodyState [] (bs_err bs) true))
    ∧ (Method r ≠ http_MethodGet -> rw_body rw = [] ∧ w' = w).
Proof.
  intros Hstatus Hcachable. unfold branchOnStatus.
  apply Z.eqb_neq in Hstatus. rewrite Hstatus, Hcachable.
  pose proof (passThrough_headers env r resp body w) as Hh.
  pose proof (passThrough_body env r resp body w) as Hb.
  destruct (passThrough env newResponseWriter r resp body w) as [rw w'].
  cbv zeta in Hh. cbn [fst] in Hh.
  destruct Hh as (H1 & H2 & H3 & H4 & H5 & H6). destruct Hb as [Hget Hhead].
  exists rw, w'. repeat split; try assumption; try (apply Hget; assumption);
    apply Hhead; assumption.
Qed.

Lemma passThrough_path_witness :
  ∃ rw w',
    branchOnStatus (testEnv noFault (λ _, Some notFound)) newResponseWriter
      (request "GET" "/missing") "/missing" "cache.d/missing" None zeroTime
      notFound 0
      (mkWorld ∅ [] ∅ [] [mkBodyState [bytes "gone"] None false] [] [])
    = (Done (Responded rw), w')
    ∧ rw_status rw = Some 404
    ∧ rw_sent rw !! "Server"%string = None
    ∧ rw_body rw = bytes "gone"
    ∧ bodies w' !! 0%nat = Some (mkBodyState [] None true).
Proof.
  destruct (passThrough_path (testEnv noFault (λ _, Some notFound))
              (request "GET" "/missing") "/missing" "cache.d/missing" None zeroTime
              notFound 0
              (mkWorld ∅ [] ∅ [] [mkBodyState [bytes "gone"] None false] [] []))
    as (rw & w' & Heq & Hst & _ & _ & _ & _ & Hother & Hget & _).
  - vm_compute. intros H. discriminate H.
  - reflexivity.
  - exists rw, w'. split; [exact Heq|]. split; [exact Hst|].
    split; [apply Hother; compute_done|].
    destruct (Hget eq_refl) as (Hbody & _ & Hclosed).
    split; [rewrite Hbody; reflexivity|].
    apply (Hclosed (mkBodyState [bytes "gone"] None false)). reflexivity.
Defined.

(** ** The log of upstream requests

    Only [client.Do] adds an upstream request to the log. *)

Lemma upstreamRequests_log (c : Call) (w : World) :
  upstreamRequests (log c w) = upstreamRequests w ++ List.filter isDo [c].
Proof. unfold upstreamRequests, log. cbn [calls]. apply List.filter_app. Qed.

Ltac quiet_calls :=
  unfold upstreamRequests; cbn [calls log set_names set_inodes set_dirs set_objectHandles
                                  set_handles set_bodies set_goroutines fst snd];
  rewrite ?List.filter_app; cbn [List.filter isDo]; rewrite ?app_nil_r;
  try reflexivity.

Lemma os_Open_quiet (env : Env) (path : string) (w : World) :
  upstreamRequests (os_Open env path w).2 = upstreamRequests w.
Proof. unfold os_Open. quiet_calls. Qed.

Lemma os_Stat_quiet (env : Env) (path : string) (f : Opened) (w : World) :
  upstreamRequests (os_Stat env path f w).2 = upstreamRequests w.
Proof. unfold os_Stat. quiet_calls. Qed.

Lemma os_MkdirAll_quiet (env : Env) (dir : string) (w : World) :
  upstreamRequests (os_MkdirAll env dir w).2 = upstreamRequests w.
Proof. unfold os_MkdirAll. case_match; quiet_calls. Qed.

Lemma ioutil_TempFile_quiet (env : Env) (dir pfx : string) (w : World) :
  upstreamRequests (ioutil_TempFile env dir pfx w).2 = upstreamRequests w.
Proof. unfold ioutil_TempFile. repeat case_match; quiet_calls. Qed.

Lemma os_Chtimes_quiet (env : Env) (path : string) (t : Time) (w : World) :
  upstreamRequests (os_Chtimes env path t w).2 = upstreamRequests w.
Proof. unfold os_Chtimes. repeat case_match; quiet_calls. Qed.

Lemma os_Rename_quiet (env : Env) (old new : string) (w : World) :
  upstreamRequests (os_Rename env old new w).2 = upstreamRequests w.
Proof. unfold os_Rename. repeat case_match; quiet_calls. Qed.

Lemma os_Remove_quiet (env : Env) (path : string) (w : World) :
  upstreamRequests (os_Remove env path w).2 = upstreamRequests w.
Proof. unfold os_Remove. repeat case_match; quiet_calls. Qed.

Lemma body_Close_quiet (b : nat) (w : World) :
  upstreamRequests (body_Close b w) = upstreamRequests w.
Proof. unfold body_Close. quiet_calls. Qed.

Lemma client_Do_requests (env : Env) (req : UpstreamRequest) (w : World) :
  upstreamRequests (client_Do env req w).2 = upstreamRequests w ++ [CallDo req].
Proof. unfold client_Do. case_match; quiet_calls. Qed.

Lemma LoadOrStore_quiet (key : string) (w : World) :
  upstreamRequests (LoadOrStore key w).2 = upstreamRequests w.
Proof. unfold LoadOrStore. case_match; quiet_calls. Qed.

Lemma Get_once_quiet (env : Env) (hid : nat) (c : Cachable) (w : World) :
  upstreamRequests (Get_once env hid c w).2 = upstreamRequests w.
Proof.
  unfold Get_once.
  destruct (handles w !! hid) as [h|]; [|reflexivity].
  destruct (h_once h); [reflexivity|].
  destruct (os_MkdirAll env _ _) as [err w1] eqn:Hm.
  assert (H1 : upstreamRequests w1 = upstreamRequests w).
  { change w1 with (err, w1).2. rewrite <- Hm, os_MkdirAll_quiet. quiet_calls. }
  destruct err; [exact H1|].
  destruct (ioutil_TempFile env _ _ w1) as [res w2] eqn:Ht.
  assert (H2 : upstreamRequests w2 = upstreamRequests w1).
  { change w2 with (res, w2).2. rewrite <- Ht. apply ioutil_TempFile_quiet. }
  destruct res as [e|[name ino]]; cbn [snd]; [congruence|].
  rewrite <- H1, <- H2. quiet_calls.
Qed.

Lemma Get_openTemp_quiet (env : Env) (hid : nat) (w : World) :
  upstreamRequests (Get_openTemp env hid w).2 = upstreamRequests w.
Proof.
  unfold Get_openTemp.
  pose proof (os_Open_quiet env (default EmptyString (h_tempPath <$> handles w !! hid)) w) as H.
  destruct (os_Open env _ w) as [res w1]. exact H.
Qed.

Lemma Get_openCache_quiet (env : Env) (cachePath : string) (w : World) :
  upstreamRequests (Get_openCache env cachePath w).2 = upstreamRequests w.
Proof.
  unfold Get_openCache.
  pose proof (os_Open_quiet env cachePath w) as H.
  destruct (os_Open env _ w) as [res w1]. exact H.
Qed.

Lemma Get_defer_quiet (scb : bool) (b : nat) (w : World) :
  upstreamRequests (Get_defer scb b w) = upstreamRequests w.
Proof. destruct scb; [apply body_Close_quiet | reflexivity]. Qed.

Lemma Get_quiet (env : Env) (hid : nat) (c : Cachable) (w : World) :
  upstreamRequests (Get env hid c w).2 = upstreamRequests w.
Proof.
  unfold Get.
  pose proof (Get_once_quiet env hid c w) as H1.
  destruct (Get_once env hid c w) as [scb w1].
  pose proof (Get_openTemp_quiet env hid w1) as H2.
  destruct (Get_openTemp env hid w1) as [res w2]. cbn [snd] in *.
  destruct res as [e|rd].
  - destruct (IsNotExist e).
    + pose proof (Get_openCache_quiet env (c_cachePath c) w2) as H3.
      destruct (Get_openCache env (c_cachePath c) w2) as [res w3]. cbn [snd] in *.
      rewrite Get_defer_quiet. congruence.
    + cbn [snd]. rewrite Get_defer_quiet. congruence.
  - cbn [snd]. rewrite Get_defer_quiet. congruence.
Qed.

Lemma passThrough_quiet (env : Env) (rw : ResponseWriter) (r : Request)
    (resp : Response) (b : nat) (w : World) :
  upstreamRequests (passThrough env rw r resp b w).2 = upstreamRequests w.
Proof.
  unfold passThrough. destruct (String.eqb (Method r) http_MethodGet); [|reflexivity].
  cbn [snd]. rewrite body_Close_quiet. quiet_calls.
Qed.

Lemma branchOnStatus_quiet (env : Env) (rw : ResponseWriter) (r : Request)
    (cleanPath cachePath : string) (cacheFile : option Opened) (cacheModTime : Time)
    (resp : Response) (b : nat) (w : World) :
  upstreamRequests
    (branchOnStatus env rw r cleanPath cachePath cacheFile cacheModTime resp b w).2
  = upstreamRequests w.
Proof.
  unfold branchOnStatus.
  destruct (StatusCode resp =? http_StatusNotModified);
    [destruct cacheFile as [[f|d]|]; reflexivity|].
  destruct (cachable env r resp); [reflexivity|].
  pose proof (passThrough_quiet env rw r resp b w) as H.
  destruct (passThrough env rw r resp b w). exact H.
Qed.

(** ** Conditional revalidation *)



Lemma probeCache_absent (env : Env) (method url cachePath : string) (w : World) :
  fault env (SysOpen cachePath) ≠ None
  ∨ (names w !! cachePath = None ∧ dirs w !! cachePath = None) ->
  ∃ w', probeCache env method url cachePath w
        = (Some (None, zeroTime, mkUpstreamRequest method url ∅), w')
        ∧ upstreamRequests w' = upstreamRequests w.
Proof.
  intros H. unfold probeCache, os_Open.
  destruct (fault env (SysOpen cachePath)) as [e|].
  - eexists. split; [reflexivity | quiet_calls].
  - destruct H as [H|[Hn Hd]]; [contradiction|]. rewrite Hn, Hd.
    eexists. split; [reflexivity | quiet_calls].
Qed.

Lemma probeCache_stat_fails (env : Env) (method url cachePath : string) (w : World) :
  fault env (SysOpen cachePath) = None ->
  is_Some (names w !! cachePath) ∨ is_Some (dirs w !! cachePath) ->
  fault env (SysStat cachePath) ≠ None ->
  ∃ w', probeCache env method url cachePath w = (None, w')
        ∧ upstreamRequests w' = upstreamRequests w.
Proof.
  intros Hopen Hthere Hstat. unfold probeCache, os_Open, os_Stat. rewrite Hopen.
  destruct (fault env (SysStat cachePath)) as [e|]; [|contradiction].
  destruct (names w !! cachePath) as [ino|].
  - eexists. split; [reflexivity | quiet_calls].
  - destruct Hthere as [[? H]|[t Ht]]; [discriminate H|]. rewrite Ht.
    eexists. split; [reflexivity | quiet_calls].
Qed.

(** [ServeHTTP] from the upstream request on. *)
Lemma ServeHTTP_requests (env : Env) (p : CachingReverseProxy) (r : Request)
    (w w1 : World) (cacheFile : option Opened) (cacheModTime : Time)
    (req : UpstreamRequest) :
  Method r = http_MethodGet ∨ Method r = http_MethodHead ->
  validURL env (upstreamPrefix p ++ path_Clean ("/" ++ URLPath r)) = true ->
  probeCache env (Method r) (upstreamPrefix p ++ path_Clean ("/" ++ URLPath r))
    (path_Join (cacheDir p) (path_Clean ("/" ++ URLPath r))) w
  = (Some (cacheFile, cacheModTime, req), w1) ->
  upstreamRequests w1 = upstreamRequests w ->
  upstreamRequests (ServeHTTP env p newResponseWriter r w).2
  = upstreamRequests w ++ [CallDo req]
  ∧ ∀ resp, upstream env req = Some resp ->
      StatusCode resp = http_StatusNotModified ->
      ∃ w2,
        (ServeHTTP env p newResponseWriter r w).1
        = Responded
            (serveCached env newResponseWriter r
               (path_Join (cacheDir p) (path_Clean ("/" ++ URLPath r)))
               cacheFile cacheModTime w2)
        ∧ inodes w2 = inodes w1.
Proof.
  intros Hmethod Hurl Hprobe Hquiet.
  unfold ServeHTTP, ServeHTTP_begin.
  assert (Hgate : negb (String.eqb (Method r) http_MethodHead)
                  && negb (String.eqb (Method r) http_MethodGet) = false).
  { destruct Hmethod as [-> | ->]; reflexivity. }
  rewrite Hgate, Hurl, Hprobe. cbn [negb].
  pose proof (client_Do_requests env req w1) as Hdo.
  unfold client_Do in *.
  destruct (upstream env req) as [resp|] eqn:Hup; cbn [snd] in Hdo.
  - pose proof (branchOnStatus_quiet env newResponseWriter r
                  (path_Clean ("/" ++ URLPath r))
                  (path_Join (cacheDir p) (path_Clean ("/" ++ URLPath r)))
                  cacheFile cacheModTime resp (length (bodies (log (CallDo req) w1)))
                  (set_bodies
                     (λ l, l ++ [mkBodyState (b_chunks (RespBody resp))
                                   (b_err (RespBody resp)) false])
                     (log (CallDo req) w1))) as Hbranch.
    split.
    + destruct (branchOnStatus _ _ _ _ _ _ _ _ _ _) as [[s|c] w2]; cbn [snd] in *.
      * congruence.
      * pose proof (LoadOrStore_quiet (c_cleanPath c) w2) as Hl.
        destruct (LoadOrStore (c_cleanPath c) w2) as [hid w3]. cbn [snd] in Hl.
        pose proof (Get_quiet env hid c w3) as Hg.
        destruct (Get env hid c w3) as [res w4]. cbn [snd] in *. congruence.
    + intros resp' [= <-] Hstatus. unfold branchOnStatus.
      rewrite Hstatus. cbn [Z.eqb http_StatusNotModified Pos.eqb fst].
      eexists. split; reflexivity.
  - split; [cbn [snd]; congruence | intros resp [=]].
Qed.







(** ** Initialization failures *)

Lemma os_Open_frame (env : Env) (path : string) (w : World) :
  let w' := (os_Open env path w).2 in
  objectHandles w' = objectHandles w ∧ goroutines w' = goroutines w
  ∧ handles w' = handles w ∧ names w' = names w ∧ inodes w' = inodes w
  ∧ bodies w' = bodies w.
Proof. cbv zeta. unfold os_Open. cbn. repeat split. Qed.

Lemma body_Close_frame (b : nat) (w : World) :
  let w' := body_Close b w in
  objectHandles w' = objectHandles w ∧ goroutines w' = goroutines w
  ∧ handles w' = handles w ∧ names w' = names w ∧ inodes w' = inodes w.
Proof. cbv zeta. unfold body_Close. cbn. repeat split. Qed.

(** The part of [Get] after [once.Do] changes neither the registry, nor
    the handles, nor the goroutines. *)
Lemma Get_attach_frame (env : Env) (hid : nat) (c : Cachable) (scb : bool) (w : World) :
  let '(res, w1) := Get_openTemp env hid w in
  let '(res, w2) :=
    match res with
    | inr rd => (inr rd, w1)
    | inl e => if IsNotExist e then Get_openCache env (c_cachePath c) w1 else (inl e, w1)
    end in
  let w' := Get_defer scb (c_body c) w2 in
  objectHandles w' = objectHandles w ∧ goroutines w' = goroutines w
  ∧ handles w' = handles w ∧ names w' = names w.
Proof.
  unfold Get_openTemp, Get_openCache, Get_defer.
  destruct (os_Open env _ w) as [res w1] eqn:H1.
  pose proof (os_Open_frame env (default EmptyString (h_tempPath <$> handles w !! hid)) w) as F1.
  rewrite H1 in F1. cbv zeta in F1. cbn [snd] in F1.
  destruct F1 as (A1 & A2 & A3 & A4 & _).
  destruct res as [e|[f|d]].
  2, 3: destruct scb; cbn; repeat split; congruence.
  destruct (IsNotExist e).
  - destruct (os_Open env (c_cachePath c) w1) as [res2 w2] eqn:H2.
      pose proof (os_Open_frame env (c_cachePath c) w1) as F2.
      rewrite H2 in F2. cbv zeta in F2. cbn [snd] in F2.
      destruct F2 as (B1 & B2 & B3 & B4 & _).
      destruct scb; cbn; repeat split; congruence.
  - destruct scb; cbn; repeat split; congruence.
Qed.

(** C5: when [os.MkdirAll] or [ioutil.TempFile] fails inside [once.Do],
    [Get] leaves the handle in the registry with its [once] spent and no
    downloader started, so that every later [Get] on it skips the
    initialization: nothing removes the handle any more. *)
Theorem init_failure_keeps_handle (env : Env) (hid : nat) (c : Cachable) (w : World)
    (h : objectHandle) :
  handles w !! hid = Some h -> h_once h = false ->
  fault env (SysMkdirAll (path_Dir (c_cachePath c))) ≠ None
  ∨ fault env (SysTempFile (path_Dir (c_cachePath c))) ≠ None ->
  let w' := (Get env hid c w).2 in
  let spent := mkHandle (h_cleanPath h) true (h_tempPath h) (h_trackingWriter h) in
  objectHandles w' = objectHandles w
  ∧ goroutines w' = goroutines w
  ∧ handles w' !! hid = Some spent
  ∧ ∀ env' c' w'', handles w'' !! hid = Some spent ->
                   Get_once env' hid c' w'' = (true, w'').
Proof.
  intros Hh Honce Hfail. cbv zeta.
  assert (Hlt : (hid < length (handles w))%nat) by (eapply lookup_lt_Some; eauto).
  assert (Hinit : ∃ w1, Get_once env hid c w = (true, w1)
            ∧ objectHandles w1 = objectHandles w ∧ goroutines w1 = goroutines w
            ∧ handles w1
              = <[hid := mkHandle (h_cleanPath h) true (h_tempPath h)
                           (h_trackingWriter h)]> (handles w)).
  { unfold Get_once. rewrite Hh, Honce. unfold os_MkdirAll.
    destruct (fault env (SysMkdirAll (path_Dir (c_cachePath c)))) as [e|] eqn:Hm.
    - eexists. split; [reflexivity|]. cbn. repeat split.
    - destruct Hfail as [Hfail|Hfail]; [contradiction|].
      unfold ioutil_TempFile.
      destruct (fault env (SysTempFile (path_Dir (c_cachePath c)))) as [e|];
        [|contradiction].
      eexists. split; [reflexivity|]. cbn. repeat split. }
  destruct Hinit as (w1 & Hget & Hreg & Hgo & Hhandles).
  pose proof (Get_attach_frame env hid c true w1) as Hframe.
  unfold Get. rewrite Hget.
  destruct (Get_openTemp env hid w1) as [res w2].
  destruct (match res with
            | inr rd => (inr rd, w2)
            | inl e => if IsNotExist e then Get_openCache env (c_cachePath c) w2
                       else (inl e, w2)
            end) as [res' w3].
  cbv zeta in Hframe. destruct Hframe as (F1 & F2 & F3 & _). cbn [snd].
  split; [congruence|]. split; [congruence|]. split.
  - rewrite F3, Hhandles. apply list_lookup_insert_eq. exact Hlt.
  - intros env' c' w'' Hspent. unfold Get_once. rewrite Hspent. reflexivity.
Qed.

Lemma init_failure_keeps_handle_witness :
  let broken := testEnv (faultOn (SysMkdirAll "cache.d/x") EACCES) (λ _, Some object1) in
  let healthy := testEnv noFault (λ _, Some object1) in
  let first := ServeHTTP broken proxy1 newResponseWriter (request "GET" "/x/y.pkg")
                 emptyWorld in
  let second := ServeHTTP healthy proxy1 newResponseWriter (request "GET" "/x/y.pkg")
                  first.2 in
  (∃ rw, first.1 = Responded rw ∧ rw_status rw = Some 500)
  ∧ objectHandles first.2 !! "/x/y.pkg"%string = Some 0%nat
  ∧ (∃ rw, second.1 = Responded rw ∧ rw_status rw = Some 500)
  ∧ objectHandles second.2 !! "/x/y.pkg"%string = Some 0%nat
  ∧ goroutines second.2 = [] ∧ names second.2 = ∅
  ∧ Get_once healthy 0 (mkCachable "/x/y.pkg" "cache.d/x/y.pkg" 1 mtime1 10) first.2
    = (true, first.2).
Proof.
  cbv zeta.
  split; [eexists; split; vm_compute; reflexivity|].
  split; [vm_compute; reflexivity|].
  split; [eexists; split; vm_compute; reflexivity|].
  split; [vm_compute; reflexivity|].
  split; [vm_compute; reflexivity|].
  split; [vm_compute; reflexivity|].
  destruct (init_failure_keeps_handle
              (testEnv (faultOn (SysMkdirAll "cache.d/x") EACCES) (λ _, Some object1))
              0 (mkCachable "/x/y.pkg" "cache.d/x/y.pkg" 0 mtime1 10)
              (LoadOrStore "/x/y.pkg"
                 (ServeHTTP_begin
                    (testEnv (faultOn (SysMkdirAll "cache.d/x") EACCES)
                       (λ _, Some object1))
                    proxy1 newResponseWriter (request "GET" "/x/y.pkg") emptyWorld).2).2
              (mkHandle "/x/y.pkg" false EmptyString None))
    as (_ & _ & _ & Hlater).
  - reflexivity.
  - reflexivity.
  - left. vm_compute. intros H. discriminate H.
  - apply Hlater. vm_compute. reflexivity.
Defined.

(** With a cache file in place, a failing [ioutil.TempFile] does not even
    give the client an error: the stale file is served. *)
Example init_failure_serves_stale_file :
  (ServeHTTP (testEnv (faultOn (SysTempFile "cache.d/x") ENOSPC) (λ _, Some object1))
     proxy1 newResponseWriter (request "GET" "/x/y.pkg") cachedWorld).1
  = Streaming newResponseWriter "y.pkg" mtime1 (RSFile (mkOsFile 0 0 false)).
Proof. vm_compute. reflexivity. Qed.

(** ** The downloader *)

Lemma copyFrame_refl (hid b : nat) (w : World) :
  (∀ h, handles w !! hid = Some h -> is_Some (h_trackingWriter h) ->
        ∃ tw', h = set_writer h tw') ->
  copyFrame hid b w w.
Proof.
  intros Hw. unfold copyFrame. repeat split.
  - intros h Hh Hsome. destruct (Hw h Hh Hsome) as [tw' Heq].
    exists tw'. rewrite Hh. f_equal. exact Heq.
  - intros [rest err closed] Hbs. eexists. exact Hbs.
  - exists []. rewrite app_nil_r. split; [reflexivity | constructor].
Qed.

Lemma copyFrame_id (hid b : nat) (w : World) : copyFrame hid b w w.
Proof.
  apply copyFrame_refl. intros [cp once tp [tw|]] _ [tw' Htw]; [|discriminate Htw].
  exists tw. reflexivity.
Qed.

Lemma copyFrame_trans (hid b : nat) (w1 w2 w3 : World) :
  copyFrame hid b w1 w2 -> copyFrame hid b w2 w3 -> copyFrame hid b w1 w3.
Proof.
  intros (A1 & A2 & A3 & A4 & A5 & A6 & ws1 & A7 & A8)
         (B1 & B2 & B3 & B4 & B5 & B6 & ws2 & B7 & B8).
  unfold copyFrame. repeat split; try congruence.
  - intros h Hh Hsome. destruct (A5 h Hh Hsome) as [tw1 H1].
    destruct (B5 _ H1) as [tw2 H2]; [cbn; eauto|].
    exists tw2. exact H2.
  - intros bs Hbs. destruct (A6 bs Hbs) as [rest1 H1].
    destruct (B6 _ H1) as [rest2 H2]. exists rest2. exact H2.
  - exists (ws1 ++ ws2). rewrite B7, A7, app_assoc. split; [reflexivity|].
    apply Forall_app. split; assumption.
Qed.

Lemma body_Read_frame (hid b : nat) (w : World) :
  copyFrame hid b w (body_Read b w).2.
Proof.
  unfold body_Read.
  destruct (bodies w !! b) as [[[|chunk rest] err closed]|] eqn:Hb;
    try apply copyFrame_id.
  cbn [snd]. unfold copyFrame. cbn. repeat split.
  - intros [cp once tp [tw|]] Hh [tw' Htw]; [|discriminate Htw].
    exists tw. exact Hh.
  - intros bs Hbs. rewrite Hb in Hbs. injection Hbs as <-.
    exists rest. apply list_lookup_insert_eq. eapply lookup_lt_Some. exact Hb.
  - exists []. rewrite app_nil_r. split; [reflexivity | constructor].
Qed.

Lemma writer_Write_frame (env : Env) (hid b : nat) (chunk : list byte) (w : World) :
  copyFrame hid b w (writer_Write env hid chunk w).2.
Proof.
  unfold writer_Write.
  destruct (handles w !! hid) as [h|] eqn:Hh; [|apply copyFrame_id].
  destruct (h_trackingWriter h) as [tw|] eqn:Htw; [|apply copyFrame_id].
  destruct (tw_Write tw _ chunk (room env) 0) as [[[[n err] tw'] data'] sent].
  cbn [snd]. unfold copyFrame. cbn. repeat split.
  - apply length_insert.
  - intros h0 Hh0 _. rewrite Hh in Hh0. injection Hh0 as <-. exists tw'.
    apply list_lookup_insert_eq. eapply lookup_lt_Some. exact Hh.
  - intros bs Hbs. destruct bs as [rest e closed]. eexists. exact Hbs.
  - eexists. split; [reflexivity|]. repeat constructor.
Qed.

Lemma copy_chunk_frame (env : Env) (hid b : nat) (chunk : list byte) (w : World) :
  copyFrame hid b w (copy_chunk env hid chunk w).2.
Proof.
  unfold copy_chunk. pose proof (writer_Write_frame env hid b chunk w) as H.
  destruct (writer_Write env hid chunk w) as [[n err] w']. exact H.
Qed.

Lemma io_Copy_frame (env : Env) (hid b : nat) (fuel : nat) :
  ∀ w, copyFrame hid b w (io_Copy env hid b fuel w).2.
Proof.
  induction fuel as [|fuel IH]; intros w; cbn [io_Copy].
  - apply copyFrame_id.
  - pose proof (body_Read_frame hid b w) as Hr.
    destruct (body_Read b w) as [[chunk|] w1]; [|exact Hr].
    pose proof (copy_chunk_frame env hid b chunk w1) as Hc.
    destruct (copy_chunk env hid chunk w1) as [[n err] w2]. cbn [snd] in *.
    destruct err as [e|].
    + eapply copyFrame_trans; eassumption.
    + pose proof (IH w2) as Hi.
      destruct (io_Copy env hid b fuel w2) as [[m err] w3]. cbn [snd] in *.
      eapply copyFrame_trans; [|exact Hi]. eapply copyFrame_trans; eassumption.
Qed.

Lemma os_Chtimes_spec (env : Env) (path : string) (t : Time) (w : World) :
  ∃ err w0, os_Chtimes env path t w = (err, log (CallChtimes path t err) w0)
    ∧ sameButFiles w w0 ∧ names w0 = names w
    ∧ length (inodes w0) = length (inodes w)
    ∧ (err = None ->
       ∃ ino, names w !! path = Some ino
              ∧ (∀ i, inodes w !! ino = Some i ->
                      inodes w0 !! ino = Some (mkInode (i_data i) t))).
Proof.
  unfold os_Chtimes, sameButFiles.
  destruct (fault env (SysChtimes path)) as [e|].
  { exists (Some e), w. repeat split. intros H. discriminate H. }
  destruct (names w !! path) as [ino|] eqn:Hn.
  - exists None, (set_inodes (alter (λ i, mkInode (i_data i) t) ino) w).
    cbn. repeat split.
    + apply length_alter.
    + intros _. exists ino. split; [reflexivity|].
      intros i Hi. rewrite list_lookup_alter.
      destruct (decide (ino = ino)); [|contradiction]. rewrite Hi. reflexivity.
  - exists (Some ENOENT), w. repeat split. intros H. discriminate H.
Qed.

Lemma os_Rename_spec (env : Env) (old new : string) (w : World) :
  ∃ err w0, os_Rename env old new w = (err, log (CallRename old new err) w0)
    ∧ sameButFiles w w0 ∧ inodes w0 = inodes w
    ∧ (err = None ->
       ∃ ino, names w !! old = Some ino
              ∧ names w0 = <[new := ino]> (delete old (names w))).
Proof.
  unfold os_Rename, sameButFiles.
  destruct (fault env (SysRename old new)) as [e|].
  { exists (Some e), w. repeat split. intros H. discriminate H. }
  destruct (names w !! old) as [ino|] eqn:Hn.
  - eexists None, _.
    cbn. repeat split. intros _. exists ino. split; reflexivity.
  - exists (Some ENOENT), w. repeat split. intros H. discriminate H.
Qed.

Lemma os_Remove_spec (env : Env) (path : string) (w : World) :
  ∃ err w0, os_Remove env path w = (err, log (CallRemove path err) w0)
    ∧ sameButFiles w w0 ∧ inodes w0 = inodes w
    ∧ (∀ other, other ≠ path -> names w0 !! other = names w !! other).
Proof.
  unfold os_Remove, sameButFiles.
  destruct (fault env (SysRemove path)) as [e|].
  { exists (Some e), w. repeat split. }
  destruct (names w !! path) as [ino|] eqn:Hn.
  - eexists None, _.
    cbn. repeat split. intros other Hne. apply lookup_delete_ne. congruence.
  - exists (Some ENOENT), w. repeat split.
Qed.

(** The goroutine after [io.Copy]: close the writer, rename or remove,
    deregister, close the body.  [w1] is the world when the copy (and
    [os.Chtimes], if it ran) is over. *)
Lemma downloader_tail (env : Env) (hid b : nat) (cachePath : string)
    (err : option error) (w1 : World) (h : objectHandle) (tw1 : trackingWriter)
    (bs1 : BodyState) :
  handles w1 !! hid = Some (set_writer h tw1) -> bodies w1 !! b = Some bs1 ->
  let w' := body_Close b (registry_Delete hid (publish env hid cachePath err
                                                  (writer_Close env hid w1))) in
  ∃ cerr rerr w0,
    calls w'
    = calls w1
      ++ [CallCloseWriter hid cerr;
          match err with
          | None => CallRename (h_tempPath h) cachePath rerr
          | Some _ => CallRemove (h_tempPath h) rerr
          end;
          CallDelete (h_cleanPath h); CallBodyClose b]
    ∧ objectHandles w' = delete (h_cleanPath h) (objectHandles w1)
    ∧ bs_closed <$> bodies w' !! b = Some true
    ∧ (∃ tw', handles w' !! hid = Some (set_writer h tw') ∧ tw_done tw' = true)
    ∧ names w' = names w0 ∧ inodes w' = inodes w1
    ∧ match err with
      | None =>
          rerr = None ->
          ∃ ino, names w1 !! h_tempPath h = Some ino
                 ∧ names w0 = <[cachePath := ino]> (delete (h_tempPath h) (names w1))
      | Some _ =>
          ∀ other, other ≠ h_tempPath h -> names w0 !! other = names w1 !! other
      end.
Proof.
  intros Hh Hb. cbv zeta.
  assert (Hlt : (hid < length (handles w1))%nat) by (eapply lookup_lt_Some; eauto).
  unfold writer_Close. rewrite Hh.
  set (closed := mkTrackingWriter (tw_wrapped tw1) (tw_size tw1) (tw_written tw1) true).
  set (cerr := fault env (SysClose (tw_wrapped tw1))).
  match goal with
  | |- context [publish env hid cachePath err ?x] => set (w2 := x)
  end.
  assert (Hh2 : handles w2 !! hid = Some (set_writer h closed)).
  { subst w2. cbn. apply list_lookup_insert_eq. exact Hlt. }
  assert (Htemp : tempPathOf hid w2 = h_tempPath h).
  { unfold tempPathOf. rewrite Hh2. reflexivity. }
  assert (Hfinish : ∀ rerr w0 w3,
            w3 = log rerr w0 -> sameButFiles w2 w0 ->
            calls (body_Close b (registry_Delete hid w3))
            = calls w1 ++ [CallCloseWriter hid cerr; rerr;
                           CallDelete (h_cleanPath h); CallBodyClose b]
            ∧ objectHandles (body_Close b (registry_Delete hid w3))
              = delete (h_cleanPath h) (objectHandles w1)
            ∧ bs_closed <$> bodies (body_Close b (registry_Delete hid w3)) !! b
              = Some true
            ∧ (∃ tw', handles (body_Close b (registry_Delete hid w3)) !! hid
                      = Some (set_writer h tw') ∧ tw_done tw' = true)
            ∧ names (body_Close b (registry_Delete hid w3)) = names w0
            ∧ inodes (body_Close b (registry_Delete hid w3)) = inodes w0).
  { intros rerr w0 w3 -> (S1 & S2 & S3 & S4 & S5).
    assert (Hclean : cleanPathOfHandle hid (log rerr w0) = h_cleanPath h).
    { unfold cleanPathOfHandle. cbn [log handles]. rewrite S2, Hh2. reflexivity. }
    unfold registry_Delete, body_Close. rewrite Hclean. cbn.
    rewrite S1, S2, S3, S5. subst w2. cbn.
    repeat split.
    - rewrite <- !app_assoc. reflexivity.
    - rewrite list_lookup_alter. destruct (decide (b = b)); [|contradiction].
      rewrite Hb. reflexivity.
    - exists closed. split; [|reflexivity].
      apply list_lookup_insert_eq. exact Hlt. }
  unfold publish. rewrite Htemp.
  destruct err as [e|].
  - destruct (os_Remove_spec env (h_tempPath h) w2) as (rerr & w0 & Heq & Hsame & Hino & Hnames).
    rewrite Heq. cbn [snd].
    destruct (Hfinish (CallRemove (h_tempPath h) rerr) w0 _ eq_refl Hsame)
      as (F1 & F2 & F3 & F4 & F5 & F6).
    exists cerr, rerr, w0. repeat split; try assumption; congruence.
  - destruct (os_Rename_spec env (h_tempPath h) cachePath w2)
      as (rerr & w0 & Heq & Hsame & Hino & Hnames).
    rewrite Heq. cbn [snd].
    destruct (Hfinish (CallRename (h_tempPath h) cachePath rerr) w0 _ eq_refl Hsame)
      as (F1 & F2 & F3 & F4 & F5 & F6).
    exists cerr, rerr, w0. repeat split; try assumption; congruence.
Qed.

(** C1 (as stated): the copy succeeds, [os.Chtimes] fails, and the
    downloader removes the temporary file instead of renaming it: nothing
    is published. *)
Lemma chtimes_failure_unlinks :
  let env := testEnv (faultOn (SysChtimes "cache.d/x/y.pkg.part.123456") EACCES)
               (λ _, Some object1) in
  let started := (ServeHTTP env proxy1 newResponseWriter (request "GET" "/x/y.pkg")
                    emptyWorld).2 in
  let w' := downloader env 0 0 mtime1 "cache.d/x/y.pkg" started in
  (io_Copy env 0 0 2 started).1 = (10, None)
  ∧ calls w'
    = calls started
      ++ [CallWrite 0 5 None; CallWrite 0 5 None;
          CallChtimes "cache.d/x/y.pkg.part.123456" mtime1 (Some EACCES);
          CallCloseWriter 0 None;
          CallRemove "cache.d/x/y.pkg.part.123456" None;
          CallDelete "/x/y.pkg"; CallBodyClose 0]
  ∧ names w' = ∅.
Proof.
  cbv zeta. repeat match goal with |- _ ∧ _ => split end; vm_compute; reflexivity.
Qed.

(** C1 (amended): the downloader first copies the body to the writer.
    When the copy succeeds it calls [os.Chtimes] with the upstream time,
    closes the writer, and renames the temporary file to the cache path if
    [os.Chtimes] succeeded, and removes it otherwise; when the copy fails
    it closes the writer and removes the temporary file, leaving every
    other name as it was.  In all cases it then deletes the handle's key
    from the registry and closes the upstream body. *)
Theorem downloader_disposition (env : Env) (hid b : nat) (modTime : Time)
    (cachePath : string) (w : World) (h : objectHandle) (bs : BodyState) :
  handles w !! hid = Some h -> is_Some (h_trackingWriter h) ->
  bodies w !! b = Some bs ->
  let copied := io_Copy env hid b (length (bs_rest bs)) w in
  let w' := downloader env hid b modTime cachePath w in
  let temp := h_tempPath h in
  ∃ writes cerr rerr,
    Forall isWrite writes
    ∧ match copied.1.2 with
      | None =>
          ∃ terr,
            calls w'
            = calls w ++ writes
              ++ [CallChtimes temp modTime terr; CallCloseWriter hid cerr;
                  match terr with
                  | None => CallRename temp cachePath rerr
                  | Some _ => CallRemove temp rerr
                  end;
                  CallDelete (h_cleanPath h); CallBodyClose b]
            ∧ (terr = None -> rerr = None ->
               ∃ ino, names w !! temp = Some ino
                      ∧ names w' = <[cachePath := ino]> (delete temp (names w))
                      ∧ (is_Some (inodes w !! ino) ->
                         i_mtime <$> inodes w' !! ino = Some modTime))
            ∧ (terr ≠ None ->
               ∀ other, other ≠ temp -> names w' !! other = names w !! other)
      | Some _ =>
          calls w'
          = calls w ++ writes
            ++ [CallCloseWriter hid cerr; CallRemove temp rerr;
                CallDelete (h_cleanPath h); CallBodyClose b]
          ∧ ∀ other, other ≠ temp -> names w' !! other = names w !! other
      end
    ∧ objectHandles w' = delete (h_cleanPath h) (objectHandles w)
    ∧ bs_closed <$> bodies w' !! b = Some true
    ∧ ∃ tw', handles w' !! hid = Some (set_writer h tw') ∧ tw_done tw' = true.
Proof.
  intros Hh Hwriter Hb. cbv zeta. unfold downloader. rewrite Hb.
  change (default [] (bs_rest <$> Some bs)) with (bs_rest bs).
  pose proof (io_Copy_frame env hid b (length (bs_rest bs)) w) as Hframe.
  destruct (io_Copy env hid b (length (bs_rest bs)) w) as [[n err] w1].
  cbn [fst snd] in *.
  destruct Hframe as (Fn & Fr & _ & Fi & Fh & Fb & writes & Fc & Fw).
  destruct (Fh h Hh Hwriter) as [tw1 Hh1].
  destruct (Fb bs Hb) as [rest Hb1].
  destruct err as [e|].
  - destruct (downloader_tail env hid b cachePath (Some e) w1 h tw1 _ Hh1 Hb1)
      as (cerr & rerr & w0 & T1 & T2 & T3 & T4 & T5 & _ & T7).
    exists writes, cerr, rerr. split; [exact Fw|].
    split; [|split; [rewrite T2, Fr; reflexivity | split; assumption]].
    split.
    + rewrite T1, Fc, <- app_assoc. reflexivity.
    + intros other Hne. rewrite T5, T7, Fn by exact Hne. reflexivity.
  - assert (Htemp : tempPathOf hid w1 = h_tempPath h).
    { unfold tempPathOf. rewrite Hh1. reflexivity. }
    rewrite Htemp.
    destruct (os_Chtimes_spec env (h_tempPath h) modTime w1)
      as (terr & w0 & Heq & (S1 & S2 & S3 & S4 & S5) & Sn & Sl & Sm).
    rewrite Heq.
    assert (Hh2 : handles (log (CallChtimes (h_tempPath h) modTime terr) w0) !! hid
                  = Some (set_writer h tw1)) by (cbn; congruence).
    assert (Hb2 : bodies (log (CallChtimes (h_tempPath h) modTime terr) w0) !! b
                  = Some (mkBodyState rest (bs_err bs) (bs_closed bs)))
      by (cbn; congruence).
    destruct (downloader_tail env hid b cachePath terr _ h tw1 _ Hh2 Hb2)
      as (cerr & rerr & w2 & T1 & T2 & T3 & T4 & T5 & T6 & T7).
    exists writes, cerr, rerr. split; [exact Fw|].
    split; [|split; [rewrite T2; cbn [objectHandles log]; rewrite S1, Fr; reflexivity
                    | split; assumption]].
    exists terr. split; [|split].
    + rewrite T1. cbn [calls log]. rewrite S5, Fc, <- !app_assoc. reflexivity.
    + intros -> ->. destruct (T7 eq_refl) as (ino & Hname & Hnames).
      cbn [names log] in Hname, Hnames. rewrite Sn, Fn in Hname, Hnames.
      exists ino. split; [exact Hname|]. split; [congruence|].
      intros [i Hi]. rewrite T6. cbn [inodes log].
      destruct (Sm eq_refl) as (ino' & Hname' & Hmtime).
      rewrite Fn in Hname'. assert (ino' = ino) as -> by congruence.
      assert (Hsome : is_Some (inodes w1 !! ino)).
      { apply lookup_lt_is_Some. rewrite Fi. eapply lookup_lt_Some. exact Hi. }
      destruct Hsome as [i1 Hi1]. rewrite (Hmtime i1 Hi1). reflexivity.
    + intros Hterr other Hne. destruct terr as [e|]; [|contradiction].
      rewrite T5, T7 by exact Hne. cbn [names log]. congruence.
Qed.

Lemma downloader_disposition_witness :
  let env := testEnv noFault (λ _, Some object1) in
  let started := (ServeHTTP env proxy1 newResponseWriter (request "GET" "/x/y.pkg")
                    emptyWorld).2 in
  let w' := downloader env 0 0 mtime1 "cache.d/x/y.pkg" started in
  ∃ writes cerr rerr terr,
    calls w'
    = calls started ++ writes
      ++ [CallChtimes "cache.d/x/y.pkg.part.123456" mtime1 terr;
          CallCloseWriter 0 cerr;
          match terr with
          | None => CallRename "cache.d/x/y.pkg.part.123456" "cache.d/x/y.pkg" rerr
          | Some _ => CallRemove "cache.d/x/y.pkg.part.123456" rerr
          end;
          CallDelete "/x/y.pkg"; CallBodyClose 0]
    ∧ objectHandles w' = delete "/x/y.pkg"%string (objectHandles started)
    ∧ bs_closed <$> bodies w' !! 0%nat = Some true.
Proof.
  cbv zeta.
  destruct (downloader_disposition (testEnv noFault (λ _, Some object1)) 0 0 mtime1
              "cache.d/x/y.pkg"
              (ServeHTTP (testEnv noFault (λ _, Some object1)) proxy1 newResponseWriter
                 (request "GET" "/x/y.pkg") emptyWorld).2
              (mkHandle "/x/y.pkg" true "cache.d/x/y.pkg.part.123456"
                 (Some (newTrackingWriter 0 10)))
              (mkBodyState [bytes "01234"; bytes "56789"] None false))
    as (writes & cerr & rerr & _ & Hcalls & Hreg & Hclosed & _).
  - vm_compute. reflexivity.
  - eexists. reflexivity.
  - vm_compute. reflexivity.
  - change ((io_Copy (testEnv noFault (λ _, Some object1)) 0 0
               (length (bs_rest (mkBodyState [bytes "01234"; bytes "56789"] None false)))
               (ServeHTTP (testEnv noFault (λ _, Some object1)) proxy1
                  newResponseWriter (request "GET" "/x/y.pkg") emptyWorld).2).1.2)
      with (@None error) in Hcalls.
    destruct Hcalls as (terr & Hcalls & _).
    exists writes, cerr, rerr, terr. split; [exact Hcalls|]. split; assumption.
Defined.

(** ** Coalescing of downloads *)

Lemma SkInv_store (s : Skeleton) (k : string) :
  SkInv s -> sk_reg s !! k = None ->
  SkInv (mkSkeleton (<[k := length (sk_handles s)]> (sk_reg s))
           (sk_handles s ++ [(k, false)]) (sk_goroutines s)).
Proof.
  intros [Hreg Hspawned Honce Hlive Hfresh] Hnone.
  split; cbn [sk_reg sk_handles sk_goroutines].
  - intros k' hid. rewrite lookup_insert_Some. intros [[<- <-]|[Hne Hk]].
    + exists false. apply lookup_snoc_Some. right. split; reflexivity.
    + destruct (Hreg k' hid Hk) as [o Ho]. exists o.
      apply lookup_app_l_Some. exact Ho.
  - intros g hid b Hg. destruct (Hspawned g hid b Hg) as [k' Hk'].
    exists k'. apply lookup_app_l_Some. exact Hk'.
  - exact Honce.
  - intros g hid k' o Hg Hh.
    destruct (Hspawned g hid true Hg) as [k'' Hk''].
    rewrite (lookup_app_l_Some _ _ _ _ Hk'') in Hh. injection Hh as <- <-.
    pose proof (Hlive g hid k'' true Hg Hk'') as Hr.
    rewrite lookup_insert_ne; [exact Hr|]. intros <-. congruence.
  - intros hid k'. rewrite lookup_snoc_Some. intros [[Hlt Hh]|[-> [= <-]]].
    + pose proof (Hfresh hid k' Hh) as Hr.
      rewrite lookup_insert_ne; [exact Hr|]. intros <-. congruence.
    + apply lookup_insert_eq.
Qed.

Lemma SkInv_once (s : Skeleton) (hid : nat) (k : string) (spawn : bool) :
  SkInv s -> sk_handles s !! hid = Some (k, false) ->
  SkInv (mkSkeleton (sk_reg s) (<[hid := (k, true)]> (sk_handles s))
           (sk_goroutines s ++ (if spawn then [(hid, true)] else []))).
Proof.
  intros [Hreg Hspawned Honce Hlive Hfresh] Hh.
  assert (Hlt : (hid < length (sk_handles s))%nat) by (eapply lookup_lt_Some; eauto).
  assert (Hold : ∀ g hid' b, sk_goroutines s !! g = Some (hid', b) -> hid' ≠ hid).
  { intros g hid' b Hg ->. destruct (Hspawned g hid b Hg) as [k' Hk']. congruence. }
  assert (Hnew : ∀ g hid' b,
            (sk_goroutines s ++ (if spawn then [(hid, true)] else [])) !! g
            = Some (hid', b) ->
            sk_goroutines s !! g = Some (hid', b)
            ∨ (g = length (sk_goroutines s) ∧ hid' = hid ∧ b = true)).
  { intros g hid' b. destruct spawn.
    - rewrite lookup_snoc_Some. intros [[_ H]|[-> [= <- <-]]]; auto.
    - rewrite app_nil_r. auto. }
  split; cbn [sk_reg sk_handles sk_goroutines].
  - intros k' hid' Hk. destruct (Hreg k' hid' Hk) as [o Ho].
    destruct (decide (hid' = hid)) as [->|Hne].
    + exists true. rewrite list_lookup_insert_eq by exact Hlt. congruence.
    + exists o. rewrite list_lookup_insert_ne by congruence. exact Ho.
  - intros g hid' b Hg. destruct (Hnew g hid' b Hg) as [Hg'|(-> & -> & ->)].
    + destruct (Hspawned g hid' b Hg') as [k' Hk']. exists k'.
      rewrite list_lookup_insert_ne; [exact Hk'|].
      intros <-. eapply Hold; eauto.
    + exists k. apply list_lookup_insert_eq. exact Hlt.
  - intros g1 g2 hid' b1 b2 H1 H2.
    destruct (Hnew g1 hid' b1 H1) as [H1'|(D2 & D3 & D4)];
      destruct (Hnew g2 hid' b2 H2) as [H2'|(E2 & E3 & E4)].
    + eapply Honce; eauto.
    + exfalso. eapply Hold; eauto.
    + exfalso. eapply Hold; eauto.
    + congruence.
  - intros g hid' k' o Hg Hh'.
    destruct (Hnew g hid' true Hg) as [Hg'|(-> & -> & _)].
    + rewrite list_lookup_insert_ne in Hh' by (intros <-; eapply Hold; eauto).
      eapply Hlive; eauto.
    + rewrite list_lookup_insert_eq in Hh' by exact Hlt. injection Hh' as <- <-.
      apply Hfresh. exact Hh.
  - intros hid' k'. rewrite list_lookup_insert_Some.
    intros [(_ & [=] & _)|[Hne Hh']]. apply Hfresh. exact Hh'.
Qed.

Lemma SkInv_delete (s : Skeleton) (g hid : nat) :
  SkInv s -> sk_goroutines s !! g = Some (hid, true) ->
  SkInv (mkSkeleton
           (delete (default EmptyString (fst <$> sk_handles s !! hid)) (sk_reg s))
           (sk_handles s) (<[g := (hid, false)]> (sk_goroutines s))).
Proof.
  intros [Hreg Hspawned Honce Hlive Hfresh] Hg.
  destruct (Hspawned g hid true Hg) as [k0 Hk0]. rewrite Hk0.
  change (default EmptyString (fst <$> Some (k0, true))) with k0.
  pose proof (Hlive g hid k0 true Hg Hk0) as Hr0.
  assert (Hback : ∀ g' hid' b,
            <[g := (hid, false)]> (sk_goroutines s) !! g' = Some (hid', b) ->
            ∃ b', sk_goroutines s !! g' = Some (hid', b') ∧ (g' ≠ g -> b' = b)
                  ∧ (g' = g -> b = false)).
  { intros g' hid' b. rewrite list_lookup_insert_Some.
    intros [(<- & [= <- <-] & _)|[Hne H]].
    - exists true. repeat split; [exact Hg | congruence].
    - exists b. repeat split; [exact H | congruence]. }
  split; cbn [sk_reg sk_handles sk_goroutines].
  - intros k hid'. rewrite lookup_delete_Some. intros [_ Hk]. eapply Hreg; eauto.
  - intros g' hid' b Hg'. destruct (Hback g' hid' b Hg') as (b' & H & _).
    eapply Hspawned; eauto.
  - intros g1 g2 hid' b1 b2 H1 H2.
    destruct (Hback g1 hid' b1 H1) as (b1' & H1' & _).
    destruct (Hback g2 hid' b2 H2) as (b2' & H2' & _).
    eapply Honce; eauto.
  - intros g' hid' k o Hg' Hh.
    destruct (Hback g' hid' true Hg') as (b' & H & Hne & Heq).
    assert (Hgg : g' ≠ g) by (intros E; specialize (Heq E); discriminate Heq).
    rewrite (Hne Hgg) in H.
    pose proof (Hlive g' hid' k o H Hh) as Hr.
    rewrite lookup_delete_ne; [exact Hr|].
    intros <-. apply Hgg. assert (hid' = hid) as -> by congruence.
    eapply Honce; eauto.
  - intros hid' k Hh. pose proof (Hfresh hid' k Hh) as Hr.
    rewrite lookup_delete_ne; [exact Hr|].
    intros <-. assert (hid' = hid) as -> by congruence. congruence.
Qed.

Lemma SkInv_step (s s' : Skeleton) : SkInv s -> skstep s s' -> SkInv s'.
Proof.
  intros Hinv Hstep. destruct Hstep.
  - exact Hinv.
  - apply SkInv_store; assumption.
  - apply SkInv_once; assumption.
  - apply SkInv_delete; assumption.
Qed.

(** Handles stay, and keep their path. *)
Lemma skstep_handles (s s' : Skeleton) (hid : nat) (k : string) (o : bool) :
  skstep s s' -> sk_handles s !! hid = Some (k, o) ->
  ∃ o', sk_handles s' !! hid = Some (k, o').
Proof.
  intros Hstep Hh. destruct Hstep; cbn [sk_handles].
  - eauto.
  - exists o. apply lookup_app_l_Some. exact Hh.
  - destruct (decide (hid0 = hid)) as [->|Hne].
    + exists true. rewrite list_lookup_insert_eq by (eapply lookup_lt_Some; eauto).
      congruence.
    + exists o. rewrite list_lookup_insert_ne by exact Hne. exact Hh.
  - eauto.
Qed.

(** *** Actions that leave the skeleton alone *)

Lemma quiet_refl (w : World) : quiet w w.
Proof. repeat split. Qed.

Lemma quiet_trans (w1 w2 w3 : World) : quiet w1 w2 -> quiet w2 w3 -> quiet w1 w3.
Proof. intros (A1 & A2 & A3) (B1 & B2 & B3). repeat split; congruence. Qed.

Lemma quiet_skeleton (w w' : World) : quiet w w' -> skeleton w' = skeleton w.
Proof. intros (A1 & A2 & A3). unfold skeleton. rewrite A1, A2, A3. reflexivity. Qed.

Lemma quiet_log (c : Call) (w : World) : quiet w (log c w).
Proof. repeat split. Qed.

Lemma os_Open_skel (env : Env) (path : string) (w : World) :
  quiet w (os_Open env path w).2.
Proof. unfold os_Open. repeat split. Qed.

Lemma os_Stat_skel (env : Env) (path : string) (f : Opened) (w : World) :
  quiet w (os_Stat env path f w).2.
Proof. unfold os_Stat. repeat split. Qed.

Lemma os_Chtimes_skel (env : Env) (path : string) (t : Time) (w : World) :
  quiet w (os_Chtimes env path t w).2.
Proof. unfold os_Chtimes. repeat case_match; repeat split. Qed.

Lemma os_Rename_skel (env : Env) (old new : string) (w : World) :
  quiet w (os_Rename env old new w).2.
Proof. unfold os_Rename. repeat case_match; repeat split. Qed.

Lemma os_Remove_skel (env : Env) (path : string) (w : World) :
  quiet w (os_Remove env path w).2.
Proof. unfold os_Remove. repeat case_match; repeat split. Qed.

Lemma body_Close_skel (b : nat) (w : World) : quiet w (body_Close b w).
Proof. unfold body_Close. repeat split. Qed.

Lemma body_Read_skel (b : nat) (w : World) : quiet w (body_Read b w).2.
Proof. unfold body_Read. repeat case_match; repeat split. Qed.

Lemma hsk_set_writer (hid : nat) (h : objectHandle) (tw : trackingWriter)
    (l : list objectHandle) :
  l !! hid = Some h -> hsk <$> <[hid := set_writer h tw]> l = hsk <$> l.
Proof.
  intros Hh. rewrite list_fmap_insert. apply list_insert_id.
  rewrite list_lookup_fmap, Hh. reflexivity.
Qed.

Lemma writer_Write_skel (env : Env) (hid : nat) (chunk : list byte) (w : World) :
  quiet w (writer_Write env hid chunk w).2.
Proof.
  unfold writer_Write.
  destruct (handles w !! hid) as [h|] eqn:Hh; [|apply quiet_refl].
  destruct (h_trackingWriter h) as [tw|]; [|apply quiet_refl].
  destruct (tw_Write tw _ chunk (room env) 0) as [[[[n err] tw'] data'] sent].
  cbn [snd]. repeat split. cbn. apply hsk_set_writer. exact Hh.
Qed.

Lemma copy_chunk_skel (env : Env) (hid : nat) (chunk : list byte) (w : World) :
  quiet w (copy_chunk env hid chunk w).2.
Proof.
  unfold copy_chunk. pose proof (writer_Write_skel env hid chunk w) as H.
  destruct (writer_Write env hid chunk w) as [[n err] w']. exact H.
Qed.

Lemma writer_Close_skel (env : Env) (hid : nat) (w : World) :
  quiet w (writer_Close env hid w).
Proof.
  unfold writer_Close.
  destruct (handles w !! hid) as [h|] eqn:Hh; [|apply quiet_refl].
  destruct (h_trackingWriter h) as [tw|]; [|apply quiet_refl].
  repeat split. cbn. apply hsk_set_writer. exact Hh.
Qed.

Lemma publish_skel (env : Env) (hid : nat) (cachePath : string) (err : option error)
    (w : World) :
  quiet w (publish env hid cachePath err w).
Proof.
  unfold publish. destruct err; [apply os_Remove_skel | apply os_Rename_skel].
Qed.

Lemma client_Do_skel (env : Env) (req : UpstreamRequest) (w : World) :
  quiet w (client_Do env req w).2.
Proof. unfold client_Do. case_match; repeat split. Qed.

Lemma passThrough_skel (env : Env) (rw : ResponseWriter) (r : Request)
    (resp : Response) (b : nat) (w : World) :
  quiet w (passThrough env rw r resp b w).2.
Proof.
  unfold passThrough. destruct (String.eqb (Method r) http_MethodGet);
    repeat split.
Qed.

Lemma probeCache_skel (env : Env) (method url cachePath : string) (w : World) :
  quiet w (probeCache env method url cachePath w).2.
Proof.
  unfold probeCache.
  pose proof (os_Open_skel env cachePath w) as H1.
  destruct (os_Open env cachePath w) as [[e|f] w1]; cbn [snd] in *; [exact H1|].
  pose proof (os_Stat_skel env cachePath f w1) as H2.
  destruct (os_Stat env cachePath f w1) as [[e|t] w2]; cbn [snd] in *;
    eapply quiet_trans; eassumption.
Qed.

Lemma branchOnStatus_skel (env : Env) (rw : ResponseWriter) (r : Request)
    (cleanPath cachePath : string) (cacheFile : option Opened) (cacheModTime : Time)
    (resp : Response) (b : nat) (w : World) :
  quiet w (branchOnStatus env rw r cleanPath cachePath cacheFile cacheModTime
             resp b w).2.
Proof.
  unfold branchOnStatus.
  destruct (StatusCode resp =? http_StatusNotModified); [apply quiet_refl|].
  destruct (cachable env r resp); [apply quiet_refl|].
  pose proof (passThrough_skel env rw r resp b w) as H.
  destruct (passThrough env rw r resp b w). exact H.
Qed.

Lemma ServeHTTP_begin_skel (env : Env) (p : CachingReverseProxy)
    (rw : ResponseWriter) (r : Request) (w : World) :
  quiet w (ServeHTTP_begin env p rw r w).2.
Proof.
  unfold ServeHTTP_begin.
  destruct (negb _ && negb _); [apply quiet_refl|].
  destruct (negb (validURL env _)); [apply quiet_refl|].
  pose proof (probeCache_skel env (Method r)
                (upstreamPrefix p ++ path_Clean ("/" ++ URLPath r))
                (path_Join (cacheDir p) (path_Clean ("/" ++ URLPath r))) w) as H1.
  destruct (probeCache env _ _ _ w) as [[[[cacheFile cacheModTime] req]|] w1];
    cbn [snd] in *; [|exact H1].
  pose proof (client_Do_skel env req w1) as H2.
  destruct (client_Do env req w1) as [[[resp b]|] w2]; cbn [snd] in *.
  - eapply quiet_trans; [exact H1|]. eapply quiet_trans; [exact H2|].
    apply branchOnStatus_skel.
  - eapply quiet_trans; eassumption.
Qed.

(** The path of the answer found cachable is the cleaned request path. *)
Lemma ServeHTTP_begin_cleanPath (env : Env) (p : CachingReverseProxy)
    (rw : ResponseWriter) (r : Request) (w : World) (c : Cachable) :
  (ServeHTTP_begin env p rw r w).1 = IsCachable c ->
  c_cleanPath c = path_Clean ("/" ++ URLPath r).
Proof.
  unfold ServeHTTP_begin.
  destruct (negb _ && negb _); [intros [=]|].
  destruct (negb (validURL env _)); [intros [=]|].
  destruct (probeCache env _ _ _ w) as [[[[cacheFile cacheModTime] req]|] w1];
    [|intros [=]].
  destruct (client_Do env req w1) as [[[resp b]|] w2]; [|intros [=]].
  unfold branchOnStatus.
  destruct (StatusCode resp =? http_StatusNotModified); [intros [=]|].
  destruct (cachable env r resp).
  - cbn [fst]. intros [= <-]. reflexivity.
  - destruct (passThrough env rw r resp b w2). intros [=].
Qed.

(** *** The moves of the registry, of [once.Do] and of the downloader *)

Lemma LoadOrStore_skstep (key : string) (w : World) :
  skstep (skeleton w) (skeleton (LoadOrStore key w).2).
Proof.
  unfold LoadOrStore.
  destruct (objectHandles w !! key) as [hid|] eqn:Hk; cbn [snd].
  - exact (sk_stutter (skeleton w)).
  - replace (skeleton (log _ _))
      with (mkSkeleton (<[key := length (sk_handles (skeleton w))]> (sk_reg (skeleton w)))
              (sk_handles (skeleton w) ++ [(key, false)]) (sk_goroutines (skeleton w))).
    + apply sk_store. exact Hk.
    + unfold skeleton. cbn. rewrite length_fmap, fmap_app. reflexivity.
Qed.

(** The handle [LoadOrStore] returns is a handle of the key. *)
Lemma LoadOrStore_handle (key : string) (w : World) :
  SkInv (skeleton w) ->
  ∃ o, sk_handles (skeleton (LoadOrStore key w).2) !! (LoadOrStore key w).1
       = Some (key, o).
Proof.
  intros Hinv. unfold LoadOrStore.
  destruct (objectHandles w !! key) as [hid|] eqn:Hk; cbn [fst snd].
  - change (skeleton (log (CallLoadOrStore key hid true) w)) with (skeleton w).
    apply (inv_reg _ Hinv). exact Hk.
  - exists false. unfold skeleton. cbn. rewrite fmap_app.
    rewrite lookup_app_r by (rewrite length_fmap; lia).
    rewrite length_fmap, Nat.sub_diag. reflexivity.
Qed.

Lemma Get_once_skstep (env : Env) (hid : nat) (c : Cachable) (w : World) :
  skstep (skeleton w) (skeleton (Get_once env hid c w).2).
Proof.
  unfold Get_once.
  destruct (handles w !! hid) as [h|] eqn:Hh; [|constructor].
  destruct (h_once h) eqn:Honce; [constructor|].
  assert (Hsk : sk_handles (skeleton w) !! hid = Some (h_cleanPath h, false)).
  { unfold skeleton. cbn. rewrite list_lookup_fmap, Hh. unfold hsk.
    cbn. rewrite Honce. reflexivity. }
  unfold os_MkdirAll.
  destruct (fault env (SysMkdirAll (path_Dir (c_cachePath c)))) as [e|]; cbn [snd].
  { replace (skeleton (log _ _))
      with (mkSkeleton (sk_reg (skeleton w))
              (<[hid := (h_cleanPath h, true)]> (sk_handles (skeleton w)))
              (sk_goroutines (skeleton w) ++ (if false then [(hid, true)] else []))).
    - exact (sk_once (skeleton w) hid (h_cleanPath h) false Hsk).
    - unfold skeleton. cbn. rewrite list_fmap_insert, app_nil_r. reflexivity. }
  unfold ioutil_TempFile.
  destruct (fault env (SysTempFile (path_Dir (c_cachePath c)))) as [e|]; cbn [snd].
  { replace (skeleton (log _ _))
      with (mkSkeleton (sk_reg (skeleton w))
              (<[hid := (h_cleanPath h, true)]> (sk_handles (skeleton w)))
              (sk_goroutines (skeleton w) ++ (if false then [(hid, true)] else []))).
    - exact (sk_once (skeleton w) hid (h_cleanPath h) false Hsk).
    - unfold skeleton. cbn. rewrite list_fmap_insert, app_nil_r. reflexivity. }
  cbn [names log set_handles set_dirs].
  destruct (names w !! _) as [ino|]; cbn [snd].
  { replace (skeleton (log _ _))
      with (mkSkeleton (sk_reg (skeleton w))
              (<[hid := (h_cleanPath h, true)]> (sk_handles (skeleton w)))
              (sk_goroutines (skeleton w) ++ (if false then [(hid, true)] else []))).
    - exact (sk_once (skeleton w) hid (h_cleanPath h) false Hsk).
    - unfold skeleton. cbn. rewrite list_fmap_insert, app_nil_r. reflexivity. }
  replace (skeleton (log _ _))
    with (mkSkeleton (sk_reg (skeleton w))
            (<[hid := (h_cleanPath h, true)]> (sk_handles (skeleton w)))
            (sk_goroutines (skeleton w) ++ (if true then [(hid, true)] else []))).
  - exact (sk_once (skeleton w) hid (h_cleanPath h) true Hsk).
  - unfold skeleton. cbn.
    rewrite !list_fmap_insert, list_insert_insert_eq, fmap_app. reflexivity.
Qed.

Lemma Get_openTemp_skel (env : Env) (hid : nat) (w : World) :
  quiet w (Get_openTemp env hid w).2.
Proof.
  unfold Get_openTemp.
  pose proof (os_Open_skel env (default EmptyString (h_tempPath <$> handles w !! hid)) w) as H.
  destruct (os_Open env _ w) as [res w1]. exact H.
Qed.

Lemma Get_openCache_skel (env : Env) (cachePath : string) (w : World) :
  quiet w (Get_openCache env cachePath w).2.
Proof.
  unfold Get_openCache. pose proof (os_Open_skel env cachePath w) as H.
  destruct (os_Open env _ w) as [res w1]. exact H.
Qed.

Lemma Get_defer_skel (scb : bool) (b : nat) (w : World) :
  quiet w (Get_defer scb b w).
Proof. destruct scb; [apply body_Close_skel | apply quiet_refl]. Qed.

(** Moving a downloader on without changing what the skeleton sees. *)
Lemma set_goroutine_skel (g : nat) (d d' : Downloader) (w w1 : World) :
  goroutines w !! g = Some d -> gsk d' = gsk d -> quiet w w1 ->
  skeleton (set_goroutine g d' w1) = skeleton w.
Proof.
  intros Hg Hsk (Q1 & Q2 & Q3). unfold skeleton, set_goroutine. cbn.
  rewrite Q1, Q2, Q3, list_fmap_insert, Hsk. f_equal.
  apply list_insert_id. rewrite list_lookup_fmap, Hg. reflexivity.
Qed.

Lemma dl_step_skstep (env : Env) (g : nat) (w : World) :
  skstep (skeleton w) (skeleton (dl_step env g w)).
Proof.
  unfold dl_step.
  destruct (goroutines w !! g) as [d|] eqn:Hg; [|constructor].
  destruct (d_pc d) eqn:Hpc.
  - (* io.Copy *)
    pose proof (body_Read_skel (d_body d) w) as Hr.
    destruct (body_Read (d_body d) w) as [[chunk|] w1]; cbn [snd] in Hr.
    + pose proof (copy_chunk_skel env (d_handle d) chunk w1) as Hc.
      destruct (copy_chunk env (d_handle d) chunk w1) as [[n err] w2]. cbn [snd] in Hc.
      erewrite set_goroutine_skel;
        [constructor | exact Hg | | eapply quiet_trans; eassumption].
      unfold gsk, registered. cbn. rewrite Hpc. destruct err; reflexivity.
    + erewrite set_goroutine_skel; [constructor | exact Hg | | exact Hr].
      unfold gsk, registered. cbn. rewrite Hpc.
      destruct (body_err (d_body d) w1); reflexivity.
  - (* os.Chtimes *)
    pose proof (os_Chtimes_skel env (tempPathOf (d_handle d) w) (d_modTime d) w) as Hc.
    destruct (os_Chtimes env _ (d_modTime d) w) as [err w1]. cbn [snd] in Hc.
    erewrite set_goroutine_skel; [constructor | exact Hg | | exact Hc].
    unfold gsk, registered. cbn. rewrite Hpc. reflexivity.
  - (* Close *)
    erewrite set_goroutine_skel;
      [constructor | exact Hg | | apply writer_Close_skel].
    unfold gsk, registered. cbn. rewrite Hpc. reflexivity.
  - (* Rename or Remove *)
    erewrite set_goroutine_skel; [constructor | exact Hg | | apply publish_skel].
    unfold gsk, registered. cbn. rewrite Hpc. reflexivity.
  - (* Delete *)
    replace (skeleton (set_goroutine _ _ _))
      with (mkSkeleton
              (delete (default EmptyString
                         (fst <$> sk_handles (skeleton w) !! d_handle d))
                 (sk_reg (skeleton w)))
              (sk_handles (skeleton w))
              (<[g := (d_handle d, false)]> (sk_goroutines (skeleton w)))).
    + apply sk_delete. unfold skeleton. cbn.
      rewrite list_lookup_fmap, Hg. unfold gsk, registered. cbn.
      rewrite Hpc. reflexivity.
    + unfold skeleton, set_goroutine, registry_Delete, cleanPathOfHandle. cbn.
      rewrite list_fmap_insert, list_lookup_fmap.
      destruct (handles w !! d_handle d); reflexivity.
  - (* body.Close *)
    erewrite set_goroutine_skel; [constructor | exact Hg | | apply body_Close_skel].
    unfold gsk, registered. cbn. rewrite Hpc. reflexivity.
  - constructor.
Qed.

Lemma rq_step_skstep (env : Env) (p : CachingReverseProxy) (t : RequestThread)
    (w : World) :
  skstep (skeleton w) (skeleton (rq_step env p t w).2).
Proof.
  unfold rq_step. destruct (rq_pc t) as [|c|c hid|c hid scb|c scb|c scb res|s].
  - pose proof (ServeHTTP_begin_skel env p (rq_rw t) (rq_request t) w) as H.
    destruct (ServeHTTP_begin env p (rq_rw t) (rq_request t) w) as [b w1].
    cbn [snd] in *. rewrite (quiet_skeleton _ _ H). constructor.
  - pose proof (LoadOrStore_skstep (c_cleanPath c) w) as H.
    destruct (LoadOrStore (c_cleanPath c) w) as [hid w1]. exact H.
  - pose proof (Get_once_skstep env hid c w) as H.
    destruct (Get_once env hid c w) as [scb w1]. exact H.
  - pose proof (Get_openTemp_skel env hid w) as H.
    destruct (Get_openTemp env hid w) as [res w1].
    cbn [snd] in *. rewrite (quiet_skeleton _ _ H). constructor.
  - pose proof (Get_openCache_skel env (c_cachePath c) w) as H.
    destruct (Get_openCache env (c_cachePath c) w) as [res w1].
    cbn [snd] in *. rewrite (quiet_skeleton _ _ H). constructor.
  - cbn [snd]. rewrite (quiet_skeleton _ _ (Get_defer_skel scb (c_body c) w)).
    constructor.
  - constructor.
Qed.

(** *** The requests *)

Lemma threadOK_skstep (s s' : Skeleton) (t : RequestThread) :
  skstep s s' -> threadOK s t -> threadOK s' t.
Proof.
  intros Hstep [Hhandle Hpath]. split; [|exact Hpath].
  intros hid Hhid. destruct (Hhandle hid Hhid) as [o Ho].
  eapply skstep_handles; eassumption.
Qed.

Lemma ServeHTTP_begin_not_streaming (env : Env) (p : CachingReverseProxy)
    (rw : ResponseWriter) (r : Request) (w : World) (s : Served) :
  (ServeHTTP_begin env p rw r w).1 = Done s ->
  match s with Streaming _ _ _ _ => False | _ => True end.
Proof.
  unfold ServeHTTP_begin.
  destruct (negb _ && negb _); [intros [= <-]; exact I|].
  destruct (negb (validURL env _)); [intros [= <-]; exact I|].
  destruct (probeCache env _ _ _ w) as [[[[cacheFile cacheModTime] req]|] w1];
    [|intros [= <-]; exact I].
  destruct (client_Do env req w1) as [[[resp b]|] w2]; [|intros [= <-]; exact I].
  unfold branchOnStatus.
  destruct (StatusCode resp =? http_StatusNotModified); [intros [= <-]; exact I|].
  destruct (cachable env r resp); [intros [=]|].
  destruct (passThrough env rw r resp b w2). intros [= <-]. exact I.
Qed.

Lemma rq_step_request (env : Env) (p : CachingReverseProxy) (t : RequestThread)
    (w : World) :
  rq_request (rq_step env p t w).1 = rq_request t.
Proof.
  unfold rq_step. destruct (rq_pc t); repeat case_match; reflexivity.
Qed.

Lemma rq_step_threadOK (env : Env) (p : CachingReverseProxy) (t : RequestThread)
    (w : World) :
  SkInv (skeleton w) -> threadOK (skeleton w) t ->
  threadOK (skeleton (rq_step env p t w).2) (rq_step env p t w).1.
Proof.
  intros Hinv Hok.
  pose proof (rq_step_skstep env p t w) as Hstep.
  pose proof (threadOK_skstep _ _ t Hstep Hok) as [Hhandle' _].
  destruct Hok as [Hhandle Hpath].
  unfold threadOK, requestPath, handleOf, readerOf in *.
  rewrite rq_step_request.
  unfold rq_step in *.
  destruct (rq_pc t) as [|c|c hid|c hid scb|c scb|c scb res|s] eqn:Hpc.
  - pose proof (ServeHTTP_begin_not_streaming env p (rq_rw t) (rq_request t) w) as Hns.
    pose proof (ServeHTTP_begin_cleanPath env p (rq_rw t) (rq_request t) w) as Hcp.
    destruct (ServeHTTP_begin env p (rq_rw t) (rq_request t) w) as [[s|c] w1];
      cbn [fst snd rq_pc] in *.
    + specialize (Hns s eq_refl). split; [|exact I].
      destruct s; try contradiction; intros hid [=].
    + split; [intros hid [=] | apply Hcp; reflexivity].
  - pose proof (LoadOrStore_handle (c_cleanPath c) w Hinv) as Hl.
    destruct (LoadOrStore (c_cleanPath c) w) as [hid w1]. cbn [fst snd rq_pc] in *.
    split; [|exact I]. intros hid' [= <-]. rewrite <- Hpath. exact Hl.
  - destruct (Get_once env hid c w) as [scb w1]. cbn [fst snd rq_pc] in *.
    split; [|exact I]. exact Hhandle'.
  - unfold Get_openTemp in *.
    destruct (os_Open env _ w) as [[e|[f|d]] w1]; cbn [fst snd rq_pc] in *.
    + split; [|destruct (IsNotExist e); exact I].
      destruct (IsNotExist e); intros hid' [=].
    + split; [|exact I]. exact Hhandle'.
    + split; [|exact I]. exact Hhandle'.
  - unfold Get_openCache in *.
    destruct (os_Open env _ w) as [[e|[f|d]] w1]; cbn [fst snd rq_pc] in *;
      (split; [intros hid' [=] | exact I]).
  - cbn [fst snd rq_pc] in *. split; [|exact I].
    destruct res as [e|rd]; cbn [ServeHTTP_finish]; [intros hid' [=]|].
    exact Hhandle'.
  - cbn [fst snd] in *. rewrite Hpc in *. split; [exact Hhandle' | exact I].
Qed.

Lemma step_MInv (p : CachingReverseProxy) (k : string) (m : Machine) (l : Label) :
  MInv k m -> MInv k (step p m l).
Proof.
  intros [Hsk Hthreads]. destruct l as [env i|env g]; cbn [step].
  - destruct (m_threads m !! i) as [t|] eqn:Ht; [|split; assumption].
    pose proof (rq_step_skstep env p t (m_world m)) as Hstep.
    pose proof (rq_step_request env p t (m_world m)) as Hreq.
    destruct (Hthreads i t Ht) as [Hr Hok].
    pose proof (rq_step_threadOK env p t (m_world m) Hsk Hok) as Hok'.
    destruct (rq_step env p t (m_world m)) as [t' w']. cbn [fst snd] in *.
    split; cbn [m_world m_threads].
    + eapply SkInv_step; eassumption.
    + intros j tj. rewrite list_lookup_insert_Some.
      intros [(<- & <- & _)|[Hne Hj]].
      * split; [unfold requestPath in *; congruence | exact Hok'].
      * destruct (Hthreads j tj Hj) as [Hrj Hokj].
        split; [exact Hrj | eapply threadOK_skstep; eassumption].
  - pose proof (dl_step_skstep env g (m_world m)) as Hstep.
    split; cbn [m_world m_threads].
    + eapply SkInv_step; eassumption.
    + intros j tj Hj. destruct (Hthreads j tj Hj) as [Hrj Hokj].
      split; [exact Hrj | eapply threadOK_skstep; eassumption].
Qed.

Lemma run_MInv (p : CachingReverseProxy) (k : string) (schedule : list Label) :
  ∀ m, MInv k m -> MInv k (run p m schedule).
Proof.
  induction schedule as [|l schedule IH]; intros m Hm; [exact Hm|].
  cbn [run fold_left]. apply IH. apply step_MInv. exact Hm.
Qed.

Lemma clientsOf_MInv (w : World) (rs : list Request) (k : string) :
  (∀ r, r ∈ rs -> path_Clean ("/" ++ URLPath r) = k) ->
  objectHandles w = ∅ -> handles w = [] -> goroutines w = [] ->
  MInv k (clientsOf w rs).
Proof.
  intros Hpaths Hreg Hh Hg. unfold MInv, clientsOf, skeleton. cbn [m_world m_threads].
  rewrite Hreg, Hh, Hg. split.
  - split; cbn [sk_reg sk_handles sk_goroutines fmap list_fmap];
      intros; simplify_map_eq; try discriminate.
  - intros i t Ht. rewrite list_lookup_fmap in Ht.
    destruct (rs !! i) as [r|] eqn:Hr; [|discriminate Ht].
    injection Ht as <-.
    split; [apply Hpaths; eapply list_elem_of_lookup_2; exact Hr|].
    split; [intros hid [=] | exact I].
Qed.

Lemma clients_clientsOf (w : World) (r : Request) (n : nat) :
  clients w r n = clientsOf w (replicate n r).
Proof. unfold clients, clientsOf. rewrite fmap_replicate. reflexivity. Qed.

Lemma clients_MInv (w : World) (r : Request) (n : nat) :
  objectHandles w = ∅ -> handles w = [] -> goroutines w = [] ->
  MInv (path_Clean ("/" ++ URLPath r)) (clients w r n).
Proof.
  intros Hreg Hh Hg. rewrite clients_clientsOf.
  apply clientsOf_MInv; try assumption.
  intros r' Hr'. apply elem_of_replicate in Hr' as [-> _]. reflexivity.
Qed.

(** *** Counting upstream requests *)

Lemma probeCache_requests (env : Env) (method url cachePath : string) (w : World) :
  upstreamRequests (probeCache env method url cachePath w).2 = upstreamRequests w.
Proof.
  unfold probeCache.
  pose proof (os_Open_quiet env cachePath w) as H1.
  destruct (os_Open env cachePath w) as [[e|f] w1]; cbn [snd] in *; [exact H1|].
  pose proof (os_Stat_quiet env cachePath f w1) as H2.
  destruct (os_Stat env cachePath f w1) as [[e|t] w2]; cbn [snd] in *; congruence.
Qed.

Lemma ServeHTTP_begin_requests (env : Env) (p : CachingReverseProxy)
    (rw : ResponseWriter) (r : Request) (w : World) :
  let '(b, w') := ServeHTTP_begin env p rw r w in
  (length (upstreamRequests w) <= length (upstreamRequests w'))%nat
  ∧ ∀ c, b = IsCachable c ->
         length (upstreamRequests w') = S (length (upstreamRequests w)).
Proof.
  unfold ServeHTTP_begin.
  destruct (negb _ && negb _); [split; [lia | intros c [=]]|].
  destruct (negb (validURL env _)); [split; [lia | intros c [=]]|].
  pose proof (probeCache_requests env (Method r)
                (upstreamPrefix p ++ path_Clean ("/" ++ URLPath r))
                (path_Join (cacheDir p) (path_Clean ("/" ++ URLPath r))) w) as H1.
  destruct (probeCache env _ _ _ w) as [[[[cacheFile cacheModTime] req]|] w1];
    cbn [snd] in H1; [|split; [rewrite H1; lia | intros c [=]]].
  pose proof (client_Do_requests env req w1) as H2.
  destruct (client_Do env req w1) as [[[resp b]|] w2]; cbn [snd] in H2.
  - pose proof (branchOnStatus_quiet env rw r (path_Clean ("/" ++ URLPath r))
                  (path_Join (cacheDir p) (path_Clean ("/" ++ URLPath r)))
                  cacheFile cacheModTime resp b w2) as H3.
    destruct (branchOnStatus _ _ _ _ _ _ _ _ _ _) as [b' w3]. cbn [snd] in H3.
    rewrite H3, H2, H1, length_app. cbn [length]. split; [lia | intros; lia].
  - rewrite H2, H1, length_app. cbn [length]. split; [lia | intros c [=]].
Qed.

Lemma rq_step_count (env : Env) (p : CachingReverseProxy) (t : RequestThread)
    (w : World) :
  let '(t', w') := rq_step env p t w in
  (count (attached t') + length (upstreamRequests w)
   <= count (attached t) + length (upstreamRequests w'))%nat.
Proof.
  unfold rq_step, attached.
  destruct (rq_pc t) as [|c|c hid|c hid scb|c scb|c scb res|s] eqn:Hpc.
  - pose proof (ServeHTTP_begin_requests env p (rq_rw t) (rq_request t) w) as H.
    pose proof (ServeHTTP_begin_not_streaming env p (rq_rw t) (rq_request t) w) as Hn.
    destruct (ServeHTTP_begin env p (rq_rw t) (rq_request t) w) as [[s|c] w1].
    + destruct H as [H _]. cbn [rq_pc]. specialize (Hn s eq_refl).
      destruct s; try contradiction; cbn [count]; lia.
    + destruct H as [_ H]. rewrite (H c eq_refl). cbn. lia.
  - pose proof (LoadOrStore_quiet (c_cleanPath c) w) as H.
    destruct (LoadOrStore (c_cleanPath c) w) as [hid w1]. cbn [snd rq_pc] in *.
    rewrite H. lia.
  - pose proof (Get_once_quiet env hid c w) as H.
    destruct (Get_once env hid c w) as [scb w1]. cbn [snd rq_pc] in *.
    rewrite H. lia.
  - pose proof (Get_openTemp_quiet env hid w) as H.
    destruct (Get_openTemp env hid w) as [res w1]. cbn [snd rq_pc] in *.
    rewrite H. destruct res as [e|rd]; [destruct (IsNotExist e)|]; cbn; lia.
  - pose proof (Get_openCache_quiet env (c_cachePath c) w) as H.
    destruct (Get_openCache env (c_cachePath c) w) as [res w1]. cbn [snd rq_pc] in *.
    rewrite H. lia.
  - cbn [rq_pc]. rewrite Get_defer_quiet.
    destruct (ServeHTTP_finish (rq_rw t) c res); cbn; lia.
  - rewrite Hpc. lia.
Qed.

Lemma body_Read_quiet (b : nat) (w : World) :
  upstreamRequests (body_Read b w).2 = upstreamRequests w.
Proof. unfold body_Read. repeat case_match; reflexivity. Qed.

Lemma copy_chunk_quiet (env : Env) (hid : nat) (chunk : list byte) (w : World) :
  upstreamRequests (copy_chunk env hid chunk w).2 = upstreamRequests w.
Proof.
  unfold copy_chunk, writer_Write.
  destruct (handles w !! hid) as [h|]; [|reflexivity].
  destruct (h_trackingWriter h) as [tw|]; [|reflexivity].
  destruct (tw_Write tw _ chunk (room env) 0) as [[[[n err] tw'] data'] sent].
  quiet_calls.
Qed.

Lemma writer_Close_quiet (env : Env) (hid : nat) (w : World) :
  upstreamRequests (writer_Close env hid w) = upstreamRequests w.
Proof.
  unfold writer_Close, tw_Close.
  destruct (handles w !! hid) as [h|]; [|reflexivity].
  destruct (h_trackingWriter h) as [tw|]; [|reflexivity].
  quiet_calls.
Qed.

Lemma publish_quiet (env : Env) (hid : nat) (cachePath : string) (err : option error)
    (w : World) :
  upstreamRequests (publish env hid cachePath err w) = upstreamRequests w.
Proof.
  unfold publish. destruct err; [apply os_Remove_quiet | apply os_Rename_quiet].
Qed.

Lemma registry_Delete_quiet (hid : nat) (w : World) :
  upstreamRequests (registry_Delete hid w) = upstreamRequests w.
Proof. unfold registry_Delete. quiet_calls. Qed.

Lemma dl_step_requests (env : Env) (g : nat) (w : World) :
  upstreamRequests (dl_step env g w) = upstreamRequests w.
Proof.
  unfold dl_step, set_goroutine.
  destruct (goroutines w !! g) as [d|]; [|reflexivity].
  destruct (d_pc d).
  - pose proof (body_Read_quiet (d_body d) w) as Hr.
    destruct (body_Read (d_body d) w) as [[chunk|] w1]; cbn [snd] in Hr.
    + pose proof (copy_chunk_quiet env (d_handle d) chunk w1) as Hc.
      destruct (copy_chunk env (d_handle d) chunk w1) as [[n err] w2].
      cbn [snd] in Hc. rewrite <- Hr, <- Hc. reflexivity.
    + rewrite <- Hr. reflexivity.
  - pose proof (os_Chtimes_quiet env (tempPathOf (d_handle d) w) (d_modTime d) w) as Hc.
    destruct (os_Chtimes env _ (d_modTime d) w) as [err w1]. cbn [snd] in Hc.
    rewrite <- Hc. reflexivity.
  - rewrite <- (writer_Close_quiet env (d_handle d) w). reflexivity.
  - rewrite <- (publish_quiet env (d_handle d) (d_cachePath d) (d_err d) w). reflexivity.
  - rewrite <- (registry_Delete_quiet (d_handle d) w). reflexivity.
  - rewrite <- (body_Close_quiet (d_body d) w). reflexivity.
  - reflexivity.
Qed.

Lemma filter_insert_count {A} (f : A -> bool) (l : list A) (i : nat) (x y : A) :
  l !! i = Some x ->
  (length (List.filter f (<[i := y]> l)) + count (f x)
   = length (List.filter f l) + count (f y))%nat.
Proof.
  revert i. induction l as [|a l IH]; intros [|i] H; try discriminate H.
  - injection H as ->. cbn. destruct (f x), (f y); cbn; lia.
  - cbn in H. cbn [List.filter]. specialize (IH i H).
    change (<[S i := y]> (a :: l)) with (a :: <[i := y]> l). cbn [List.filter].
    destruct (f a); cbn [length]; lia.
Qed.

Lemma step_count (p : CachingReverseProxy) (m : Machine) (l : Label) :
  (attachedCount (step p m l) + length (upstreamRequests (m_world m))
   <= attachedCount m + length (upstreamRequests (m_world (step p m l))))%nat.
Proof.
  destruct l as [env i|env g]; cbn [step].
  - destruct (m_threads m !! i) as [t|] eqn:Ht; [|lia].
    pose proof (rq_step_count env p t (m_world m)) as Hc.
    destruct (rq_step env p t (m_world m)) as [t' w'].
    unfold attachedCount. cbn [m_world m_threads].
    pose proof (filter_insert_count attached (m_threads m) i t t' Ht). lia.
  - unfold attachedCount. cbn [m_world m_threads].
    rewrite dl_step_requests. lia.
Qed.

Lemma run_count (p : CachingReverseProxy) (schedule : list Label) :
  ∀ m, (attachedCount (run p m schedule) + length (upstreamRequests (m_world m))
        <= attachedCount m
           + length (upstreamRequests (m_world (run p m schedule))))%nat.
Proof.
  induction schedule as [|l schedule IH]; intros m; cbn [run fold_left]; [lia|].
  pose proof (IH (step p m l)) as H1. pose proof (step_count p m l) as H2.
  unfold run in H1. lia.
Qed.

Lemma clients_attachedCount (w : World) (r : Request) (n : nat) :
  attachedCount (clients w r n) = 0%nat.
Proof.
  unfold attachedCount, clients. cbn [m_threads].
  induction n as [|n IH]; [reflexivity | exact IH].
Qed.

Lemma clientsOf_attachedCount (w : World) (rs : list Request) :
  attachedCount (clientsOf w rs) = 0%nat.
Proof.
  unfold attachedCount, clientsOf. cbn [m_threads].
  induction rs as [|r rs IH]; [reflexivity | exact IH].
Qed.

(** C9 (as stated): two clients ask for the same uncached path at once.
    In one schedule both are attached to handle 0, which is in the
    registry with its one downloader still copying, and two upstream
    requests have been issued.  In another both have asked the upstream
    while the path was uncached, and the second reaches the registry when
    the downloader of the first has renamed the file and run [Delete] and
    has not yet closed its body: the second client is given handle 1 and
    a downloader of its own, so that two downloaders of the path are
    alive, each with an upstream body of its own that is still open, two
    temporary files were created, and the clients do not share a copy. *)
Lemma coalescing_counterexamples :
  (map handleOf (m_threads twoClients) = [Some 0%nat; Some 0%nat]
   ∧ objectHandles (m_world twoClients) !! "/x/y.pkg"%string = Some 0%nat
   ∧ map d_pc (goroutines (m_world twoClients)) = [DlCopy]
   ∧ length (upstreamRequests (m_world twoClients)) = 2%nat)
  ∧ (map d_pc (goroutines (m_world overlap)) = [DlBodyClose; DlCopy]
     ∧ map (λ d, cleanPathOfHandle (d_handle d) (m_world overlap))
         (goroutines (m_world overlap))
       = ["/x/y.pkg"%string; "/x/y.pkg"%string]
     ∧ map d_handle (goroutines (m_world overlap)) = [0%nat; 1%nat]
     ∧ map d_body (goroutines (m_world overlap)) = [1%nat; 0%nat]
     ∧ map bs_closed (bodies (m_world overlap)) = [false; false]
     ∧ map handleOf (m_threads overlap) = [Some 0%nat; Some 1%nat]
     ∧ objectHandles (m_world overlap) !! "/x/y.pkg"%string = Some 1%nat
     ∧ names (m_world overlap)
       = <["cache.d/x/y.pkg.part.123456"%string := 1%nat]>
           (<["cache.d/x/y.pkg"%string := 0%nat]> ∅)
     ∧ upstreamRequests (m_world overlap)
       = [CallDo (mkUpstreamRequest "GET" "http://mirror.example.org/x/y.pkg" ∅);
          CallDo (mkUpstreamRequest "GET" "http://mirror.example.org/x/y.pkg" ∅)]).
Proof.
  repeat match goal with |- _ ∧ _ => split end; vm_compute; reflexivity.
Qed.

(** C9 (amended): for concurrent clients whose requests, whatever their
    spelling of the path and their headers, have one cleaned path, and a
    registry that starts empty, under every schedule and every behaviour
    of the environment: a handle has at most one downloader; at most one
    downloader that has not yet run [Delete] exists per path; a client
    working with a handle whose downloader has not yet run [Delete] works
    with the handle the registry holds for the path; and every client
    that went through the registry issued an upstream request of its own
    before. *)
Theorem coalescing (p : CachingReverseProxy) (w0 : World) (rs : list Request)
    (k : string) (schedule : list Label) :
  (∀ r, r ∈ rs -> path_Clean ("/" ++ URLPath r) = k) ->
  objectHandles w0 = ∅ -> handles w0 = [] -> goroutines w0 = [] ->
  let m := run p (clientsOf w0 rs) schedule in
  let w := m_world m in
  (∀ g1 g2 d1 d2,
     goroutines w !! g1 = Some d1 -> goroutines w !! g2 = Some d2 ->
     d_handle d1 = d_handle d2 -> g1 = g2)
  ∧ (∀ g1 g2 d1 d2,
       goroutines w !! g1 = Some d1 -> goroutines w !! g2 = Some d2 ->
       registered d1 = true -> registered d2 = true ->
       cleanPathOfHandle (d_handle d1) w = cleanPathOfHandle (d_handle d2) w ->
       g1 = g2)
  ∧ (∀ i t hid g d,
       m_threads m !! i = Some t -> handleOf t = Some hid ->
       goroutines w !! g = Some d -> d_handle d = hid -> registered d = true ->
       objectHandles w !! k = Some hid)
  ∧ (attachedCount m + length (upstreamRequests w0)
     <= length (upstreamRequests w))%nat.
Proof.
  intros Hpaths Hreg Hh Hg. cbv zeta.
  pose proof (run_MInv p k schedule _ (clientsOf_MInv w0 rs k Hpaths Hreg Hh Hg))
    as [Hsk Hthreads].
  set (m := run p (clientsOf w0 rs) schedule) in *.
  assert (Hgsk : ∀ g d, goroutines (m_world m) !! g = Some d ->
                        sk_goroutines (skeleton (m_world m)) !! g
                        = Some (d_handle d, registered d)).
  { intros g d Hd. unfold skeleton. cbn. rewrite list_lookup_fmap, Hd. reflexivity. }
  assert (Hpath : ∀ hid k o, sk_handles (skeleton (m_world m)) !! hid = Some (k, o) ->
                             cleanPathOfHandle hid (m_world m) = k).
  { intros hid k' o. unfold skeleton, cleanPathOfHandle. cbn.
    rewrite list_lookup_fmap. destruct (handles (m_world m) !! hid) as [h|];
      [|intros [=]]. cbn. intros [= <- _]. reflexivity. }
  split; [|split; [|split]].
  - intros g1 g2 d1 d2 H1 H2 Heq.
    apply Hgsk in H1, H2. rewrite Heq in H1.
    eapply (inv_once _ Hsk); eassumption.
  - intros g1 g2 d1 d2 H1 H2 R1 R2 Heq.
    apply Hgsk in H1, H2. rewrite R1 in H1. rewrite R2 in H2.
    destruct (inv_spawned _ Hsk _ _ _ H1) as [k1 Hk1].
    destruct (inv_spawned _ Hsk _ _ _ H2) as [k2 Hk2].
    rewrite (Hpath _ _ _ Hk1), (Hpath _ _ _ Hk2) in Heq. subst k2.
    pose proof (inv_live _ Hsk _ _ _ _ H1 Hk1) as L1.
    pose proof (inv_live _ Hsk _ _ _ _ H2 Hk2) as L2.
    rewrite L1 in L2. injection L2 as L2. rewrite <- L2 in H2.
    eapply (inv_once _ Hsk); eassumption.
  - intros i t hid g d Ht Hhid Hd Hdh Hlive.
    destruct (Hthreads i t Ht) as [Hr [Hhandle _]].
    destruct (Hhandle hid Hhid) as [o Ho].
    apply Hgsk in Hd. rewrite Hdh, Hlive in Hd.
    pose proof (inv_live _ Hsk _ _ _ _ Hd Ho) as L.
    rewrite Hr in L. exact L.
  - pose proof (run_count p schedule (clientsOf w0 rs)) as Hc.
    rewrite clientsOf_attachedCount in Hc. cbn [clientsOf m_world] in Hc.
    fold m in Hc. lia.
Qed.

Lemma coalescing_witness :
  (∀ g1 g2 d1 d2,
     goroutines (m_world twoSpellings) !! g1 = Some d1 ->
     goroutines (m_world twoSpellings) !! g2 = Some d2 ->
     d_handle d1 = d_handle d2 -> g1 = g2)
  ∧ map handleOf (m_threads twoSpellings) = [Some 0%nat; Some 0%nat]
  ∧ objectHandles (m_world twoSpellings) !! "/x/y.pkg"%string = Some 0%nat
  ∧ (2 <= length (upstreamRequests (m_world twoSpellings)))%nat.
Proof.
  destruct (coalescing proxy1 emptyWorld [request "GET" "/x/y.pkg"; rangeRequest]
              "/x/y.pkg"
              (replicate 5 (RunRequest (testEnv noFault (λ _, Some object1)) 0)
               ++ replicate 5 (RunRequest (testEnv noFault (λ _, Some object1)) 1)))
    as (Honce & _ & Hshared & Hcount); try reflexivity.
  - intros r Hr.
    apply elem_of_cons in Hr as [->|Hr]; [vm_compute; reflexivity|].
    apply list_elem_of_singleton in Hr as ->. vm_compute. reflexivity.
  - split; [exact Honce|]. split; [vm_compute; reflexivity|]. split.
    + apply (Hshared 1%nat
               (mkThread rangeRequest newResponseWriter
                  (RqEnd (Streaming newResponseWriter "y.pkg" mtime1
                            (RSPartial 0 (mkPartial (mkOsFile 0 0 false) 0 0 false)))))
               0%nat 0%nat
               (mkDownloader 0 0 mtime1 "cache.d/x/y.pkg" DlCopy None 0));
        vm_compute; reflexivity.
    + exact Hcount.
Defined.

(** ** The two readings of the code agree

    A request left alone reaches its end in six actions, with the result
    and the world of [ServeHTTP]; a downloader left alone reaches its end
    in as many actions as the body has chunks plus six, with the world of
    [downloader]. *)

Lemma rq_run_end (env : Env) (p : CachingReverseProxy) (fuel : nat)
    (r : Request) (rw : ResponseWriter) (s : Served) (w : World) :
  rq_run env p fuel (mkThread r rw (RqEnd s)) w = (mkThread r rw (RqEnd s), w).
Proof. induction fuel as [|fuel IH]; [reflexivity | exact IH]. Qed.

(** A request left alone reaches its end in six actions on the
    shared state, with the result and the world of [ServeHTTP]. *)
Lemma rq_run_ServeHTTP (env : Env) (p : CachingReverseProxy) (r : Request)
    (rw : ResponseWriter) (w : World) :
  rq_run env p 6 (mkThread r rw RqBegin) w
  = (mkThread r rw (RqEnd (ServeHTTP env p rw r w).1), (ServeHTTP env p rw r w).2).
Proof.
  unfold ServeHTTP. cbn [rq_run rq_step rq_pc rq_rw rq_request].
  destruct (ServeHTTP_begin env p rw r w) as [[s|c] w1].
  { apply (rq_run_end env p 5). }
  cbn [rq_run rq_step rq_pc rq_rw rq_request].
  destruct (LoadOrStore (c_cleanPath c) w1) as [hid w2].
  cbn [rq_run rq_step rq_pc rq_rw rq_request]. unfold Get.
  destruct (Get_once env hid c w2) as [scb w3].
  cbn [rq_run rq_step rq_pc rq_rw rq_request].
  destruct (Get_openTemp env hid w3) as [[e|rd] w4].
  - destruct (IsNotExist e); cbn [rq_run rq_step rq_pc rq_rw rq_request].
    + destruct (Get_openCache env (c_cachePath c) w4) as [res w5].
      cbn [rq_run rq_step rq_pc rq_rw rq_request fst snd]. reflexivity.
    + reflexivity.
  - cbn [rq_run rq_step rq_pc rq_rw rq_request fst snd]. reflexivity.
Qed.

Lemma set_goroutine_twice (g : nat) (d1 d2 : Downloader) (w : World) :
  set_goroutine g d2 (set_goroutine g d1 w) = set_goroutine g d2 w.
Proof.
  unfold set_goroutine, set_goroutines. cbn. rewrite list_insert_insert_eq. reflexivity.
Qed.

Lemma body_Read_goroutine (b g : nat) (d : Downloader) (w : World) :
  body_Read b (set_goroutine g d w)
  = ((body_Read b w).1, set_goroutine g d (body_Read b w).2).
Proof.
  unfold body_Read. cbn [bodies set_goroutine set_goroutines].
  destruct (bodies w !! b) as [[[|chunk rest] err closed]|]; reflexivity.
Qed.

Lemma copy_chunk_goroutine (env : Env) (hid g : nat) (d : Downloader)
    (chunk : list byte) (w : World) :
  copy_chunk env hid chunk (set_goroutine g d w)
  = ((copy_chunk env hid chunk w).1, set_goroutine g d (copy_chunk env hid chunk w).2).
Proof.
  unfold copy_chunk, writer_Write. cbn [handles inodes set_goroutine set_goroutines].
  destruct (handles w !! hid) as [h|]; [|reflexivity].
  destruct (h_trackingWriter h) as [tw|]; [|reflexivity].
  destruct (tw_Write tw _ chunk (room env) 0) as [[[[n err] tw'] data'] sent].
  reflexivity.
Qed.

Lemma os_Chtimes_goroutine (env : Env) (path : string) (t : Time) (g : nat)
    (d : Downloader) (w : World) :
  os_Chtimes env path t (set_goroutine g d w)
  = ((os_Chtimes env path t w).1, set_goroutine g d (os_Chtimes env path t w).2).
Proof.
  unfold os_Chtimes. cbn [names set_goroutine set_goroutines].
  repeat case_match; reflexivity.
Qed.

Lemma writer_Close_goroutine (env : Env) (hid g : nat) (d : Downloader) (w : World) :
  writer_Close env hid (set_goroutine g d w)
  = set_goroutine g d (writer_Close env hid w).
Proof.
  unfold writer_Close. cbn [handles set_goroutine set_goroutines].
  repeat case_match; reflexivity.
Qed.

Lemma publish_goroutine (env : Env) (hid : nat) (cachePath : string)
    (err : option error) (g : nat) (d : Downloader) (w : World) :
  publish env hid cachePath err (set_goroutine g d w)
  = set_goroutine g d (publish env hid cachePath err w).
Proof.
  unfold publish, os_Rename, os_Remove, tempPathOf.
  cbn [handles names set_goroutine set_goroutines].
  repeat case_match; reflexivity.
Qed.

Lemma registry_Delete_goroutine (hid g : nat) (d : Downloader) (w : World) :
  registry_Delete hid (set_goroutine g d w)
  = set_goroutine g d (registry_Delete hid w).
Proof. reflexivity. Qed.

Lemma body_Close_goroutine (b g : nat) (d : Downloader) (w : World) :
  body_Close b (set_goroutine g d w) = set_goroutine g d (body_Close b w).
Proof. reflexivity. Qed.

Lemma dl_run_add (env : Env) (g : nat) (a b : nat) (w : World) :
  dl_run env g (a + b) w = dl_run env g b (dl_run env g a w).
Proof. revert w. induction a as [|a IH]; intros w; [reflexivity | apply IH]. Qed.

Lemma dl_run_exit (env : Env) (g : nat) (fuel : nat) (d : Downloader) (w : World) :
  goroutines w !! g = Some d -> d_pc d = DlExit -> dl_run env g fuel w = w.
Proof.
  intros Hg Hpc. induction fuel as [|fuel IH]; [reflexivity|].
  cbn [dl_run]. unfold dl_step. rewrite Hg, Hpc. exact IH.
Qed.

(** From the writer's [Close] on: four actions. *)
Lemma dl_run_tail (env : Env) (g : nat) (fuel : nat) (d : Downloader) (w : World) :
  goroutines w !! g = Some d -> d_pc d = DlClose ->
  dl_run env g (4 + fuel) w
  = set_goroutine g (set_pc d DlExit (d_err d) (d_n d))
      (body_Close (d_body d)
         (registry_Delete (d_handle d)
            (publish env (d_handle d) (d_cachePath d) (d_err d)
               (writer_Close env (d_handle d) w)))).
Proof.
  intros Hg Hpc.
  assert (Hlt : (g < length (goroutines w))%nat) by (eapply lookup_lt_Some; eauto).
  assert (Hlook : ∀ d' w', goroutines w' = goroutines w ->
                           goroutines (set_goroutine g d' w') !! g = Some d').
  { intros d' w' Hw'. unfold set_goroutine. cbn. rewrite Hw'.
    apply list_lookup_insert_eq. exact Hlt. }
  change (4 + fuel)%nat with (S (S (S (S fuel)))). cbn [dl_run].
  unfold dl_step at 4. rewrite Hg, Hpc.
  unfold dl_step at 3.
  rewrite Hlook by (destruct (writer_Close_skel env (d_handle d) w) as (_ & _ & Q); exact Q).
  cbn [set_pc d_pc d_handle d_body d_cachePath d_err d_n d_modTime].
  rewrite publish_goroutine, set_goroutine_twice.
  unfold dl_step at 2.
  rewrite Hlook
    by (destruct (publish_skel env (d_handle d) (d_cachePath d) (d_err d)
                    (writer_Close env (d_handle d) w)) as (_ & _ & Q1);
        destruct (writer_Close_skel env (d_handle d) w) as (_ & _ & Q2); congruence).
  cbn [set_pc d_pc d_handle d_body d_cachePath d_err d_n d_modTime].
  rewrite registry_Delete_goroutine, set_goroutine_twice.
  unfold dl_step at 1.
  rewrite Hlook
    by (cbn;
        destruct (publish_skel env (d_handle d) (d_cachePath d) (d_err d)
                    (writer_Close env (d_handle d) w)) as (_ & _ & Q1);
        destruct (writer_Close_skel env (d_handle d) w) as (_ & _ & Q2); congruence).
  cbn [set_pc d_pc d_handle d_body d_cachePath d_err d_n d_modTime].
  rewrite body_Close_goroutine, set_goroutine_twice.
  apply (dl_run_exit env g fuel (set_pc d DlExit (d_err d) (d_n d))); [|reflexivity].
  apply Hlook. cbn.
  destruct (publish_skel env (d_handle d) (d_cachePath d) (d_err d)
              (writer_Close env (d_handle d) w)) as (_ & _ & Q1).
  destruct (writer_Close_skel env (d_handle d) w) as (_ & _ & Q2). congruence.
Qed.

Lemma io_Copy_goroutine (env : Env) (hid b g : nat) (d : Downloader) (fuel : nat) :
  ∀ w, io_Copy env hid b fuel (set_goroutine g d w)
       = ((io_Copy env hid b fuel w).1, set_goroutine g d (io_Copy env hid b fuel w).2).
Proof.
  induction fuel as [|fuel IH]; intros w; cbn [io_Copy]; [reflexivity|].
  rewrite body_Read_goroutine.
  destruct (body_Read b w) as [[chunk|] w1]; cbn [fst snd]; [|reflexivity].
  rewrite copy_chunk_goroutine.
  destruct (copy_chunk env hid chunk w1) as [[n err] w2]. cbn [fst snd].
  destruct err as [e|]; [reflexivity|].
  rewrite IH. destruct (io_Copy env hid b fuel w2) as [[m err] w3]. reflexivity.
Qed.

Lemma body_Read_rest (b : nat) (w : World) (k : nat) :
  (∀ bs, bodies w !! b = Some bs -> (length (bs_rest bs) <= S k)%nat) ->
  ∀ bs, bodies (body_Read b w).2 !! b = Some bs -> (length (bs_rest bs) <= k)%nat
        ∨ (body_Read b w).1 = None.
Proof.
  intros Hlen bs. unfold body_Read.
  destruct (bodies w !! b) as [[[|chunk rest] err closed]|] eqn:Hb; cbn [fst snd];
    try (intros _; right; reflexivity).
  cbn [bodies set_bodies].
  rewrite list_lookup_insert_eq by (eapply lookup_lt_Some; eauto).
  intros [= <-]. left. specialize (Hlen _ eq_refl). cbn in *. lia.
Qed.

Lemma copy_chunk_bodies (env : Env) (hid : nat) (chunk : list byte) (w : World) :
  bodies (copy_chunk env hid chunk w).2 = bodies w.
Proof.
  unfold copy_chunk, writer_Write.
  destruct (handles w !! hid) as [h|]; [|reflexivity].
  destruct (h_trackingWriter h) as [tw|]; [|reflexivity].
  destruct (tw_Write tw _ chunk (room env) 0) as [[[[n err] tw'] data'] sent].
  reflexivity.
Qed.

(** The copy loop, action by action, ends where [io.Copy] ends. *)
Lemma dl_run_copy (env : Env) (g : nat) (k : nat) :
  ∀ (w : World) (d : Downloader),
    goroutines w !! g = Some d -> d_pc d = DlCopy ->
    (∀ bs, bodies w !! d_body d = Some bs -> (length (bs_rest bs) <= k)%nat) ->
    ∃ j, (j <= k + 1)%nat
         ∧ ∀ fuel,
             dl_run env g (j + fuel) w
             = dl_run env g fuel
                 (set_goroutine g
                    (set_pc d
                       (match (io_Copy env (d_handle d) (d_body d) k w).1.2 with
                        | Some _ => DlClose
                        | None => DlChtimes
                        end)
                       (io_Copy env (d_handle d) (d_body d) k w).1.2
                       (d_n d + (io_Copy env (d_handle d) (d_body d) k w).1.1))
                    (io_Copy env (d_handle d) (d_body d) k w).2).
Proof.
  induction k as [|k IH]; intros w d Hg Hpc Hlen.
  - exists 1%nat. split; [lia|]. intros fuel. cbn [Nat.add dl_run io_Copy fst snd].
    unfold dl_step. rewrite Hg, Hpc.
    assert (Hread : body_Read (d_body d) w = (None, w)).
    { unfold body_Read.
      destruct (bodies w !! d_body d) as [[[|chunk rest] err closed]|] eqn:Hb;
        try reflexivity.
      specialize (Hlen _ eq_refl). cbn in Hlen. lia. }
    rewrite Hread, Z.add_0_r. reflexivity.
  - cbn [io_Copy].
    pose proof (body_Read_rest (d_body d) w k Hlen) as Hrest.
    pose proof (body_Read_skel (d_body d) w) as (_ & _ & Hgr).
    destruct (body_Read (d_body d) w) as [[chunk|] w1] eqn:Hread; cbn [fst snd] in *.
    + pose proof (copy_chunk_bodies env (d_handle d) chunk w1) as Hbod.
      pose proof (copy_chunk_skel env (d_handle d) chunk w1) as (_ & _ & Hgc).
      destruct (copy_chunk env (d_handle d) chunk w1) as [[n err] w2] eqn:Hcopy.
      cbn [fst snd] in *.
      destruct err as [e|].
      * exists 1%nat. split; [lia|]. intros fuel. cbn [Nat.add dl_run fst snd].
        unfold dl_step. rewrite Hg, Hpc, Hread, Hcopy. reflexivity.
      * set (d' := set_pc d DlCopy None (d_n d + n)).
        assert (Hg' : goroutines (set_goroutine g d' w2) !! g = Some d').
        { unfold set_goroutine. cbn. rewrite Hgc, Hgr.
          apply list_lookup_insert_eq. eapply lookup_lt_Some. exact Hg. }
        destruct (IH (set_goroutine g d' w2) d' Hg' eq_refl) as (j & Hj & Hrun).
        { intros bs Hbs. cbn in Hbs. rewrite Hbod in Hbs.
          destruct (Hrest bs Hbs) as [H|H]; [exact H | discriminate H]. }
        exists (S j). split; [lia|]. intros fuel.
        cbn [Nat.add dl_run]. unfold dl_step at 1. rewrite Hg, Hpc, Hread, Hcopy.
        fold d'. rewrite Hrun.
        cbn [d_handle d_body d_n set_pc d'] in *.
        change (d_handle d') with (d_handle d). change (d_body d') with (d_body d).
        rewrite io_Copy_goroutine.
        destruct (io_Copy env (d_handle d) (d_body d) k w2) as [[m err] w3].
        cbn [fst snd]. rewrite set_goroutine_twice.
        unfold d', set_pc. cbn. rewrite Z.add_assoc. reflexivity.
    + exists 1%nat. split; [lia|]. intros fuel. cbn [Nat.add dl_run fst snd].
      unfold dl_step. rewrite Hg, Hpc, Hread, Z.add_0_r. reflexivity.
Qed.

(** A downloader left alone ends after as many actions as the body
    has chunks plus six, and makes of the world what [downloader] makes of
    it. *)
Lemma dl_run_downloader (env : Env) (g : nat) (w : World) (d : Downloader)
    (bs : BodyState) :
  goroutines w !! g = Some d -> d_pc d = DlCopy -> bodies w !! d_body d = Some bs ->
  ∃ d', d_pc d' = DlExit
        ∧ dl_run env g (length (bs_rest bs) + 6) w
          = set_goroutine g d'
              (downloader env (d_handle d) (d_body d) (d_modTime d) (d_cachePath d) w).
Proof.
  intros Hg Hpc Hb.
  assert (Hlt : (g < length (goroutines w))%nat) by (eapply lookup_lt_Some; eauto).
  destruct (dl_run_copy env g (length (bs_rest bs)) w d Hg Hpc) as (j & Hj & Hrun).
  { intros bs' Hbs'. rewrite Hb in Hbs'. injection Hbs' as <-. lia. }
  unfold downloader. rewrite Hb.
  change (default [] (bs_rest <$> Some bs)) with (bs_rest bs).
  pose proof (io_Copy_frame env (d_handle d) (d_body d) (length (bs_rest bs)) w)
    as (_ & _ & Hgo & _).
  destruct (io_Copy env (d_handle d) (d_body d) (length (bs_rest bs)) w)
    as [[n err] w1]. cbn [fst snd] in *.
  replace (length (bs_rest bs) + 6)%nat
    with (j + (length (bs_rest bs) + 6 - j))%nat by lia.
  rewrite Hrun.
  assert (Hlook : ∀ d' w', goroutines w' = goroutines w ->
                           goroutines (set_goroutine g d' w') !! g = Some d').
  { intros d' w' Hw'. unfold set_goroutine. cbn. rewrite Hw'.
    apply list_lookup_insert_eq. exact Hlt. }
  destruct err as [e|].
  - replace (length (bs_rest bs) + 6 - j)%nat
      with (4 + (length (bs_rest bs) + 2 - j))%nat by lia.
    set (d1 := set_pc d DlClose (Some e) (d_n d + n)).
    rewrite (dl_run_tail env g _ d1 _ (Hlook d1 w1 Hgo) eq_refl).
    cbn [d1 set_pc d_pc d_handle d_body d_cachePath d_err d_n d_modTime].
    rewrite writer_Close_goroutine, publish_goroutine, registry_Delete_goroutine,
      body_Close_goroutine, set_goroutine_twice.
    eexists. split; [|reflexivity]. reflexivity.
  - replace (length (bs_rest bs) + 6 - j)%nat
      with (S (4 + (length (bs_rest bs) + 1 - j)))%nat by lia.
    cbn [dl_run]. unfold dl_step at 1. rewrite (Hlook _ _ Hgo).
    cbn [set_pc d_pc d_handle d_body d_cachePath d_err d_n d_modTime].
    assert (Htemp : tempPathOf (d_handle d)
                      (set_goroutine g (set_pc d DlChtimes None (d_n d + n)) w1)
                    = tempPathOf (d_handle d) w1) by reflexivity.
    rewrite Htemp, os_Chtimes_goroutine.
    pose proof (os_Chtimes_skel env (tempPathOf (d_handle d) w1) (d_modTime d) w1)
      as (_ & _ & Hgc).
    destruct (os_Chtimes env (tempPathOf (d_handle d) w1) (d_modTime d) w1)
      as [terr w2]. cbn [fst snd] in *.
    rewrite set_goroutine_twice.
    set (d1 := set_pc d DlClose terr (d_n d + n)).
    rewrite (dl_run_tail env g _ d1 _ (Hlook d1 w2 (eq_trans Hgc Hgo)) eq_refl).
    cbn [d1 set_pc d_pc d_handle d_body d_cachePath d_err d_n d_modTime].
    rewrite writer_Close_goroutine, publish_goroutine, registry_Delete_goroutine,
      body_Close_goroutine, set_goroutine_twice.
    eexists. split; [|reflexivity]. reflexivity.
Qed.

Lemma dl_run_downloader_witness :
  let env := testEnv noFault (λ _, Some object1) in
  let started := (ServeHTTP env proxy1 newResponseWriter (request "GET" "/x/y.pkg")
                    emptyWorld).2 in
  ∃ d', d_pc d' = DlExit
        ∧ dl_run env 0 8 started
          = set_goroutine 0 d' (downloader env 0 0 mtime1 "cache.d/x/y.pkg" started).
Proof.
  cbv zeta.
  apply (dl_run_downloader (testEnv noFault (λ _, Some object1)) 0
           (ServeHTTP (testEnv noFault (λ _, Some object1)) proxy1 newResponseWriter
              (request "GET" "/x/y.pkg") emptyWorld).2
           (mkDownloader 0 0 mtime1 "cache.d/x/y.pkg" DlCopy None 0)
           (mkBodyState [bytes "01234"; bytes "56789"] None false));
    vm_compute; reflexivity.
Defined.

(** ** The library models on known values *)

Example formatHTTP_known :
  map formatHTTP [mkTime 1445412480 0; mkTime 0 0; mkTime 951782400 0;
                  mkTime 784111777 999]
  = ["Wed, 21 Oct 2015 07:28:00 GMT"; "Thu, 01 Jan 1970 00:00:00 GMT";
     "Tue, 29 Feb 2000 00:00:00 GMT"; "Sun, 06 Nov 1994 08:49:37 GMT"]%string.
Proof. vm_compute. reflexivity. Qed.

Example path_Clean_known :
  map path_Clean ["//x/../y/./z/"; "/.."; "a/../.."; ""; "cache.d//x/y.pkg"; "/"]%string
  = ["/y/z"; "/"; ".."; "."; "cache.d/x/y.pkg"; "/"]%string.
Proof. vm_compute. reflexivity. Qed.

Example path_known :
  (path_Join "cache.d" "/x/y.pkg", path_Dir "cache.d/x/y.pkg",
   path_Base "cache.d/x/y.pkg", path_Dir "y", path_Base "/", path_Dir "/y")
  = ("cache.d/x/y.pkg", "cache.d/x", "y.pkg", ".", "/", "/")%string.
Proof. vm_compute. reflexivity. Qed.

Example FormatInt_known :
  map FormatInt [0; 10; 1234567; -5; 99; 100]
  = ["0"; "10"; "1234567"; "-5"; "99"; "100"]%string.
Proof. vm_compute. reflexivity. Qed.

(** ** The end-to-end scenarios of a fresh and of a cached object *)

(** S1: the first request starts the download; once the downloader has
    run, the cache holds the object under its path with the upstream
    time, the temporary file is gone and the registry is empty. *)
Example fresh_download :
  let env := testEnv noFault (λ _, Some object1) in
  let served := ServeHTTP env proxy1 newResponseWriter (request "GET" "/x/y.pkg")
                  emptyWorld in
  let w' := dl_run env 0 8 served.2 in
  served.1 = Streaming newResponseWriter "y.pkg" mtime1
               (RSPartial 0 (mkPartial (mkOsFile 0 0 false) 0 0 false))
  ∧ lookup_file "cache.d/x/y.pkg" w' = Some (mkInode (bytes "0123456789") mtime1)
  ∧ names w' !! "cache.d/x/y.pkg.part.123456"%string = None
  ∧ objectHandles w' = ∅
  ∧ map d_pc (goroutines w') = [DlExit]
  ∧ cachedWorld = mkWorld (names w') (inodes w') ∅ [] [] [] [].
Proof. cbv zeta. repeat split; vm_compute; reflexivity. Qed.

(** S2: the second request revalidates and is served from the cache. *)
Example cached_request :
  let env := testEnv noFault
               (λ req, if decide (u_Header req !! "If-Modified-Since"%string
                                  = Some [lastModified1])
                       then Some notModified else Some object1) in
  let served := ServeHTTP env proxy1 newResponseWriter (request "GET" "/x/y.pkg")
                  cachedWorld in
  ∃ rw, served.1 = Responded rw
        ∧ rw_status rw = Some 200
        ∧ rw_body rw = bytes "0123456789"
        ∧ goroutines served.2 = [].
Proof. cbv zeta. eexists. repeat split; vm_compute; reflexivity. Qed.

Example Fprintln_known :
  rw_body (Fprintln "ok" newResponseWriter) = [x6f; x6b; x0a]%byte
  ∧ rw_status (Fprintln "ok" newResponseWriter) = Some 200.
Proof. split; vm_compute; reflexivity. Qed.

(** * Further properties *)

(** ** The reader *)

(** X2: what a [Read] returns are the bytes of the file at the reader's
    position; without an error the position advances by their number; and
    the position and the file offset stay in agreement through [Read] and
    [Seek]. *)
Theorem Read_returns_file_bytes (r : partiallyDownloadedFile) (tw : trackingWriter)
    (data : list byte) (evs : list selectEvent) (lenp n : Z) (bs : list byte)
    (err : option error) (r' : partiallyDownloadedFile) :
  inSync r -> 0 <= pd_pos r <= Int64.max -> 0 <= pd_readyPos r <= Int64.max ->
  0 <= tw_written tw <= Int64.max -> Forall validEvent evs ->
  pd_Read r tw data evs lenp = ReadReturns n bs err r' ->
  bs = take (Z.to_nat n) (drop (Z.to_nat (pd_pos r)) data)
  ∧ inSync r'
  ∧ (err = None -> pd_pos r' = pd_pos r + n ∧ pd_seekBeforeRead r' = false)
  ∧ (∀ offset whence, inSync (pd_Seek r' tw offset whence).2).
Proof.
  intros Hsync Hpos Hready Hw Hevs.
  assert (Hseek : ∀ r0, inSync r0 -> ∀ offset whence,
            inSync (pd_Seek r0 tw offset whence).2).
  { intros r0 H0 offset whence. unfold pd_Seek.
    destruct (if whence =? io_SeekStart then _ else _) as [pos|]; [|exact H0].
    destruct (pos <? 0); [exact H0 | left; reflexivity]. }
  enough (Hmain : pd_Read r tw data evs lenp = ReadReturns n bs err r' ->
            bs = take (Z.to_nat n) (drop (Z.to_nat (pd_pos r)) data)
            ∧ inSync r'
            ∧ (err = None -> pd_pos r' = pd_pos r + n ∧ pd_seekBeforeRead r' = false)).
  { intros H. destruct (Hmain H) as (Hb & Hs & He).
    split; [exact Hb|]. split; [exact Hs|]. split; [exact He|]. apply Hseek, Hs. }
  unfold pd_Read.
  case_leb. { intros [= <- <- <- <-]. split; [reflexivity|]. split; [exact Hsync|]. intros [=]. }
  destruct (wait_loop (pd_pos r) (pd_readyPos r) tw evs) as [rp|rp] eqn:Hwait;
    [intros [=]|].
  pose proof (wait_loop_range _ tw evs Hw Hevs _ _ Hready Hwait) as Hrp.
  assert (Hcore : ∀ f, fd_off f = pd_pos r ->
            (let avail := Int64.sub rp (pd_pos r) in
             if (avail <? lenp) && (avail <? 0)
             then ReadPanics (mkPartial f rp (pd_pos r) false)
             else
               let lenp' := if avail <? lenp then avail else lenp in
               let '(n, bytes, err, f') := file_read f data lenp' in
               ReadReturns n bytes err
                 (mkPartial f' rp (Int64.add (pd_pos r) n) false))
            = ReadReturns n bs err r' ->
            bs = take (Z.to_nat n) (drop (Z.to_nat (pd_pos r)) data)
            ∧ inSync r'
            ∧ (err = None -> pd_pos r' = pd_pos r + n ∧ pd_seekBeforeRead r' = false)).
  { intros f Hf. cbv zeta. unfold Int64.sub.
    rewrite wrap_id by (unfold Int64.min, Int64.max in *; lia).
    assert (Hadd0 : Int64.add (pd_pos r) 0 = pd_pos r).
    { unfold Int64.add. rewrite Z.add_0_r. apply wrap_id.
      unfold Int64.min, Int64.max in *. lia. }
    assert (Hzero : ∀ (e : option error),
              ReadReturns 0 [] e (mkPartial f rp (Int64.add (pd_pos r) 0) false)
              = ReadReturns n bs err r' ->
              bs = take (Z.to_nat n) (drop (Z.to_nat (pd_pos r)) data)
              ∧ inSync r'
              ∧ (err = None -> pd_pos r' = pd_pos r + n ∧ pd_seekBeforeRead r' = false)).
    { intros e [= <- <- <- <-]. rewrite Hadd0. split; [reflexivity|].
      split; [right; exact Hf|]. intros _. cbn. split; [lia | reflexivity]. }
    destruct ((rp - pd_pos r <? lenp) && (rp - pd_pos r <? 0)) eqn:Hpanic;
      [intros Hd; discriminate Hd|].
    unfold file_read.
    destruct (fd_closed f); [apply Hzero|].
    case_leb; [apply Hzero|]. case_leb; [apply Hzero|].
    intros [= <- <- <- <-]. rewrite Hf.
    set (m := Z.min _ _).
    assert (Hm : 0 <= m ∧ pd_pos r + m <= Int64.max).
    { subst m. destruct (Z.ltb_spec0 (rp - pd_pos r) lenp);
        destruct (Z.ltb_spec0 (rp - pd_pos r) 0); cbn in Hpanic; try discriminate; lia. }
    assert (Hadd : Int64.add (pd_pos r) m = pd_pos r + m).
    { unfold Int64.add. apply wrap_id. unfold Int64.min, Int64.max in *. lia. }
    split; [reflexivity|]. rewrite Hadd.
    split; [right; reflexivity|]. intros _. split; reflexivity. }
  destruct (pd_seekBeforeRead r) eqn:Hsb.
  - unfold file_seek_start.
    destruct (fd_closed (pd_wrapped r)).
    { intros [= <- <- <- <-]. split; [reflexivity|]. split; [left; reflexivity|]. intros [=]. }
    case_ltb.
    { intros [= <- <- <- <-]. split; [reflexivity|]. split; [left; reflexivity|]. intros [=]. }
    cbn [pd_pos pd_wrapped bool_decide]. apply Hcore. reflexivity.
  - cbn [pd_pos pd_wrapped]. apply Hcore.
    destruct Hsync as [Hs|Hs]; [congruence | exact Hs].
Qed.

Lemma Read_returns_file_bytes_witness :
  bytes "23" = take 2 (drop 2 (bytes "0123"))
  ∧ inSync (mkPartial (mkOsFile 0 4 false) 4 4 false)
  ∧ (@None error = None -> 4 = 2 + 2 ∧ false = false)
  ∧ (∀ offset whence,
       inSync (pd_Seek (mkPartial (mkOsFile 0 4 false) 4 4 false) shortWriter
                 offset whence).2).
Proof.
  apply (Read_returns_file_bytes (mkPartial (mkOsFile 0 0 false) 0 2 true) shortWriter
           shortData [RecvUpdate 4] 8 2 (bytes "23") None
           (mkPartial (mkOsFile 0 4 false) 4 4 false)).
  - left. reflexivity.
  - vm_compute. split; intros H; discriminate H.
  - vm_compute. split; intros H; discriminate H.
  - vm_compute. split; intros H; discriminate H.
  - repeat constructor; vm_compute; intros H; discriminate H.
  - reflexivity.
Defined.

(** X3: below [size], a [Read] whose position has not been reached stays
    in the wait loop while the values received do not pass its position;
    the first value that does, or the closing of [done], releases it. *)
Theorem Read_waits_for_progress (r : partiallyDownloadedFile) (tw : trackingWriter)
    (data : list byte) (evs : list selectEvent) (lenp : Z) :
  pd_pos r < tw_size tw -> pd_readyPos r <= pd_pos r ->
  Forall (λ e, ∃ v, e = RecvUpdate v ∧ v <= pd_pos r) evs ->
  (∃ rp, rp <= pd_pos r
         ∧ pd_Read r tw data evs lenp
           = ReadParked (mkPartial (pd_wrapped r) rp (pd_pos r) (pd_seekBeforeRead r)))
  ∧ (∀ v rest, pd_pos r < v ->
       wait_loop (pd_pos r) (pd_readyPos r) tw (evs ++ RecvUpdate v :: rest) = inr v)
  ∧ (∀ rest,
       wait_loop (pd_pos r) (pd_readyPos r) tw (evs ++ RecvDone :: rest)
       = inr (tw_written tw)).
Proof.
  intros Hsize Hready Hevs.
  assert (Hloop : ∀ readyPos, readyPos <= pd_pos r ->
            (∃ rp, rp <= pd_pos r ∧ wait_loop (pd_pos r) readyPos tw evs = inl rp)
            ∧ (∀ v rest, pd_pos r < v ->
                 wait_loop (pd_pos r) readyPos tw (evs ++ RecvUpdate v :: rest) = inr v)
            ∧ (∀ rest, wait_loop (pd_pos r) readyPos tw (evs ++ RecvDone :: rest)
                       = inr (tw_written tw))).
  { induction Hevs as [|e evs (u & -> & Hu) _ IH]; intros readyPos Hr.
    - cbn. case_leb; [|lia]. split; [eauto|]. split.
      + intros v rest Hv. destruct rest; cbn; case_leb; (lia || reflexivity).
      + reflexivity.
    - cbn. case_leb; [|lia]. apply IH. exact Hu. }
  destruct (Hloop (pd_readyPos r) Hready) as ((rp & Hrp & Hwait) & Hupd & Hdone).
  split; [|split; [exact Hupd | exact Hdone]].
  exists rp. split; [exact Hrp|].
  unfold pd_Read. case_leb; [lia|]. rewrite Hwait. reflexivity.
Qed.

Lemma Read_waits_for_progress_witness :
  (∃ rp, rp <= 2
         ∧ pd_Read (mkPartial (mkOsFile 0 0 false) 0 2 true) shortWriter shortData
             [RecvUpdate 1; RecvUpdate 2] 8
           = ReadParked (mkPartial (mkOsFile 0 0 false) rp 2 true))
  ∧ (∀ v rest, 2 < v ->
       wait_loop 2 0 shortWriter ([RecvUpdate 1; RecvUpdate 2] ++ RecvUpdate v :: rest)
       = inr v)
  ∧ (∀ rest,
       wait_loop 2 0 shortWriter ([RecvUpdate 1; RecvUpdate 2] ++ RecvDone :: rest)
       = inr 4).
Proof.
  apply (Read_waits_for_progress (mkPartial (mkOsFile 0 0 false) 0 2 true) shortWriter
           shortData [RecvUpdate 1; RecvUpdate 2] 8).
  - reflexivity.
  - vm_compute. intros H. discriminate H.
  - repeat constructor; eexists; (split; [reflexivity|]); vm_compute;
      intros H; discriminate H.
Defined.

(** X20: every value [update] sends is the length of the file after the
    write, and a waiting reader that receives it finds the announced bytes
    there: its [Read] returns the bytes from its position up to that length
    or the buffer size, without error. *)
Theorem update_wakes_reader (w : trackingWriter) (data p : list byte)
    (room parked : nat) (r : partiallyDownloadedFile) (lenp : Z) :
  tw_written w = Zlen data -> Zlen data <= Int64.max ->
  inSync r -> fd_closed (pd_wrapped r) = false ->
  0 <= pd_pos r -> pd_readyPos r <= pd_pos r -> pd_pos r < tw_size w -> 0 < lenp ->
  let '(_, _, w', data', sent) := tw_Write w data p room parked in
  sent = replicate parked (Zlen data')
  ∧ tw_written w' = Zlen data'
  ∧ (pd_pos r < Zlen data' ->
     let m := Z.min lenp (Zlen data' - pd_pos r) in
     ∃ f,
       pd_Read r w' data' [RecvUpdate (Zlen data')] lenp
       = ReadReturns m (take (Z.to_nat m) (drop (Z.to_nat (pd_pos r)) data')) None
           (mkPartial f (Zlen data') (pd_pos r + m) false)
       ∧ fd_off f = pd_pos r + m).
Proof.
  intros Hw Hmax Hsync Hopen Hpos Hready Hsize Hlen.
  pose proof (tw_Write_spec w data p room parked Hw Hmax) as Hspec.
  unfold tw_Write in *.
  destruct (file_write data p room) as [[n err] data'].
  unfold tw_update in *. cbn [tw_written tw_size] in *.
  destruct Hspec as (Hn & Hadd & Hwritten & Hmax' & _).
  split; [rewrite Hwritten; reflexivity|]. split; [exact Hwritten|].
  intros Hnew. cbv zeta.
  set (v := Zlen data') in *. set (m := Z.min lenp (v - pd_pos r)).
  assert (Hm : 0 < m <= v - pd_pos r) by (subst m; lia).
  unfold pd_Read. cbn [tw_size].
  case_leb; [lia|]. cbn [wait_loop]. case_leb; [|lia]. case_leb; [lia|].
  assert (Hseek : ∃ f, (if pd_seekBeforeRead r
       then let '(pos', err, f') := file_seek_start (pd_wrapped r) (pd_pos r) in
            (mkPartial f' v pos' (bool_decide (is_Some err)), err)
       else (mkPartial (pd_wrapped r) v (pd_pos r) false, None))
      = (mkPartial f v (pd_pos r) false, None)
      ∧ fd_closed f = false ∧ fd_off f = pd_pos r).
  { destruct (pd_seekBeforeRead r) eqn:Hsb.
    - unfold file_seek_start. rewrite Hopen. case_ltb; [lia|].
      eexists. split; [reflexivity|]. split; reflexivity.
    - eexists. split; [reflexivity|]. split; [exact Hopen|].
      destruct Hsync as [Hs|Hs]; [congruence | exact Hs]. }
  destruct Hseek as (f & -> & Hf & Hoff). cbn [pd_pos pd_wrapped].
  unfold Int64.sub. rewrite wrap_id by (unfold Int64.min, Int64.max in *; lia).
  assert (Hnopanic : (v - pd_pos r <? 0) = false) by (apply Z.ltb_ge; lia).
  rewrite Hnopanic, andb_false_r.
  assert (Hclamp : (if v - pd_pos r <? lenp then v - pd_pos r else lenp) = m).
  { subst m. case_ltb; lia. }
  rewrite Hclamp. unfold file_read. rewrite Hf, Hoff.
  case_leb; [lia|]. fold v. case_leb; [lia|].
  assert (Hmin : Z.min m (v - pd_pos r) = m) by lia.
  rewrite Hmin. unfold Int64.add.
  rewrite wrap_id by (unfold Int64.min, Int64.max in *; lia).
  eexists. split; reflexivity.
Qed.

Lemma update_wakes_reader_witness :
  ∃ f, pd_Read freshReader (mkTrackingWriter 0 10 5 false) (bytes "01234")
         [RecvUpdate 5] 8
       = ReadReturns 5 (bytes "01234") None (mkPartial f 5 5 false)
       ∧ fd_off f = 5.
Proof.
  destruct (update_wakes_reader (newTrackingWriter 0 10) [] (bytes "01234") 4096 1
              freshReader 8) as (_ & _ & H).
  - reflexivity.
  - vm_compute. intros H. discriminate H.
  - right. reflexivity.
  - reflexivity.
  - vm_compute. intros H. discriminate H.
  - vm_compute. intros H. discriminate H.
  - reflexivity.
  - reflexivity.
  - apply H. reflexivity.
Defined.

(** X22: after [Close], a [Read] that gets past the wait loop returns the
    file's error and no byte; when a seek was pending the failed seek
    overwrites the position with 0. *)
Theorem Read_after_Close (r : partiallyDownloadedFile) (tw : trackingWriter)
    (data : list byte) (evs : list selectEvent) (lenp : Z) (cerr : option error)
    (rp : Z) :
  pd_pos r < tw_size tw ->
  wait_loop (pd_pos r) (pd_readyPos r) tw evs = inr rp ->
  0 <= pd_pos r -> pd_pos r <= rp -> rp <= Int64.max ->
  let closed := (pd_Close r cerr).2 in
  ∃ r', pd_Read closed tw data evs lenp = ReadReturns 0 [] (Some ErrClosed) r'
        ∧ pd_pos r' = (if pd_seekBeforeRead r then 0 else pd_pos r)
        ∧ pd_seekBeforeRead r' = pd_seekBeforeRead r
        ∧ pd_readyPos r' = rp.
Proof.
  intros Hsize Hwait Hpos Hrp Hmax closed. subst closed.
  unfold pd_Close, pd_Read. cbn [snd pd_pos pd_readyPos pd_seekBeforeRead pd_wrapped].
  case_leb; [lia|]. rewrite Hwait.
  destruct (pd_seekBeforeRead r).
  - unfold file_seek_start. cbn [fd_closed bool_decide].
    eexists. split; [reflexivity|]. repeat split.
  - cbn [pd_pos pd_wrapped].
    unfold Int64.sub. rewrite wrap_id by (unfold Int64.min, Int64.max in *; lia).
    assert (Hnopanic : (rp - pd_pos r <? 0) = false) by (apply Z.ltb_ge; lia).
    rewrite Hnopanic, andb_false_r. unfold file_read. cbn [fd_closed].
    eexists. split; [reflexivity|]. cbn [pd_pos pd_seekBeforeRead pd_readyPos].
    split; [|split; reflexivity].
    unfold Int64.add. rewrite Z.add_0_r. apply wrap_id.
    unfold Int64.min, Int64.max in *. lia.
Qed.

Lemma Read_after_Close_witness :
  ∃ r', pd_Read (pd_Close (mkPartial (mkOsFile 0 0 false) 4 2 true) None).2
          shortWriter shortData [] 8
        = ReadReturns 0 [] (Some ErrClosed) r'
        ∧ pd_pos r' = 0 ∧ pd_seekBeforeRead r' = true ∧ pd_readyPos r' = 4.
Proof.
  apply (Read_after_Close (mkPartial (mkOsFile 0 0 false) 4 2 true) shortWriter
           shortData [] 8 None 4).
  - reflexivity.
  - reflexivity.
  - vm_compute. intros H. discriminate H.
  - vm_compute. intros H. discriminate H.
  - vm_compute. intros H. discriminate H.
Defined.

(** ** The request pipeline *)

Lemma sameCache_refl (w : World) : sameCache w w.
Proof. repeat split. Qed.

Lemma sameCache_trans (w1 w2 w3 : World) :
  sameCache w1 w2 -> sameCache w2 w3 -> sameCache w1 w3.
Proof. unfold sameCache. intros (?&?&?&?&?) (?&?&?&?&?). repeat split; congruence. Qed.

Lemma probeCache_sameCache (env : Env) (method url cachePath : string) (w : World) :
  sameCache w (probeCache env method url cachePath w).2
  ∧ bodies (probeCache env method url cachePath w).2 = bodies w.
Proof.
  unfold probeCache, os_Open, os_Stat.
  destruct (fault env (SysOpen cachePath)); [repeat split|].
  destruct (names w !! cachePath);
    [|destruct (dirs w !! cachePath) eqn:Hd; [|repeat split]];
    cbn [inodes dirs log];
    (destruct (fault env (SysStat cachePath)); [repeat split|]).
  - destruct (inodes w !! _); repeat split.
  - rewrite Hd. repeat split.
Qed.

Lemma client_Do_sameCache (env : Env) (req : UpstreamRequest) (w : World) :
  sameCache w (client_Do env req w).2.
Proof. unfold client_Do. destruct (upstream env req); repeat split. Qed.

Lemma passThrough_sameCache (env : Env) (rw : ResponseWriter) (r : Request)
    (resp : Response) (b : nat) (w : World) :
  sameCache w (passThrough env rw r resp b w).2.
Proof.
  unfold passThrough. destruct (String.eqb (Method r) http_MethodGet); repeat split.
Qed.

Lemma branchOnStatus_sameCache (env : Env) (rw : ResponseWriter) (r : Request)
    (cleanPath cachePath : string) (cacheFile : option Opened) (cacheModTime : Time)
    (resp : Response) (b : nat) (w : World) :
  sameCache w (branchOnStatus env rw r cleanPath cachePath cacheFile cacheModTime
                 resp b w).2.
Proof.
  unfold branchOnStatus.
  destruct (StatusCode resp =? http_StatusNotModified); [apply sameCache_refl|].
  destruct (cachable env r resp); [apply sameCache_refl|].
  pose proof (passThrough_sameCache env rw r resp b w) as H.
  destruct (passThrough env rw r resp b w). exact H.
Qed.

Lemma ServeHTTP_begin_sameCache (env : Env) (p : CachingReverseProxy)
    (rw : ResponseWriter) (r : Request) (w : World) :
  sameCache w (ServeHTTP_begin env p rw r w).2.
Proof.
  unfold ServeHTTP_begin.
  destruct (negb _ && negb _); [apply sameCache_refl|].
  destruct (negb (validURL env _)); [apply sameCache_refl|].
  pose proof (probeCache_sameCache env (Method r)
                (upstreamPrefix p ++ path_Clean ("/" ++ URLPath r))
                (path_Join (cacheDir p) (path_Clean ("/" ++ URLPath r))) w) as [H1 _].
  destruct (probeCache env _ _ _ w) as [[[[cacheFile cacheModTime] req]|] w1];
    cbn [snd] in *; [|exact H1].
  pose proof (client_Do_sameCache env req w1) as H2.
  destruct (client_Do env req w1) as [[[resp b]|] w2]; cbn [snd] in *.
  - eapply sameCache_trans; [exact H1|]. eapply sameCache_trans; [exact H2|].
    apply branchOnStatus_sameCache.
  - eapply sameCache_trans; eassumption.
Qed.

(** The first part of [ServeHTTP] finds an answer cachable only when
    [cachable] holds of a response the upstream gave. *)
Lemma ServeHTTP_begin_cachable (env : Env) (p : CachingReverseProxy)
    (rw : ResponseWriter) (r : Request) (w : World) (c : Cachable) :
  (ServeHTTP_begin env p rw r w).1 = IsCachable c ->
  ∃ req resp, upstream env req = Some resp ∧ cachable env r resp = true.
Proof.
  unfold ServeHTTP_begin.
  destruct (negb _ && negb _); [intros [=]|].
  destruct (negb (validURL env _)); [intros [=]|].
  destruct (probeCache env _ _ _ w) as [[[[cacheFile cacheModTime] req]|] w1];
    [|intros [=]].
  unfold client_Do.
  destruct (upstream env req) as [resp|] eqn:Hup; [|intros [=]].
  unfold branchOnStatus.
  destruct (StatusCode resp =? http_StatusNotModified); [intros [=]|].
  destruct (cachable env r resp) eqn:Hc.
  - intros _. eauto.
  - destruct (passThrough env rw r resp _ _). intros [=].
Qed.

Lemma probeCache_request (env : Env) (method url cachePath : string) (w w1 : World)
    (cacheFile : option Opened) (cacheModTime : Time) (req : UpstreamRequest) :
  probeCache env method url cachePath w = (Some (cacheFile, cacheModTime, req), w1) ->
  ∃ hdr, req = mkUpstreamRequest method url hdr
         ∧ (hdr = ∅ ∨ ∃ t, hdr = Header_Set "If-Modified-Since" (formatHTTP t) ∅).
Proof.
  unfold probeCache.
  destruct (os_Open env cachePath w) as [[e|f] w0].
  - intros [= <- <- <- <-]. eexists. split; [reflexivity | left; reflexivity].
  - destruct (os_Stat env cachePath f w0) as [[e|t] w2]; [intros [=]|].
    intros [= <- <- <- <-]. eexists. split; [reflexivity | right; eauto].
Qed.

(** X4: a request is answered with at most one upstream request; it
    carries the method of the request and the upstream prefix followed by
    the cleaned path, and no header but [If-Modified-Since]. *)
Theorem one_upstream_request (env : Env) (p : CachingReverseProxy)
    (rw : ResponseWriter) (r : Request) (w : World) :
  let url := (upstreamPrefix p ++ path_Clean ("/" ++ URLPath r))%string in
  let served := ServeHTTP env p rw r w in
  upstreamRequests served.2 = upstreamRequests w
  ∨ ∃ hdr,
      upstreamRequests served.2
      = upstreamRequests w ++ [CallDo (mkUpstreamRequest (Method r) url hdr)]
      ∧ (Method r = http_MethodGet ∨ Method r = http_MethodHead)
      ∧ (hdr = ∅ ∨ ∃ t, hdr = Header_Set "If-Modified-Since" (formatHTTP t) ∅).
Proof.
  intros url served. subst served.
  unfold ServeHTTP, ServeHTTP_begin. fold url.
  destruct (negb _ && negb _) eqn:Hgate; [left; reflexivity|].
  assert (Hmethod : Method r = http_MethodGet ∨ Method r = http_MethodHead).
  { apply andb_false_iff in Hgate as [H|H]; apply negb_false_iff, String.eqb_eq in H;
      [right | left]; exact H. }
  destruct (negb (validURL env url)); [left; reflexivity|].
  pose proof (probeCache_requests env (Method r) url
                (path_Join (cacheDir p) (path_Clean ("/" ++ URLPath r))) w) as Hprobe.
  pose proof (probeCache_request env (Method r) url
                (path_Join (cacheDir p) (path_Clean ("/" ++ URLPath r))) w) as Hshape.
  destruct (probeCache env _ _ _ w) as [[[[cacheFile cacheModTime] req]|] w1];
    cbn [fst snd] in *; [|left; exact Hprobe].
  destruct (Hshape w1 cacheFile cacheModTime req eq_refl) as (hdr & -> & Hhdr).
  right. exists hdr. split; [|split; [exact Hmethod | exact Hhdr]].
  pose proof (client_Do_requests env (mkUpstreamRequest (Method r) url hdr) w1) as Hdo.
  destruct (client_Do env _ w1) as [[[resp b]|] w2]; cbn [fst snd] in *;
    [|congruence].
  pose proof (branchOnStatus_quiet env rw r (path_Clean ("/" ++ URLPath r))
                (path_Join (cacheDir p) (path_Clean ("/" ++ URLPath r)))
                cacheFile cacheModTime resp b w2) as Hbranch.
  destruct (branchOnStatus _ _ _ _ _ _ _ _ _ _) as [[s|c] w3]; cbn [snd] in *;
    [congruence|].
  pose proof (LoadOrStore_quiet (c_cleanPath c) w3) as Hl.
  destruct (LoadOrStore (c_cleanPath c) w3) as [hid w4]. cbn [snd] in Hl.
  pose proof (Get_quiet env hid c w4) as Hg.
  destruct (Get env hid c w4) as [res w5]. cbn [snd] in *. congruence.
Qed.

(** X5: a URL that [http.NewRequest] refuses, and a cache path that opens
    but cannot be stat'ed, make [ServeHTTP] panic before the upstream is
    contacted, with the cache and the bodies left as they were. *)
Theorem early_panic_leaves_no_trace (env : Env) (p : CachingReverseProxy)
    (rw : ResponseWriter) (r : Request) (w : World) :
  let cleanPath := path_Clean ("/" ++ URLPath r) in
  let cachePath := path_Join (cacheDir p) cleanPath in
  let served := ServeHTTP env p rw r w in
  Method r = http_MethodGet ∨ Method r = http_MethodHead ->
  validURL env (upstreamPrefix p ++ cleanPath) = false
  ∨ (fault env (SysOpen cachePath) = None
     ∧ (is_Some (names w !! cachePath) ∨ is_Some (dirs w !! cachePath))
     ∧ fault env (SysStat cachePath) ≠ None) ->
  served.1 = Panicked
  ∧ upstreamRequests served.2 = upstreamRequests w
  ∧ sameCache w served.2 ∧ bodies served.2 = bodies w.
Proof.
  intros cleanPath cachePath served Hmethod Hcause. subst served.
  unfold ServeHTTP, ServeHTTP_begin. fold cleanPath. fold cachePath.
  assert (Hgate : negb (String.eqb (Method r) http_MethodHead)
                  && negb (String.eqb (Method r) http_MethodGet) = false).
  { destruct Hmethod as [-> | ->]; reflexivity. }
  rewrite Hgate.
  destruct (validURL env (upstreamPrefix p ++ cleanPath)) eqn:Hurl; cbn [negb].
  2: { cbn [fst snd]. split; [reflexivity|]. split; [reflexivity|].
       split; [apply sameCache_refl | reflexivity]. }
  destruct Hcause as [Hbad | (Hopen & Hthere & Hstat)]; [discriminate Hbad|].
  pose proof (probeCache_sameCache env (Method r) (upstreamPrefix p ++ cleanPath)
                cachePath w) as [Hsame Hbodies].
  destruct (probeCache_stat_fails env (Method r) (upstreamPrefix p ++ cleanPath)
              cachePath w Hopen Hthere Hstat) as (w1 & Hprobe & Hquiet).
  rewrite Hprobe in *. cbn [fst snd] in *.
  split; [reflexivity|]. split; [exact Hquiet|]. split; [exact Hsame | exact Hbodies].
Qed.

Lemma early_panic_leaves_no_trace_witness :
  let env := testEnv (faultOn (SysStat "cache.d/x/y.pkg") EIO) (λ _, Some object1) in
  let served := ServeHTTP env proxy1 newResponseWriter (request "GET" "/x/y.pkg")
                  cachedWorld in
  served.1 = Panicked
  ∧ upstreamRequests served.2 = upstreamRequests cachedWorld
  ∧ sameCache cachedWorld served.2 ∧ bodies served.2 = bodies cachedWorld.
Proof.
  cbv zeta.
  apply (early_panic_leaves_no_trace
           (testEnv (faultOn (SysStat "cache.d/x/y.pkg") EIO) (λ _, Some object1))
           proxy1 newResponseWriter (request "GET" "/x/y.pkg") cachedWorld).
  - left. reflexivity.
  - right. split; [reflexivity|]. split.
    + left. exists 0%nat. reflexivity.
    + vm_compute. intros H. discriminate H.
Defined.

(** X6: when the upstream cannot be reached the answer is 502 with the
    plain-text body of [http.Error], and the cache is left as it was. *)
Theorem transport_error_bad_gateway (env : Env) (p : CachingReverseProxy)
    (r : Request) (w : World) :
  Method r = http_MethodGet ∨ Method r = http_MethodHead ->
  (∀ req, upstream env req = None) ->
  let served := ServeHTTP env p newResponseWriter r w in
  sameCache w served.2 ∧ bodies served.2 = bodies w
  ∧ (served.1 = Panicked
     ∨ ∃ rw req,
         served.1 = Responded rw
         ∧ rw_status rw = Some http_StatusBadGateway
         ∧ rw_body rw = bytes ("Bad Gateway" ++ String "010" EmptyString)
         ∧ rw_sent rw !! "Content-Type"%string = Some ["text/plain; charset=utf-8"%string]
         ∧ rw_sent rw !! "X-Content-Type-Options"%string = Some ["nosniff"%string]
         ∧ rw_superfluous rw = []
         ∧ upstreamRequests served.2 = upstreamRequests w ++ [CallDo req]).
Proof.
  intros Hmethod Hup served. subst served.
  unfold ServeHTTP, ServeHTTP_begin.
  assert (Hgate : negb (String.eqb (Method r) http_MethodHead)
                  && negb (String.eqb (Method r) http_MethodGet) = false).
  { destruct Hmethod as [-> | ->]; reflexivity. }
  rewrite Hgate.
  destruct (negb (validURL env _)).
  { cbn [fst snd]. split; [apply sameCache_refl|]. split; [reflexivity|]. left. reflexivity. }
  pose proof (probeCache_sameCache env (Method r)
                (upstreamPrefix p ++ path_Clean ("/" ++ URLPath r))
                (path_Join (cacheDir p) (path_Clean ("/" ++ URLPath r))) w)
    as [Hsame Hbodies].
  pose proof (probeCache_requests env (Method r)
                (upstreamPrefix p ++ path_Clean ("/" ++ URLPath r))
                (path_Join (cacheDir p) (path_Clean ("/" ++ URLPath r))) w) as Hreq.
  destruct (probeCache env _ _ _ w) as [[[[cacheFile cacheModTime] req]|] w1];
    cbn [fst snd] in *.
  2: { split; [exact Hsame|]. split; [exact Hbodies|]. left. reflexivity. }
  pose proof (client_Do_requests env req w1) as Hdo.
  unfold client_Do in *. rewrite (Hup req) in *. cbn [fst snd] in *.
  split; [exact Hsame|]. split; [exact Hbodies|]. right.
  exists (statusError http_StatusBadGateway newResponseWriter), req.
  split; [reflexivity|]. split; [reflexivity|]. split; [reflexivity|].
  split; [reflexivity|]. split; [reflexivity|]. split; [reflexivity|].
  rewrite Hdo, Hreq. reflexivity.
Qed.

Lemma transport_error_bad_gateway_witness :
  let served := ServeHTTP (testEnv noFault (λ _, None)) proxy1 newResponseWriter
                  (request "GET" "/x/y.pkg") cachedWorld in
  sameCache cachedWorld served.2 ∧ bodies served.2 = bodies cachedWorld
  ∧ ∃ rw, served.1 = Responded rw ∧ rw_status rw = Some 502.
Proof.
  cbv zeta.
  destruct (transport_error_bad_gateway (testEnv noFault (λ _, None)) proxy1
              (request "GET" "/x/y.pkg") cachedWorld)
    as (H1 & H2 & [H3 | (rw & req & H3 & H4 & _)]).
  - left. reflexivity.
  - intros req. reflexivity.
  - exfalso. vm_compute in H3. discriminate H3.
  - split; [exact H1|]. split; [exact H2|]. exists rw. split; [exact H3 | exact H4].
Defined.

(** X7: a 304 from the upstream for a request without range or
    precondition headers, when the cache path holds neither a file nor a
    directory or cannot be opened, is answered with 500:
    [http.ServeContent] is given a nil file. *)
Theorem not_modified_without_cache_file (env : Env) (p : CachingReverseProxy)
    (r : Request) (w : World) (resp : Response) :
  let cleanPath := path_Clean ("/" ++ URLPath r) in
  let cachePath := path_Join (cacheDir p) cleanPath in
  let url := (upstreamPrefix p ++ cleanPath)%string in
  let served := ServeHTTP env p newResponseWriter r w in
  Method r = http_MethodGet ∨ Method r = http_MethodHead ->
  validURL env url = true -> plainRequest r = true ->
  fault env (SysOpen cachePath) ≠ None
  ∨ (names w !! cachePath = None ∧ dirs w !! cachePath = None) ->
  upstream env (mkUpstreamRequest (Method r) url ∅) = Some resp ->
  StatusCode resp = http_StatusNotModified ->
  ∃ rw, served.1 = Responded rw
        ∧ rw_status rw = Some http_StatusInternalServerError
        ∧ rw_body rw = bytes ("seeker can't seek" ++ String "010" EmptyString)
        ∧ rw_sent rw !! "Last-Modified"%string = None
        ∧ sameCache w served.2.
Proof.
  intros cleanPath cachePath url served Hmethod Hurl Hplain Habsent Hup Hstatus.
  destruct (probeCache_absent env (Method r) url cachePath w Habsent)
    as (w1 & Hprobe & Hquiet).
  destruct (ServeHTTP_requests env p r w w1 None zeroTime
              (mkUpstreamRequest (Method r) url ∅) Hmethod Hurl Hprobe Hquiet)
    as [_ Hserved].
  destruct (Hserved resp Hup Hstatus) as (w2 & Hserved' & _). clear Hserved.
  assert (HSC : ServeContent env newResponseWriter r (path_Base cachePath) zeroTime None
                = http_Error "seeker can't seek" http_StatusInternalServerError
                    newResponseWriter).
  { unfold ServeContent. rewrite Hplain. reflexivity. }
  unfold serveCached in Hserved'.
  fold cleanPath in Hserved'. fold cachePath in Hserved'. rewrite HSC in Hserved'.
  eexists. split; [exact Hserved'|].
  split; [reflexivity|]. split; [reflexivity|]. split; [reflexivity|].
  unfold served, ServeHTTP.
  pose proof (ServeHTTP_begin_sameCache env p newResponseWriter r w) as Hframe.
  unfold served, ServeHTTP in Hserved'.
  destruct (ServeHTTP_begin env p newResponseWriter r w) as [[s|c] w3];
    cbn [fst snd] in *; [exact Hframe|].
  destruct (LoadOrStore _ _) as [hid w4]. destruct (Get env hid _ w4) as [[e|rd] w5];
    cbn [fst ServeHTTP_finish] in Hserved'; [|discriminate Hserved'].
  exfalso. vm_compute in Hserved'. discriminate Hserved'.
Qed.

Lemma not_modified_without_cache_file_witness :
  ∃ rw, (ServeHTTP (testEnv noFault (λ _, Some notModified)) proxy1 newResponseWriter
           (request "GET" "/x/y.pkg") emptyWorld).1 = Responded rw
        ∧ rw_status rw = Some 500.
Proof.
  destruct (not_modified_without_cache_file (testEnv noFault (λ _, Some notModified))
              proxy1 (request "GET" "/x/y.pkg") emptyWorld notModified)
    as (rw & H1 & H2 & _).
  - left. reflexivity.
  - reflexivity.
  - reflexivity.
  - right. split; reflexivity.
  - reflexivity.
  - reflexivity.
  - exists rw. split; [exact H1 | exact H2].
Defined.

(** X8: on the 304 path the upstream body is never closed. *)
Theorem not_modified_leaves_body_open (env : Env) (p : CachingReverseProxy)
    (rw : ResponseWriter) (r : Request) (w : World) :
  (∀ req resp, upstream env req = Some resp ->
               StatusCode resp = http_StatusNotModified) ->
  let served := ServeHTTP env p rw r w in
  bodies served.2 = bodies w
  ∨ ∃ req resp,
      upstream env req = Some resp
      ∧ bodies served.2
        = bodies w ++ [mkBodyState (b_chunks (RespBody resp)) (b_err (RespBody resp)) false]
      ∧ ¬ bodyClosed (length (bodies w)) served.2
      ∧ ∃ opened, calls served.2 = calls w ++ opened ++ [CallDo req]
                  ∧ CallBodyClose (length (bodies w)) ∉ opened.
Proof.
  intros Hup served. subst served.
  unfold ServeHTTP, ServeHTTP_begin.
  destruct (negb _ && negb _); [left; reflexivity|].
  destruct (negb (validURL env _)); [left; reflexivity|].
  pose proof (probeCache_sameCache env (Method r)
                (upstreamPrefix p ++ path_Clean ("/" ++ URLPath r))
                (path_Join (cacheDir p) (path_Clean ("/" ++ URLPath r))) w)
    as [_ Hbodies].
  assert (Hcalls : ∃ opened,
            calls (probeCache env (Method r)
                     (upstreamPrefix p ++ path_Clean ("/" ++ URLPath r))
                     (path_Join (cacheDir p) (path_Clean ("/" ++ URLPath r))) w).2
            = calls w ++ opened
            ∧ CallBodyClose (length (bodies w)) ∉ opened).
  { unfold probeCache, os_Open, os_Stat.
    destruct (fault env (SysOpen _));
      [|destruct (names w !! _);
        [cbn [inodes log]; destruct (fault env (SysStat _));
         [|destruct (inodes w !! _)]
        |destruct (dirs w !! _) eqn:Hd;
         [cbn [dirs log]; destruct (fault env (SysStat _)); [|rewrite Hd]|]]];
      cbn [snd calls log]; rewrite <- ?app_assoc;
      (eexists; split; [reflexivity|]);
      intros Hin; repeat (apply elem_of_cons in Hin as [Hin|Hin]; [discriminate Hin|]);
      apply elem_of_nil in Hin; exact Hin. }
  destruct (probeCache env _ _ _ w) as [[[[cacheFile cacheModTime] req]|] w1];
    cbn [fst snd] in *; [|left; exact Hbodies].
  unfold client_Do.
  destruct (upstream env req) as [resp|] eqn:Hreq; [|left; exact Hbodies].
  unfold branchOnStatus. rewrite (Hup req resp Hreq), Z.eqb_refl.
  cbn [fst snd bodies set_bodies log calls]. right.
  exists req, resp. split; [exact Hreq|]. rewrite Hbodies.
  split; [reflexivity|]. split.
  - unfold bodyClosed. cbn [bodies set_bodies log]. rewrite Hbodies.
    rewrite lookup_app_r by reflexivity. rewrite Nat.sub_diag.
    intros H. discriminate H.
  - destruct Hcalls as (opened & -> & Hnot). exists opened.
    split; [rewrite app_assoc; reflexivity | exact Hnot].
Qed.

Lemma not_modified_leaves_body_open_witness :
  bodies (ServeHTTP (testEnv noFault (λ _, Some notModified)) proxy1 newResponseWriter
            (request "GET" "/x/y.pkg") cachedWorld).2
  = [mkBodyState [] None false].
Proof.
  destruct (not_modified_leaves_body_open (testEnv noFault (λ _, Some notModified))
              proxy1 newResponseWriter (request "GET" "/x/y.pkg") cachedWorld)
    as [H | (req & resp & Hup & H & _)].
  - intros req resp [= <-]. reflexivity.
  - exfalso. vm_compute in H. discriminate H.
  - injection Hup as <-. exact H.
Defined.

(** X9: when no upstream answer is cachable (as for every HEAD request)
    the request leaves the cache, the registry and the downloaders alone
    and never streams from a download. *)
Theorem uncachable_leaves_cache_alone (env : Env) (p : CachingReverseProxy)
    (rw : ResponseWriter) (r : Request) (w : World) :
  (∀ req resp, upstream env req = Some resp -> cachable env r resp = false) ->
  sameCache w (ServeHTTP env p rw r w).2
  ∧ ∀ rw' name modtime rd,
      (ServeHTTP env p rw r w).1 ≠ Streaming rw' name modtime rd.
Proof.
  intros Hno. unfold ServeHTTP.
  pose proof (ServeHTTP_begin_sameCache env p rw r w) as Hframe.
  pose proof (ServeHTTP_begin_cachable env p rw r w) as Hc.
  pose proof (ServeHTTP_begin_not_streaming env p rw r w) as Hs.
  destruct (ServeHTTP_begin env p rw r w) as [[s|c] w1]; cbn [fst snd] in *.
  - split; [exact Hframe|]. intros rw' name modtime rd ->.
    exact (Hs _ eq_refl).
  - destruct (Hc c eq_refl) as (req & resp & Hup & Hcach).
    rewrite (Hno req resp Hup) in Hcach. discriminate Hcach.
Qed.

Lemma uncachable_leaves_cache_alone_witness :
  sameCache cachedWorld
    (ServeHTTP (testEnv noFault (λ _, Some notFound)) proxy1 newResponseWriter
       (request "GET" "/missing") cachedWorld).2
  ∧ ∀ rw' name modtime rd,
      (ServeHTTP (testEnv noFault (λ _, Some notFound)) proxy1 newResponseWriter
         (request "GET" "/missing") cachedWorld).1 ≠ Streaming rw' name modtime rd.
Proof.
  apply (uncachable_leaves_cache_alone (testEnv noFault (λ _, Some notFound)) proxy1
           newResponseWriter (request "GET" "/missing") cachedWorld).
  intros req resp [= <-]. reflexivity.
Defined.

Lemma ServeHTTP_begin_IsCachable (env : Env) (p : CachingReverseProxy)
    (rw : ResponseWriter) (r : Request) (w : World) (c : Cachable) :
  (ServeHTTP_begin env p rw r w).1 = IsCachable c ->
  ∃ req resp,
    upstream env req = Some resp ∧ cachable env r resp = true
    ∧ c_cleanPath c = path_Clean ("/" ++ URLPath r)
    ∧ c_cachePath c = path_Join (cacheDir p) (path_Clean ("/" ++ URLPath r))
    ∧ time_Parse env (Header_Get "Last-Modified" (RespHeader resp)) = Some (c_modTime c)
    ∧ c_size c = ContentLength resp.
Proof.
  unfold ServeHTTP_begin.
  destruct (negb _ && negb _); [intros [=]|].
  destruct (negb (validURL env _)); [intros [=]|].
  destruct (probeCache env _ _ _ w) as [[[[cacheFile cacheModTime] req]|] w1];
    [|intros [=]].
  unfold client_Do.
  destruct (upstream env req) as [resp|] eqn:Hup; [|intros [=]].
  unfold branchOnStatus.
  destruct (StatusCode resp =? http_StatusNotModified); [intros [=]|].
  destruct (cachable env r resp) eqn:Hc.
  - cbn [fst]. intros [= <-]. exists req, resp. cbn [c_cleanPath c_cachePath c_modTime c_size].
    split; [exact Hup|]. split; [exact Hc|]. split; [reflexivity|]. split; [reflexivity|].
    split; [|reflexivity].
    unfold cachable in Hc. apply andb_true_iff in Hc as [_ Hc].
    apply bool_decide_eq_true in Hc as [t Ht]. rewrite Ht. reflexivity.
  - destruct (passThrough env rw r resp _ _). intros [=].
Qed.

(** X21: when [ServeHTTP] ends in [http.ServeContent] over a reader from
    [Get], the request was a GET whose upstream answer was 200 with
    [Accept-Ranges: bytes], a length and a parsable [Last-Modified]; the
    response was not touched before, the name is the base of the cleaned
    path, the time is the upstream's, and the reader stands at the start
    of the temporary file or of the cache file, or is a directory that
    was found at the temporary path or at the cache path. *)
Theorem streaming_means_cachable (env : Env) (p : CachingReverseProxy)
    (rw : ResponseWriter) (r : Request) (w : World) (rw' : ResponseWriter)
    (name : string) (modtime : Time) (rd : ReadSeekCloser) :
  (ServeHTTP env p rw r w).1 = Streaming rw' name modtime rd ->
  rw' = rw
  ∧ name = path_Base (path_Clean ("/" ++ URLPath r))
  ∧ Method r = http_MethodGet
  ∧ (∃ req resp,
       upstream env req = Some resp
       ∧ StatusCode resp = http_StatusOK
       ∧ hasAcceptRangeBytes resp = true
       ∧ ContentLength resp ≠ -1
       ∧ time_Parse env (Header_Get "Last-Modified" (RespHeader resp)) = Some modtime)
  ∧ ((∃ ino, rd = RSFile (mkOsFile ino 0 false)
             ∨ ∃ hid, rd = RSPartial hid (mkPartial (mkOsFile ino 0 false) 0 0 false))
     ∨ rd = RSDirectory None
              (path_Join (cacheDir p) (path_Clean ("/" ++ URLPath r)))
     ∨ ∃ hid tempPath, rd = RSDirectory (Some hid) tempPath).
Proof.
  unfold ServeHTTP.
  pose proof (ServeHTTP_begin_not_streaming env p rw r w) as Hs.
  pose proof (ServeHTTP_begin_IsCachable env p rw r w) as Hc.
  destruct (ServeHTTP_begin env p rw r w) as [[s|c] w1]; cbn [fst snd] in *.
  { intros ->. exfalso. exact (Hs _ eq_refl). }
  destruct (Hc c eq_refl) as (req & resp & Hup & Hcach & Hclean & Hcpath & Htime & _).
  destruct (LoadOrStore (c_cleanPath c) w1) as [hid w2].
  unfold Get. destruct (Get_once env hid c w2) as [scb w3].
  unfold Get_openTemp, Get_openCache, os_Open.
  assert (Hfacts : Method r = http_MethodGet ∧ StatusCode resp = http_StatusOK
                   ∧ hasAcceptRangeBytes resp = true ∧ ContentLength resp ≠ -1).
  { unfold cachable in Hcach.
    apply andb_true_iff in Hcach as [Hcach _].
    apply andb_true_iff in Hcach as [Hcach H4].
    apply andb_true_iff in Hcach as [Hcach H3].
    apply andb_true_iff in Hcach as [H1 H2].
    apply String.eqb_eq in H1. apply Z.eqb_eq in H2.
    apply negb_true_iff, Z.eqb_neq in H4. repeat split; assumption. }
  destruct Hfacts as (Hm & Hst & Har & Hcl).
  assert (Hout : ∀ f,
            ((∃ ino, f = RSFile (mkOsFile ino 0 false)
                     ∨ ∃ hid, f = RSPartial hid (mkPartial (mkOsFile ino 0 false) 0 0 false))
             ∨ f = RSDirectory None (c_cachePath c)
             ∨ ∃ hid tempPath, f = RSDirectory (Some hid) tempPath) ->
            Streaming rw (path_Base (c_cleanPath c)) (c_modTime c) f
            = Streaming rw' name modtime rd ->
            rw' = rw
            ∧ name = path_Base (path_Clean ("/" ++ URLPath r))
            ∧ Method r = http_MethodGet
            ∧ (∃ req resp,
                 upstream env req = Some resp
                 ∧ StatusCode resp = http_StatusOK
                 ∧ hasAcceptRangeBytes resp = true
                 ∧ ContentLength resp ≠ -1
                 ∧ time_Parse env (Header_Get "Last-Modified" (RespHeader resp))
                   = Some modtime)
            ∧ ((∃ ino, rd = RSFile (mkOsFile ino 0 false)
                       ∨ ∃ hid, rd = RSPartial hid
                                       (mkPartial (mkOsFile ino 0 false) 0 0 false))
               ∨ rd = RSDirectory None
                        (path_Join (cacheDir p) (path_Clean ("/" ++ URLPath r)))
               ∨ ∃ hid tempPath, rd = RSDirectory (Some hid) tempPath)).
  { intros f Hf [= <- <- <- <-]. split; [reflexivity|].
    split; [rewrite Hclean; reflexivity|]. split; [exact Hm|]. split.
    - exists req, resp. repeat split; assumption.
    - rewrite <- Hcpath. exact Hf. }
  assert (Hcache : ∀ w4,
            (ServeHTTP_finish rw c
               (match
                  (match fault env (SysOpen (c_cachePath c)) with
                   | Some e => inl e
                   | None =>
                       match names w4 !! c_cachePath c with
                       | Some ino => inr (OpenedFile (mkOsFile ino 0 false))
                       | None =>
                           match dirs w4 !! c_cachePath c with
                           | Some _ => inr (OpenedDir (c_cachePath c))
                           | None => inl ENOENT
                           end
                       end
                   end)
                with
                | inr (OpenedFile rfile) => inr (RSFile rfile)
                | inr (OpenedDir d) => inr (RSDirectory None d)
                | inl e => inl e
                end)
             = Streaming rw' name modtime rd) ->
            rw' = rw
            ∧ name = path_Base (path_Clean ("/" ++ URLPath r))
            ∧ Method r = http_MethodGet
            ∧ (∃ req resp,
                 upstream env req = Some resp
                 ∧ StatusCode resp = http_StatusOK
                 ∧ hasAcceptRangeBytes resp = true
                 ∧ ContentLength resp ≠ -1
                 ∧ time_Parse env (Header_Get "Last-Modified" (RespHeader resp))
                   = Some modtime)
            ∧ ((∃ ino, rd = RSFile (mkOsFile ino 0 false)
                       ∨ ∃ hid, rd = RSPartial hid
                                       (mkPartial (mkOsFile ino 0 false) 0 0 false))
               ∨ rd = RSDirectory None
                        (path_Join (cacheDir p) (path_Clean ("/" ++ URLPath r)))
               ∨ ∃ hid tempPath, rd = RSDirectory (Some hid) tempPath)).
  { intros w4.
    destruct (fault env (SysOpen (c_cachePath c)));
      [cbn [ServeHTTP_finish]; intros [=]|].
    destruct (names w4 !! c_cachePath c) as [ino|].
    - cbn [ServeHTTP_finish]. apply Hout. left. exists ino. left. reflexivity.
    - destruct (dirs w4 !! c_cachePath c); cbn [ServeHTTP_finish]; [|intros [=]].
      apply Hout. right. left. reflexivity. }
  destruct (fault env (SysOpen (default EmptyString (h_tempPath <$> handles w3 !! hid))))
    as [e|].
  - destruct (IsNotExist e); [|cbn [fst ServeHTTP_finish]; intros [=]].
    cbn [names dirs log fst]. apply Hcache.
  - destruct (names w3 !! _) as [ino|].
    + cbn [fst ServeHTTP_finish]. apply Hout. left. exists ino. right. eauto.
    + destruct (dirs w3 !! _).
      * cbn [fst ServeHTTP_finish]. apply Hout. right. right. eauto.
      * cbn [IsNotExist names dirs log fst]. apply Hcache.
Qed.

Lemma streaming_means_cachable_witness :
  Method (request "GET" "/x/y.pkg") = http_MethodGet
  ∧ ∃ req resp,
      upstream (testEnv noFault (λ _, Some object1)) req = Some resp
      ∧ StatusCode resp = http_StatusOK
      ∧ hasAcceptRangeBytes resp = true
      ∧ ContentLength resp ≠ -1
      ∧ time_Parse (testEnv noFault (λ _, Some object1))
          (Header_Get "Last-Modified" (RespHeader resp)) = Some mtime1.
Proof.
  destruct (streaming_means_cachable (testEnv noFault (λ _, Some object1)) proxy1
              newResponseWriter (request "GET" "/x/y.pkg") emptyWorld
              newResponseWriter "y.pkg" mtime1 (RSPartial 0 freshReader))
    as (_ & _ & Hm & Hup & _).
  - vm_compute. reflexivity.
  - split; [exact Hm | exact Hup].
Defined.

(** A request for [/x] after [/x/y.pkg] was downloaded, when
    [ioutil.TempFile] fails: [Get] finds no temporary file, opens the
    cache path, which is the directory made for the download, and
    [ServeHTTP] goes on to [http.ServeContent] over that directory. *)
Example init_failure_serves_directory :
  (ServeHTTP (testEnv (faultOn (SysTempFile "cache.d") ENOSPC) (λ _, Some object1))
     proxy1 newResponseWriter (request "GET" "/x") downloadedWorld).1
  = Streaming newResponseWriter "x" mtime1 (RSDirectory None "cache.d/x").
Proof. vm_compute. reflexivity. Qed.

(** ** The object handle *)

(** X10: the first [Get] on a handle creates the temporary file next to
    the cache path, stores its name and a writer of the declared size in
    the handle, starts the downloader on the caller's body without closing
    it, and returns a reader at the start of the temporary file. *)
Theorem Get_starts_download (env : Env) (hid : nat) (c : Cachable) (w : World)
    (h : objectHandle) :
  let dir := path_Dir (c_cachePath c) in
  let pfx := (path_Base (c_cachePath c) ++ ".part.")%string in
  let temp := path_Join dir (pfx ++ nonce env) in
  let ino := length (inodes w) in
  handles w !! hid = Some h -> h_once h = false ->
  fault env (SysMkdirAll dir) = None -> fault env (SysTempFile dir) = None ->
  names w !! temp = None -> fault env (SysOpen temp) = None ->
  ∃ w',
    Get env hid c w
    = (inr (RSPartial hid (mkPartial (mkOsFile ino 0 false) 0 0 false)), w')
    ∧ names w' = <[temp := ino]> (names w)
    ∧ inodes w' = inodes w ++ [mkInode [] (now env)]
    ∧ handles w'
      = <[hid := mkHandle (h_cleanPath h) true temp
                   (Some (newTrackingWriter ino (c_size c)))]> (handles w)
    ∧ goroutines w'
      = goroutines w
        ++ [mkDownloader hid (c_body c) (c_modTime c) (c_cachePath c) DlCopy None 0]
    ∧ bodies w' = bodies w
    ∧ objectHandles w' = objectHandles w
    ∧ calls w'
      = calls w
        ++ [CallMkdirAll dir None; CallTempFile dir (pfx ++ "*") None;
            CallGo (length (goroutines w)); CallOpen temp None].
Proof.
  intros dir pfx temp ino Hh Honce Hmk Htmp Hfree Hopen.
  unfold Get, Get_once. rewrite Hh, Honce.
  unfold os_MkdirAll. fold dir. rewrite Hmk.
  unfold ioutil_TempFile. fold pfx. rewrite Htmp.
  cbn [names set_handles set_dirs log]. fold temp. rewrite Hfree.
  set (w1 := log (CallGo _) _).
  assert (Hhandles : handles w1
            = <[hid := mkHandle (h_cleanPath h) true temp
                         (Some (newTrackingWriter ino (c_size c)))]> (handles w)).
  { subst w1. cbn [set_handles set_names set_inodes set_dirs log set_goroutines handles].
    apply list_insert_insert_eq. }
  assert (Hnames : names w1 = <[temp := ino]> (names w)) by reflexivity.
  unfold Get_openTemp. rewrite Hhandles.
  rewrite list_lookup_insert_eq by (eapply lookup_lt_Some; exact Hh).
  match goal with
  | |- context [default EmptyString (h_tempPath <$> Some ?x)] =>
      change (default EmptyString (h_tempPath <$> Some x)) with temp
  end.
  unfold os_Open. rewrite Hopen, Hnames, lookup_insert_eq.
  unfold Get_defer.
  eexists. split; [reflexivity|].
  cbn [log names inodes handles goroutines calls objectHandles bodies].
  split; [exact Hnames|]. split; [reflexivity|]. split; [exact Hhandles|].
  split; [reflexivity|]. split; [reflexivity|]. split; [reflexivity|].
  subst w1. cbn [set_handles set_names set_inodes set_dirs log set_goroutines calls].
  rewrite <- !app_assoc. reflexivity.
Qed.

Lemma Get_starts_download_witness :
  let env := testEnv noFault (λ _, Some object1) in
  let c := mkCachable "/x/y.pkg" "cache.d/x/y.pkg" 0 mtime1 10 in
  let w := (LoadOrStore "/x/y.pkg" emptyWorld).2 in
  ∃ w', Get env 0 c w = (inr (RSPartial 0 freshReader), w')
        ∧ names w' = <["cache.d/x/y.pkg.part.123456"%string := 0%nat]> ∅
        ∧ goroutines w' = [mkDownloader 0 0 mtime1 "cache.d/x/y.pkg" DlCopy None 0].
Proof.
  cbv zeta.
  destruct (Get_starts_download (testEnv noFault (λ _, Some object1)) 0
              (mkCachable "/x/y.pkg" "cache.d/x/y.pkg" 0 mtime1 10)
              (LoadOrStore "/x/y.pkg" emptyWorld).2
              (mkHandle "/x/y.pkg" false EmptyString None))
    as (w' & HG & Hn & _ & _ & Hg & _); try reflexivity.
  exists w'. split; [exact HG|]. split; [exact Hn | exact Hg].
Defined.

(** X11: a [Get] on a handle whose [once] has run closes the caller's body
    and changes nothing else; it returns a reader on the temporary file
    while that exists, the cache file once the temporary file is gone, a
    directory when one is found in the place of either, and an error when
    nothing is there. *)
Theorem Get_joins_download (env : Env) (hid : nat) (c : Cachable) (w : World)
    (h : objectHandle) (bs : BodyState) :
  handles w !! hid = Some h -> h_once h = true -> bodies w !! c_body c = Some bs ->
  let temp := h_tempPath h in
  let res := (Get env hid c w).1 in
  let w' := (Get env hid c w).2 in
  bodies w' !! c_body c = Some (mkBodyState (bs_rest bs) (bs_err bs) true)
  ∧ (∀ b, b ≠ c_body c -> bodies w' !! b = bodies w !! b)
  ∧ names w' = names w ∧ inodes w' = inodes w ∧ handles w' = handles w
  ∧ goroutines w' = goroutines w ∧ objectHandles w' = objectHandles w
  ∧ dirs w' = dirs w
  ∧ (fault env (SysOpen temp) = None ->
     (∀ ino, names w !! temp = Some ino ->
        res = inr (RSPartial hid (mkPartial (mkOsFile ino 0 false) 0 0 false))
        ∧ calls w' = calls w ++ [CallOpen temp None; CallBodyClose (c_body c)])
     ∧ (names w !! temp = None -> is_Some (dirs w !! temp) ->
        res = inr (RSDirectory (Some hid) temp))
     ∧ (names w !! temp = None -> dirs w !! temp = None ->
        fault env (SysOpen (c_cachePath c)) = None ->
        (∀ ino, names w !! c_cachePath c = Some ino ->
           res = inr (RSFile (mkOsFile ino 0 false)))
        ∧ (names w !! c_cachePath c = None -> is_Some (dirs w !! c_cachePath c) ->
           res = inr (RSDirectory None (c_cachePath c)))
        ∧ (names w !! c_cachePath c = None -> dirs w !! c_cachePath c = None ->
           res = inl ENOENT))).
Proof.
  intros Hh Honce Hb temp res w'. subst res w'.
  unfold Get, Get_once. rewrite Hh, Honce.
  unfold Get_openTemp, Get_openCache, os_Open, Get_defer, body_Close.
  rewrite Hh.
  change (default EmptyString (h_tempPath <$> Some h)) with temp.
  cbn [names dirs log].
  assert (Hbody :
            alter (λ s, mkBodyState (bs_rest s) (bs_err s) true) (c_body c) (bodies w)
              !! c_body c
            = Some (mkBodyState (bs_rest bs) (bs_err bs) true)).
  { rewrite list_lookup_alter.
    destruct (decide (c_body c = c_body c)); [|contradiction].
    rewrite Hb. reflexivity. }
  assert (Hother : ∀ b, b ≠ c_body c ->
            alter (λ s, mkBodyState (bs_rest s) (bs_err s) true) (c_body c) (bodies w) !! b
            = bodies w !! b).
  { intros b Hne. apply list_lookup_alter_ne. congruence. }
  assert (Hcache :
            ∀ w1 : World, names w1 = names w -> dirs w1 = dirs w ->
            ∀ res1 : error + ReadSeekCloser,
            res1
            = match
                (match fault env (SysOpen (c_cachePath c)) with
                 | Some e => inl e
                 | None =>
                     match names w1 !! c_cachePath c with
                     | Some ino => inr (OpenedFile (mkOsFile ino 0 false))
                     | None =>
                         match dirs w1 !! c_cachePath c with
                         | Some _ => inr (OpenedDir (c_cachePath c))
                         | None => inl ENOENT
                         end
                     end
                 end)
              with
              | inr (OpenedFile rfile) => inr (RSFile rfile)
              | inr (OpenedDir d) => inr (RSDirectory None d)
              | inl e => inl e
              end ->
            fault env (SysOpen (c_cachePath c)) = None ->
            (∀ ino, names w !! c_cachePath c = Some ino ->
               res1 = inr (RSFile (mkOsFile ino 0 false)))
            ∧ (names w !! c_cachePath c = None -> is_Some (dirs w !! c_cachePath c) ->
               res1 = inr (RSDirectory None (c_cachePath c)))
            ∧ (names w !! c_cachePath c = None -> dirs w !! c_cachePath c = None ->
               res1 = inl ENOENT)).
  { intros w1 Hn1 Hd1 res1 -> Hf2. rewrite Hf2, Hn1, Hd1.
    destruct (names w !! c_cachePath c) as [ino|].
    - split; [intros ino' [= <-]; reflexivity|].
      split; intros Hd; discriminate Hd.
    - destruct (dirs w !! c_cachePath c) as [t|].
      + split; [intros ino' Hd; discriminate Hd|].
        split; [reflexivity | intros _ Hd; discriminate Hd].
      + split; [intros ino' Hd; discriminate Hd|].
        split; [intros _ [t Hd]; discriminate Hd | reflexivity]. }
  destruct (fault env (SysOpen temp)) as [e|] eqn:Hf1.
  - destruct (IsNotExist e);
      [destruct (fault env (SysOpen (c_cachePath c)));
       [|destruct (names w !! c_cachePath c);
         [|destruct (dirs w !! c_cachePath c)]]|];
      cbn [fst snd log set_bodies bodies names inodes dirs handles goroutines
             objectHandles];
      (split; [exact Hbody|]); (split; [exact Hother|]);
      repeat (split; [reflexivity|]); intros Hd; discriminate Hd.
  - destruct (names w !! temp) as [ino|] eqn:Hn.
    + cbn [fst snd log set_bodies bodies names inodes dirs handles goroutines
             objectHandles calls].
      split; [exact Hbody|]. split; [exact Hother|].
      repeat (split; [reflexivity|]). intros _. split; [|split].
      * intros ino' [= <-]. split; [reflexivity|].
        rewrite <- app_assoc. reflexivity.
      * intros Hd; discriminate Hd.
      * intros Hd; discriminate Hd.
    + destruct (dirs w !! temp) as [t|] eqn:Hdt.
      * cbn [fst snd log set_bodies bodies names inodes dirs handles goroutines
               objectHandles calls].
        split; [exact Hbody|]. split; [exact Hother|].
        repeat (split; [reflexivity|]). intros _. split; [|split].
        -- intros ino' Hd; discriminate Hd.
        -- reflexivity.
        -- intros _ Hd; discriminate Hd.
      * cbn [IsNotExist].
        set (res1 := match fault env (SysOpen (c_cachePath c)) with
                     | Some e => inl e
                     | None => _
                     end).
        cbn [fst snd log set_bodies bodies names inodes dirs handles goroutines
               objectHandles calls].
        split; [exact Hbody|]. split; [exact Hother|].
        repeat (split; [reflexivity|]). intros _. split; [|split].
        -- intros ino' Hd; discriminate Hd.
        -- intros _ [t Hd]; discriminate Hd.
        -- intros _ _. apply (Hcache w eq_refl eq_refl). reflexivity.
Qed.

Lemma Get_joins_download_witness :
  let env := testEnv noFault (λ _, Some object1) in
  let started := (ServeHTTP env proxy1 newResponseWriter (request "GET" "/x/y.pkg")
                    emptyWorld).2 in
  let c := mkCachable "/x/y.pkg" "cache.d/x/y.pkg" 0 mtime1 10 in
  (Get env 0 c started).1 = inr (RSPartial 0 freshReader)
  ∧ goroutines (Get env 0 c started).2 = goroutines started.
Proof.
  cbv zeta.
  destruct (Get_joins_download (testEnv noFault (λ _, Some object1)) 0
              (mkCachable "/x/y.pkg" "cache.d/x/y.pkg" 0 mtime1 10)
              (ServeHTTP (testEnv noFault (λ _, Some object1)) proxy1 newResponseWriter
                 (request "GET" "/x/y.pkg") emptyWorld).2
              (mkHandle "/x/y.pkg" true "cache.d/x/y.pkg.part.123456"
                 (Some (newTrackingWriter 0 10)))
              (mkBodyState [bytes "01234"; bytes "56789"] None false))
    as (_ & _ & _ & _ & _ & Hg & _ & _ & Hres); try (vm_compute; reflexivity).
  split; [|exact Hg].
  destruct (Hres eq_refl) as [Hopen _].
  apply (Hopen 0%nat). vm_compute. reflexivity.
Defined.

Lemma Get_once_cases (env : Env) (hid : nat) (c : Cachable) (w : World) :
  bodies (Get_once env hid c w).2 = bodies w
  ∧ (((Get_once env hid c w).1 = true
      ∧ goroutines (Get_once env hid c w).2 = goroutines w)
     ∨ ((Get_once env hid c w).1 = false
        ∧ goroutines (Get_once env hid c w).2
          = goroutines w
            ++ [mkDownloader hid (c_body c) (c_modTime c) (c_cachePath c) DlCopy None 0])).
Proof.
  unfold Get_once.
  destruct (handles w !! hid) as [h|]; [|split; [reflexivity | left; split; reflexivity]].
  destruct (h_once h); [split; [reflexivity | left; split; reflexivity]|].
  unfold os_MkdirAll.
  destruct (fault env (SysMkdirAll _));
    [split; [reflexivity | left; split; reflexivity]|].
  unfold ioutil_TempFile.
  destruct (fault env (SysTempFile _));
    [split; [reflexivity | left; split; reflexivity]|].
  destruct (names _ !! _); split; try reflexivity.
  - left. split; reflexivity.
  - right. split; reflexivity.
Qed.

(** X12: [Get] either closes the body it was given or hands it to the one
    downloader it starts. *)
Theorem Get_closes_or_hands_over_body (env : Env) (hid : nat) (c : Cachable)
    (w : World) (bs : BodyState) :
  bodies w !! c_body c = Some bs ->
  let w' := (Get env hid c w).2 in
  (goroutines w' = goroutines w
   ∧ bodies w' !! c_body c = Some (mkBodyState (bs_rest bs) (bs_err bs) true))
  ∨ (goroutines w'
     = goroutines w
       ++ [mkDownloader hid (c_body c) (c_modTime c) (c_cachePath c) DlCopy None 0]
     ∧ bodies w' = bodies w).
Proof.
  intros Hb w'. subst w'. unfold Get.
  pose proof (Get_once_cases env hid c w) as [Hbodies Hcases].
  destruct (Get_once env hid c w) as [scb w1]. cbn [fst snd] in *.
  assert (Hframe : ∀ scb',
            let '(res, w2) := Get_openTemp env hid w1 in
            let '(res, w3) :=
              match res with
              | inr rd => (inr rd, w2)
              | inl e =>
                  if IsNotExist e then Get_openCache env (c_cachePath c) w2 else (inl e, w2)
              end in
            goroutines (Get_defer scb' (c_body c) w3) = goroutines w1
            ∧ bodies w3 = bodies w1).
  { intros scb'. pose proof (Get_attach_frame env hid c scb' w1) as Hf.
    unfold Get_openTemp, Get_openCache in *.
    pose proof (os_Open_frame env (default EmptyString (h_tempPath <$> handles w1 !! hid))
                  w1) as F1.
    destruct (os_Open env (default EmptyString (h_tempPath <$> handles w1 !! hid)) w1)
      as [res w2].
    cbv zeta in F1. cbn [snd] in F1. destruct F1 as (_ & _ & _ & _ & _ & B1).
    destruct res as [e|[f|d]].
    2, 3: destruct Hf as (_ & Hg & _); (split; [exact Hg | exact B1]).
    destruct (IsNotExist e).
    - pose proof (os_Open_frame env (c_cachePath c) w2) as F2.
      destruct (os_Open env (c_cachePath c) w2) as [res2 w3].
      cbv zeta in F2. cbn [snd] in F2. destruct F2 as (_ & _ & _ & _ & _ & B2).
      destruct Hf as (_ & Hg & _). split; [exact Hg | congruence].
    - destruct Hf as (_ & Hg & _). split; [exact Hg | exact B1]. }
  specialize (Hframe scb).
  destruct (Get_openTemp env hid w1) as [res w2].
  destruct (match res with inr rd => _ | inl e => _ end) as [res' w3].
  destruct Hframe as [Hg Hb3]. cbn [snd]. rewrite Hg.
  destruct Hcases as [[-> Hgo] | [-> Hgo]]; rewrite Hgo.
  - left. split; [reflexivity|].
    unfold Get_defer, body_Close. cbn [bodies log set_bodies].
    rewrite list_lookup_alter. destruct (decide (c_body c = c_body c)); [|contradiction].
    rewrite Hb3, Hbodies, Hb. reflexivity.
  - right. split; [reflexivity|]. unfold Get_defer. congruence.
Qed.

Lemma Get_closes_or_hands_over_body_witness :
  let env := testEnv (faultOn (SysTempFile "cache.d/x") ENOSPC) (λ _, Some object1) in
  let c := mkCachable "/x/y.pkg" "cache.d/x/y.pkg" 0 mtime1 10 in
  let w := (LoadOrStore "/x/y.pkg"
              (mkWorld ∅ [] ∅ [] [mkBodyState [bytes "01234"] None false] [] [])).2 in
  goroutines (Get env 0 c w).2 = []
  ∧ bodies (Get env 0 c w).2 !! 0%nat = Some (mkBodyState [bytes "01234"] None true).
Proof.
  cbv zeta.
  destruct (Get_closes_or_hands_over_body
              (testEnv (faultOn (SysTempFile "cache.d/x") ENOSPC) (λ _, Some object1)) 0
              (mkCachable "/x/y.pkg" "cache.d/x/y.pkg" 0 mtime1 10)
              (LoadOrStore "/x/y.pkg"
                 (mkWorld ∅ [] ∅ [] [mkBodyState [bytes "01234"] None false] [] [])).2
              (mkBodyState [bytes "01234"] None false))
    as [H | [H _]].
  - vm_compute. reflexivity.
  - exact H.
  - exfalso. vm_compute in H. discriminate H.
Defined.

(** ** The downloader *)

Lemma file_write_fits (data p : list byte) (room : nat) :
  (length p <= room)%nat -> Zlen data + Zlen p <= Int64.max ->
  file_write data p room = (Zlen p, None, data ++ p).
Proof.
  intros Hroom Hmax. unfold file_write. cbv zeta.
  pose proof (Zlen_nonneg p) as Hp. pose proof (Zlen_nonneg data) as Hd.
  assert (Hn : Z.max 0 (Z.min (Zlen p) (Z.min (Z.of_nat room) (Int64.max - Zlen data)))
               = Zlen p) by (unfold Zlen in *; lia).
  rewrite Hn, Z.ltb_irrefl. unfold Zlen. rewrite Nat2Z.id, firstn_all. reflexivity.
Qed.

Lemma writer_Write_fits (env : Env) (hid : nat) (chunk : list byte) (w : World)
    (h : objectHandle) (tw : trackingWriter) (i : Inode) :
  handles w !! hid = Some h -> h_trackingWriter h = Some tw ->
  inodes w !! tw_wrapped tw = Some i ->
  tw_written tw = Zlen (i_data i) ->
  (length chunk <= room env)%nat -> Zlen (i_data i) + Zlen chunk <= Int64.max ->
  writer_Write env hid chunk w
  = (Zlen chunk, None,
     log (CallWrite hid (Zlen chunk) None)
       (set_handles
          <[hid := set_writer h (mkTrackingWriter (tw_wrapped tw) (tw_size tw)
                                   (tw_written tw + Zlen chunk) (tw_done tw))]>
          (set_inodes <[tw_wrapped tw := mkInode (i_data i ++ chunk) (now env)]> w))).
Proof.
  intros Hh Htw Hi Hw Hroom Hmax.
  unfold writer_Write. rewrite Hh, Htw, Hi.
  change (default [] (i_data <$> Some i)) with (i_data i).
  unfold tw_Write. rewrite (file_write_fits _ _ _ Hroom Hmax).
  unfold tw_update, Int64.add.
  pose proof (Zlen_nonneg chunk). pose proof (Zlen_nonneg (i_data i)).
  rewrite wrap_id by (unfold Int64.min, Int64.max in *; lia).
  reflexivity.
Qed.

Lemma io_Copy_fits (env : Env) (hid b : nat) (fuel : nat) :
  ∀ (w : World) (h : objectHandle) (tw : trackingWriter) (i : Inode) (bs : BodyState),
    handles w !! hid = Some h -> h_trackingWriter h = Some tw ->
    inodes w !! tw_wrapped tw = Some i -> bodies w !! b = Some bs ->
    tw_written tw = Zlen (i_data i) ->
    Zlen (i_data i) + Zlen (concat (bs_rest bs)) <= Int64.max ->
    Forall (λ chunk, (length chunk <= room env)%nat) (bs_rest bs) ->
    (length (bs_rest bs) <= fuel)%nat ->
    ∃ w' i',
      io_Copy env hid b fuel w = (Zlen (concat (bs_rest bs)), bs_err bs, w')
      ∧ handles w' !! hid
        = Some (set_writer h
                  (mkTrackingWriter (tw_wrapped tw) (tw_size tw)
                     (tw_written tw + Zlen (concat (bs_rest bs))) (tw_done tw)))
      ∧ inodes w' !! tw_wrapped tw = Some i'
      ∧ i_data i' = i_data i ++ concat (bs_rest bs)
      ∧ bodies w' !! b = Some (mkBodyState [] (bs_err bs) (bs_closed bs))
      ∧ names w' = names w ∧ objectHandles w' = objectHandles w
      ∧ length (inodes w') = length (inodes w).
Proof.
  assert (Hstop : ∀ (w : World) (h : objectHandle) (tw : trackingWriter) (i : Inode)
                    (bs : BodyState),
            handles w !! hid = Some h -> h_trackingWriter h = Some tw ->
            inodes w !! tw_wrapped tw = Some i -> bodies w !! b = Some bs ->
            bs_rest bs = [] ->
            ∃ w' i',
              (0, body_err b w, w) = (Zlen (concat (bs_rest bs)), bs_err bs, w')
              ∧ handles w' !! hid
                = Some (set_writer h
                          (mkTrackingWriter (tw_wrapped tw) (tw_size tw)
                             (tw_written tw + Zlen (concat (bs_rest bs))) (tw_done tw)))
              ∧ inodes w' !! tw_wrapped tw = Some i'
              ∧ i_data i' = i_data i ++ concat (bs_rest bs)
              ∧ bodies w' !! b = Some (mkBodyState [] (bs_err bs) (bs_closed bs))
              ∧ names w' = names w ∧ objectHandles w' = objectHandles w
              ∧ length (inodes w') = length (inodes w)).
  { intros w h tw i bs Hh Htw Hi Hb Hrest.
    exists w, i. unfold body_err. rewrite Hb, Hrest. cbn [concat mbind option_bind].
    change (Zlen (@nil byte)) with 0. rewrite Z.add_0_r, app_nil_r.
    split; [reflexivity|]. split.
    - rewrite Hh. destruct h as [cp o tp otw], tw as [ino sz wr dn].
      cbn in Htw. subst otw. reflexivity.
    - split; [exact Hi|]. split; [reflexivity|]. split.
      + destruct bs as [rest e cl]. cbn in Hrest. subst rest. reflexivity.
      + repeat split. }
  induction fuel as [|fuel IH]; intros w h tw i bs Hh Htw Hi Hb Hw Hmax Hroom Hfuel.
  - cbn [io_Copy]. apply (Hstop w h tw i bs Hh Htw Hi Hb).
    destruct (bs_rest bs); [reflexivity | cbn in Hfuel; lia].
  - cbn [io_Copy]. unfold body_Read. rewrite Hb.
    destruct bs as [[|chunk rest] e cl].
    { apply (Hstop w h tw i _ Hh Htw Hi Hb). reflexivity. }
    cbn [bs_rest bs_err bs_closed concat] in *.
    apply Forall_cons in Hroom as [Hchunk Hroom].
    rewrite Zlen_app in Hmax.
    pose proof (Zlen_nonneg chunk) as Hc0.
    pose proof (Zlen_nonneg (concat rest)) as Hr0.
    set (w1 := set_bodies <[b := mkBodyState rest e cl]> w).
    unfold copy_chunk.
    rewrite (writer_Write_fits env hid chunk w1 h tw i Hh Htw Hi Hw Hchunk) by lia.
    rewrite Z.eqb_refl.
    set (tw1 := mkTrackingWriter (tw_wrapped tw) (tw_size tw)
                  (tw_written tw + Zlen chunk) (tw_done tw)).
    set (i1 := mkInode (i_data i ++ chunk) (now env)).
    set (w2 := log _ _).
    assert (Hh2 : handles w2 !! hid = Some (set_writer h tw1)).
    { subst w2 w1. cbn [handles log set_handles set_inodes set_bodies].
      apply list_lookup_insert_eq. eapply lookup_lt_Some. exact Hh. }
    assert (Hi2 : inodes w2 !! tw_wrapped tw1 = Some i1).
    { subst w2 w1. cbn [inodes log set_handles set_inodes set_bodies tw_wrapped tw1].
      apply list_lookup_insert_eq. eapply lookup_lt_Some. exact Hi. }
    assert (Hb2 : bodies w2 !! b = Some (mkBodyState rest e cl)).
    { subst w2 w1. cbn [bodies log set_handles set_inodes set_bodies].
      apply list_lookup_insert_eq. eapply lookup_lt_Some. exact Hb. }
    destruct (IH w2 (set_writer h tw1) tw1 i1 (mkBodyState rest e cl) Hh2 eq_refl Hi2 Hb2)
      as (w' & i' & Hcopy & Hh' & Hi' & Hd' & Hb' & Hn' & Ho' & Hl').
    + subst tw1 i1. cbn [tw_written i_data]. rewrite Zlen_app. lia.
    + subst i1. cbn [i_data bs_rest]. rewrite Zlen_app. lia.
    + exact Hroom.
    + cbn [bs_rest length] in *. lia.
    + cbn [bs_rest bs_err bs_closed] in *. rewrite Hcopy.
      exists w', i'. rewrite Zlen_app.
      split; [reflexivity|]. split.
      { rewrite Hh'. subst tw1. cbn [tw_wrapped tw_size tw_written tw_done].
        unfold set_writer. cbn [h_cleanPath h_once h_tempPath].
        rewrite Z.add_assoc. reflexivity. }
      split; [exact Hi'|]. split.
      { rewrite Hd'. subst i1. cbn [i_data]. rewrite app_assoc. reflexivity. }
      split; [exact Hb'|].
      subst w2 w1.
      cbn [names objectHandles inodes log set_handles set_inodes set_bodies] in *.
      rewrite length_insert in Hl'. repeat split; assumption.
Qed.

(** X13: a download whose body arrives whole, fits the device and meets
    no failing system call leaves the body, appended to what the file
    held, under the cache path with the upstream modification time; the
    temporary name and the registry entry are gone and the body is
    closed. *)
Theorem download_publishes_body (env : Env) (hid b : nat) (modTime : Time)
    (cachePath : string) (w : World) (h : objectHandle) (tw : trackingWriter)
    (i : Inode) (bs : BodyState) :
  handles w !! hid = Some h -> h_trackingWriter h = Some tw ->
  names w !! h_tempPath h = Some (tw_wrapped tw) ->
  inodes w !! tw_wrapped tw = Some i -> tw_written tw = Zlen (i_data i) ->
  bodies w !! b = Some bs -> bs_err bs = None ->
  Forall (λ chunk, (length chunk <= room env)%nat) (bs_rest bs) ->
  Zlen (i_data i) + Zlen (concat (bs_rest bs)) <= Int64.max ->
  fault env (SysChtimes (h_tempPath h)) = None ->
  fault env (SysRename (h_tempPath h) cachePath) = None ->
  let w' := downloader env hid b modTime cachePath w in
  lookup_file cachePath w'
  = Some (mkInode (i_data i ++ concat (bs_rest bs)) modTime)
  ∧ (h_tempPath h ≠ cachePath -> names w' !! h_tempPath h = None)
  ∧ (∀ other, other ≠ cachePath -> other ≠ h_tempPath h ->
              names w' !! other = names w !! other)
  ∧ objectHandles w' = delete (h_cleanPath h) (objectHandles w)
  ∧ bodyClosed b w'
  ∧ ∃ tw', handles w' !! hid = Some (set_writer h tw')
           ∧ tw_done tw' = true
           ∧ tw_written tw' = tw_written tw + Zlen (concat (bs_rest bs)).
Proof.
  intros Hh Htw Hname Hi Hw Hb Herr Hroom Hmax Hft Hfr w'. subst w'.
  unfold downloader. rewrite Hb.
  change (default [] (bs_rest <$> Some bs)) with (bs_rest bs).
  destruct (io_Copy_fits env hid b (length (bs_rest bs)) w h tw i bs
              Hh Htw Hi Hb Hw Hmax Hroom (le_n _))
    as (w1 & i1 & Hcopy & Hh1 & Hi1 & Hd1 & Hb1 & Hn1 & Ho1 & Hl1).
  rewrite Hcopy, Herr. rewrite Herr in Hb1.
  set (tw1 := mkTrackingWriter _ _ _ _) in Hh1.
  assert (Htemp1 : tempPathOf hid w1 = h_tempPath h).
  { unfold tempPathOf. rewrite Hh1. reflexivity. }
  rewrite Htemp1. unfold os_Chtimes. rewrite Hft, Hn1, Hname.
  set (w2 := log (CallChtimes _ _ _) _).
  assert (Hh2 : handles w2 !! hid = Some (set_writer h tw1)) by exact Hh1.
  unfold writer_Close. rewrite Hh2.
  cbn [h_trackingWriter set_writer tw_Close].
  set (tw2 := mkTrackingWriter (tw_wrapped tw1) (tw_size tw1) (tw_written tw1) true).
  set (w3 := log (CallCloseWriter _ _) _).
  assert (Hh3 : handles w3 !! hid = Some (set_writer h tw2)).
  { subst w3. cbn [handles log set_handles].
    apply list_lookup_insert_eq. eapply lookup_lt_Some. exact Hh2. }
  assert (Htemp3 : tempPathOf hid w3 = h_tempPath h).
  { unfold tempPathOf. rewrite Hh3. reflexivity. }
  unfold publish. rewrite Htemp3. unfold os_Rename. rewrite Hfr.
  assert (Hn3 : names w3 = names w) by exact Hn1.
  rewrite Hn3, Hname. cbn [snd].
  set (w4 := log (CallRename _ _ _) _).
  assert (Hclean : cleanPathOfHandle hid w4 = h_cleanPath h).
  { unfold cleanPathOfHandle. change (handles w4) with (handles w3).
    rewrite Hh3. reflexivity. }
  unfold registry_Delete. rewrite Hclean. unfold body_Close, lookup_file, bodyClosed.
  cbn [names inodes objectHandles handles bodies log set_objectHandles set_bodies].
  change (names w4) with (<[cachePath := tw_wrapped tw]> (delete (h_tempPath h) (names w3))).
  change (inodes w4)
    with (alter (λ i, mkInode (i_data i) modTime) (tw_wrapped tw) (inodes w1)).
  change (objectHandles w4) with (objectHandles w1).
  change (handles w4) with (handles w3).
  change (bodies w4) with (bodies w1).
  rewrite Hn3. split.
  { rewrite lookup_insert_eq. cbn [mbind option_bind].
    rewrite list_lookup_alter. destruct (decide (tw_wrapped tw = tw_wrapped tw)); [|contradiction].
    rewrite Hi1. cbn [fmap option_fmap option_map]. rewrite Hd1. reflexivity. }
  split.
  { intros Hne. rewrite lookup_insert_ne by congruence. apply lookup_delete_eq. }
  split.
  { intros other H1 H2. rewrite lookup_insert_ne by congruence.
    apply lookup_delete_ne. congruence. }
  split; [rewrite Ho1; reflexivity|]. split.
  { rewrite list_lookup_alter. destruct (decide (b = b)); [|contradiction].
    rewrite Hb1. reflexivity. }
  exists tw2. split; [exact Hh3|]. split; reflexivity.
Qed.

Lemma download_publishes_body_witness :
  let env := testEnv noFault (λ _, Some object1) in
  let started := (ServeHTTP env proxy1 newResponseWriter (request "GET" "/x/y.pkg")
                    emptyWorld).2 in
  lookup_file "cache.d/x/y.pkg" (downloader env 0 0 mtime1 "cache.d/x/y.pkg" started)
  = Some (mkInode (bytes "0123456789") mtime1).
Proof.
  cbv zeta.
  refine (proj1 (download_publishes_body (testEnv noFault (λ _, Some object1)) 0 0
                   mtime1 "cache.d/x/y.pkg" _
                   (mkHandle "/x/y.pkg" true "cache.d/x/y.pkg.part.123456"
                      (Some (newTrackingWriter 0 10)))
                   (newTrackingWriter 0 10) (mkInode [] (mkTime 1700000000 0))
                   (mkBodyState [bytes "01234"; bytes "56789"] None false)
                   _ _ _ _ _ _ _ _ _ _ _)); try (vm_compute; reflexivity).
  - repeat (apply List.Forall_cons; [apply Nat.leb_le; vm_compute; reflexivity|]).
    apply List.Forall_nil.
  - vm_compute. intros H. discriminate H.
Defined.

(** X14: when the body breaks off with an error the downloader never
    calls [Chtimes], removes the temporary file, deletes the registry
    entry and closes [done] with [written] at the bytes received. *)
Theorem interrupted_download_discarded (env : Env) (hid b : nat) (modTime : Time)
    (cachePath : string) (w : World) (h : objectHandle) (tw : trackingWriter)
    (i : Inode) (bs : BodyState) (e : error) :
  handles w !! hid = Some h -> h_trackingWriter h = Some tw ->
  names w !! h_tempPath h = Some (tw_wrapped tw) ->
  inodes w !! tw_wrapped tw = Some i -> tw_written tw = Zlen (i_data i) ->
  bodies w !! b = Some bs -> bs_err bs = Some e ->
  Forall (λ chunk, (length chunk <= room env)%nat) (bs_rest bs) ->
  Zlen (i_data i) + Zlen (concat (bs_rest bs)) <= Int64.max ->
  fault env (SysRemove (h_tempPath h)) = None ->
  let w' := downloader env hid b modTime cachePath w in
  names w' = delete (h_tempPath h) (names w)
  ∧ objectHandles w' = delete (h_cleanPath h) (objectHandles w)
  ∧ bodyClosed b w'
  ∧ (∀ c, c ∈ calls w' -> c ∈ calls w ∨ ∀ t terr, c ≠ CallChtimes (h_tempPath h) t terr)
  ∧ ∃ tw', handles w' !! hid = Some (set_writer h tw')
           ∧ tw_done tw' = true
           ∧ tw_written tw' = tw_written tw + Zlen (concat (bs_rest bs)).
Proof.
  intros Hh Htw Hname Hi Hw Hb Herr Hroom Hmax Hfr w'. subst w'.
  unfold downloader. rewrite Hb.
  change (default [] (bs_rest <$> Some bs)) with (bs_rest bs).
  destruct (io_Copy_fits env hid b (length (bs_rest bs)) w h tw i bs
              Hh Htw Hi Hb Hw Hmax Hroom (le_n _))
    as (w1 & i1 & Hcopy & Hh1 & Hi1 & Hd1 & Hb1 & Hn1 & Ho1 & Hl1).
  pose proof (io_Copy_frame env hid b (length (bs_rest bs)) w)
    as (_ & _ & _ & _ & _ & _ & writes & Hcalls & Hwrites).
  rewrite Hcopy in Hcalls. cbn [snd] in Hcalls.
  rewrite Hcopy, Herr. rewrite Herr in Hb1.
  set (tw1 := mkTrackingWriter _ _ _ _) in Hh1.
  unfold writer_Close. rewrite Hh1.
  cbn [h_trackingWriter set_writer tw_Close].
  set (tw2 := mkTrackingWriter (tw_wrapped tw1) (tw_size tw1) (tw_written tw1) true).
  set (w3 := log (CallCloseWriter _ _) _).
  assert (Hh3 : handles w3 !! hid = Some (set_writer h tw2)).
  { subst w3. cbn [handles log set_handles].
    apply list_lookup_insert_eq. eapply lookup_lt_Some. exact Hh1. }
  assert (Htemp3 : tempPathOf hid w3 = h_tempPath h).
  { unfold tempPathOf. rewrite Hh3. reflexivity. }
  unfold publish. rewrite Htemp3. unfold os_Remove. rewrite Hfr.
  assert (Hn3 : names w3 = names w) by exact Hn1.
  rewrite Hn3, Hname. cbn [snd].
  set (w4 := log (CallRemove _ _) _).
  assert (Hclean : cleanPathOfHandle hid w4 = h_cleanPath h).
  { unfold cleanPathOfHandle. change (handles w4) with (handles w3).
    rewrite Hh3. reflexivity. }
  unfold registry_Delete. rewrite Hclean. unfold body_Close, bodyClosed.
  cbn [names inodes objectHandles handles bodies calls log set_objectHandles set_bodies].
  change (names w4) with (delete (h_tempPath h) (names w3)).
  change (objectHandles w4) with (objectHandles w1).
  change (handles w4) with (handles w3).
  change (bodies w4) with (bodies w1).
  change (calls w4)
    with ((calls w1 ++ [CallCloseWriter hid (fault env (SysClose (tw_wrapped tw1)))])
          ++ [CallRemove (h_tempPath h) None]).
  rewrite Hn3. split; [reflexivity|].
  split; [rewrite Ho1; reflexivity|]. split.
  { rewrite list_lookup_alter. destruct (decide (b = b)); [|contradiction].
    rewrite Hb1. reflexivity. }
  split.
  { intros c Hc. rewrite Hcalls, !elem_of_app in Hc.
    destruct Hc as [[[[[Hc|Hc]|Hc]|Hc]|Hc]|Hc];
      try (apply list_elem_of_singleton in Hc; right; intros t terr Hd;
           rewrite Hd in Hc; discriminate Hc).
    - left. exact Hc.
    - right. intros t terr ->.
      eapply Forall_forall in Hwrites; [|exact Hc]. exact Hwrites. }
  exists tw2. split; [exact Hh3|]. split; reflexivity.
Qed.

Lemma interrupted_download_discarded_witness :
  let env := testEnv noFault (λ _, Some truncated) in
  let started := (ServeHTTP env proxy1 newResponseWriter (request "GET" "/x/y.pkg")
                    emptyWorld).2 in
  let w' := downloader env 0 0 mtime1 "cache.d/x/y.pkg" started in
  names w' = ∅
  ∧ ∃ tw', handles w' !! 0%nat
           = Some (mkHandle "/x/y.pkg" true "cache.d/x/y.pkg.part.123456" (Some tw'))
           ∧ tw_done tw' = true ∧ tw_written tw' = 5 ∧ tw_size tw' = 10.
Proof.
  cbv zeta.
  destruct (interrupted_download_discarded (testEnv noFault (λ _, Some truncated)) 0 0
              mtime1 "cache.d/x/y.pkg"
              (ServeHTTP (testEnv noFault (λ _, Some truncated)) proxy1 newResponseWriter
                 (request "GET" "/x/y.pkg") emptyWorld).2
              (mkHandle "/x/y.pkg" true "cache.d/x/y.pkg.part.123456"
                 (Some (newTrackingWriter 0 10)))
              (newTrackingWriter 0 10) (mkInode [] (mkTime 1700000000 0))
              (mkBodyState [bytes "01234"] (Some ErrUnexpectedEOF) false)
              ErrUnexpectedEOF)
    as (Hn & _ & _ & _ & tw' & Hh & Hd & Hw); try (vm_compute; reflexivity).
  - repeat (apply List.Forall_cons; [apply Nat.leb_le; vm_compute; reflexivity|]).
    apply List.Forall_nil.
  - vm_compute. intros H. discriminate H.
  - split; [exact Hn|]. exists tw'. split; [exact Hh|]. split; [exact Hd|].
    split; [exact Hw|]. vm_compute in Hh. injection Hh as Hh. rewrite <- Hh. reflexivity.
Defined.

Lemma file_write_short (data p : list byte) (room : nat) :
  (room < length p)%nat -> Zlen data + Z.of_nat room <= Int64.max ->
  file_write data p room = (Z.of_nat room, Some ENOSPC, data ++ take room p).
Proof.
  intros Hroom Hmax. unfold file_write. cbv zeta.
  pose proof (Zlen_nonneg data) as Hd.
  assert (Hn : Z.max 0 (Z.min (Zlen p) (Z.min (Z.of_nat room) (Int64.max - Zlen data)))
               = Z.of_nat room) by (unfold Zlen in *; lia).
  rewrite Hn, Nat2Z.id.
  assert (Hlt : (Z.of_nat room <? Zlen p) = true) by (apply Z.ltb_lt; unfold Zlen; lia).
  rewrite Hlt. reflexivity.
Qed.

(** X15: when the device takes less than the first chunk, the copy stops
    at that short write: what fitted stays in the unlinked file, the rest
    of the body is left unread, and the temporary file is removed. *)
Theorem disk_full_discards_download (env : Env) (hid b : nat) (modTime : Time)
    (cachePath : string) (w : World) (h : objectHandle) (tw : trackingWriter)
    (i : Inode) (bs : BodyState) (chunk : list byte) (rest : list (list byte)) :
  handles w !! hid = Some h -> h_trackingWriter h = Some tw ->
  names w !! h_tempPath h = Some (tw_wrapped tw) ->
  inodes w !! tw_wrapped tw = Some i -> tw_written tw = Zlen (i_data i) ->
  bodies w !! b = Some bs -> bs_rest bs = chunk :: rest ->
  (room env < length chunk)%nat -> Zlen (i_data i) + Z.of_nat (room env) <= Int64.max ->
  fault env (SysRemove (h_tempPath h)) = None ->
  let w' := downloader env hid b modTime cachePath w in
  names w' = delete (h_tempPath h) (names w)
  ∧ i_data <$> inodes w' !! tw_wrapped tw = Some (i_data i ++ take (room env) chunk)
  ∧ bodies w' !! b = Some (mkBodyState rest (bs_err bs) true)
  ∧ objectHandles w' = delete (h_cleanPath h) (objectHandles w)
  ∧ calls w'
    = calls w
      ++ [CallWrite hid (Z.of_nat (room env)) (Some ENOSPC);
          CallCloseWriter hid (fault env (SysClose (tw_wrapped tw)));
          CallRemove (h_tempPath h) None; CallDelete (h_cleanPath h); CallBodyClose b]
  ∧ ∃ tw', handles w' !! hid = Some (set_writer h tw')
           ∧ tw_done tw' = true
           ∧ tw_written tw' = tw_written tw + Z.of_nat (room env).
Proof.
  intros Hh Htw Hname Hi Hw Hb Hrest Hroom Hmax Hfr w'. subst w'.
  unfold downloader. rewrite Hb.
  change (default [] (bs_rest <$> Some bs)) with (bs_rest bs). rewrite Hrest.
  cbn [length io_Copy]. unfold body_Read. rewrite Hb.
  destruct bs as [rest0 e cl]. cbn [bs_rest bs_err] in *. subst rest0.
  set (w1 := set_bodies <[b := mkBodyState rest e cl]> w).
  unfold copy_chunk, writer_Write.
  change (handles w1) with (handles w). change (inodes w1) with (inodes w).
  rewrite Hh, Htw, Hi.
  change (default [] (i_data <$> Some i)) with (i_data i).
  unfold tw_Write. rewrite (file_write_short _ _ _ Hroom Hmax).
  unfold tw_update, Int64.add.
  pose proof (Zlen_nonneg (i_data i)) as Hd0.
  rewrite wrap_id by (unfold Int64.min, Int64.max in *; lia).
  set (tw1 := mkTrackingWriter (tw_wrapped tw) (tw_size tw)
                (tw_written tw + Z.of_nat (room env)) (tw_done tw)).
  set (w2 := log (CallWrite _ _ _) _).
  assert (Hh2 : handles w2 !! hid = Some (set_writer h tw1)).
  { subst w2 w1. cbn [handles log set_handles set_inodes set_bodies].
    apply list_lookup_insert_eq. eapply lookup_lt_Some. exact Hh. }
  unfold writer_Close. rewrite Hh2.
  cbn [h_trackingWriter set_writer tw_Close].
  set (tw2 := mkTrackingWriter (tw_wrapped tw1) (tw_size tw1) (tw_written tw1) true).
  set (w3 := log (CallCloseWriter _ _) _).
  assert (Hh3 : handles w3 !! hid = Some (set_writer h tw2)).
  { subst w3. cbn [handles log set_handles].
    apply list_lookup_insert_eq. eapply lookup_lt_Some. exact Hh2. }
  assert (Htemp3 : tempPathOf hid w3 = h_tempPath h).
  { unfold tempPathOf. rewrite Hh3. reflexivity. }
  unfold publish. rewrite Htemp3. unfold os_Remove. rewrite Hfr.
  change (names w3) with (names w). rewrite Hname. cbn [snd].
  set (w4 := log (CallRemove _ _) _).
  assert (Hclean : cleanPathOfHandle hid w4 = h_cleanPath h).
  { unfold cleanPathOfHandle. change (handles w4) with (handles w3).
    rewrite Hh3. reflexivity. }
  unfold registry_Delete. rewrite Hclean. unfold body_Close.
  cbn [names inodes objectHandles handles bodies calls log set_objectHandles set_bodies].
  change (names w4) with (delete (h_tempPath h) (names w)).
  change (objectHandles w4) with (objectHandles w).
  change (handles w4) with (handles w3).
  change (bodies w4) with (<[b := mkBodyState rest e cl]> (bodies w)).
  change (inodes w4)
    with (<[tw_wrapped tw := mkInode (i_data i ++ take (room env) chunk) (now env)]>
            (inodes w)).
  change (calls w4)
    with (((calls w ++ [CallWrite hid (Z.of_nat (room env)) (Some ENOSPC)])
           ++ [CallCloseWriter hid (fault env (SysClose (tw_wrapped tw)))])
          ++ [CallRemove (h_tempPath h) None]).
  split; [reflexivity|]. split.
  { rewrite list_lookup_insert_eq by (eapply lookup_lt_Some; exact Hi). reflexivity. }
  split.
  { rewrite list_lookup_alter. destruct (decide (b = b)); [|contradiction].
    rewrite list_lookup_insert_eq by (eapply lookup_lt_Some; exact Hb). reflexivity. }
  split; [reflexivity|]. split.
  { rewrite <- !app_assoc. reflexivity. }
  exists tw2. split; [exact Hh3|]. split; reflexivity.
Qed.

Lemma disk_full_discards_download_witness :
  let env := mkEnv noFault (λ _, true) (λ _, Some object1) "123456"
               (mkTime 1700000000 0) 3 parseTable
               (λ _ _, "application/octet-stream"%string) (λ rw _ _ _ _, rw) in
  let started := (ServeHTTP env proxy1 newResponseWriter (request "GET" "/x/y.pkg")
                    emptyWorld).2 in
  let w' := downloader env 0 0 mtime1 "cache.d/x/y.pkg" started in
  names w' = ∅
  ∧ i_data <$> inodes w' !! 0%nat = Some (bytes "012")
  ∧ bodies w' !! 0%nat = Some (mkBodyState [bytes "56789"] None true).
Proof.
  cbv zeta.
  destruct (disk_full_discards_download
              (mkEnv noFault (λ _, true) (λ _, Some object1) "123456"
                 (mkTime 1700000000 0) 3 parseTable
                 (λ _ _, "application/octet-stream"%string) (λ rw _ _ _ _, rw))
              0 0 mtime1 "cache.d/x/y.pkg"
              (ServeHTTP
                 (mkEnv noFault (λ _, true) (λ _, Some object1) "123456"
                    (mkTime 1700000000 0) 3 parseTable
                    (λ _ _, "application/octet-stream"%string) (λ rw _ _ _ _, rw))
                 proxy1 newResponseWriter (request "GET" "/x/y.pkg") emptyWorld).2
              (mkHandle "/x/y.pkg" true "cache.d/x/y.pkg.part.123456"
                 (Some (newTrackingWriter 0 10)))
              (newTrackingWriter 0 10) (mkInode [] (mkTime 1700000000 0))
              (mkBodyState [bytes "01234"; bytes "56789"] None false)
              (bytes "01234") [bytes "56789"])
    as (Hn & Hi & Hb & _); try (vm_compute; reflexivity).
  - apply Nat.ltb_lt. vm_compute. reflexivity.
  - vm_compute. intros H. discriminate H.
  - split; [exact Hn|]. split; [exact Hi | exact Hb].
Defined.

(** X23: when [Rename] fails after a complete download, the finished
    file stays under its temporary name with the upstream modification
    time, nothing is removed, and the registry entry is deleted all the
    same. *)
Theorem rename_failure_leaves_temp_file (env : Env) (hid b : nat) (modTime : Time)
    (cachePath : string) (w : World) (h : objectHandle) (tw : trackingWriter)
    (i : Inode) (bs : BodyState) (e : error) :
  handles w !! hid = Some h -> h_trackingWriter h = Some tw ->
  names w !! h_tempPath h = Some (tw_wrapped tw) ->
  inodes w !! tw_wrapped tw = Some i -> tw_written tw = Zlen (i_data i) ->
  bodies w !! b = Some bs -> bs_err bs = None ->
  Forall (λ chunk, (length chunk <= room env)%nat) (bs_rest bs) ->
  Zlen (i_data i) + Zlen (concat (bs_rest bs)) <= Int64.max ->
  fault env (SysChtimes (h_tempPath h)) = None ->
  fault env (SysRename (h_tempPath h) cachePath) = Some e ->
  let w' := downloader env hid b modTime cachePath w in
  names w' = names w
  ∧ lookup_file (h_tempPath h) w'
    = Some (mkInode (i_data i ++ concat (bs_rest bs)) modTime)
  ∧ objectHandles w' = delete (h_cleanPath h) (objectHandles w)
  ∧ bodyClosed b w'
  ∧ ∃ before,
      calls w'
      = before ++ [CallRename (h_tempPath h) cachePath (Some e);
                   CallDelete (h_cleanPath h); CallBodyClose b].
Proof.
  intros Hh Htw Hname Hi Hw Hb Herr Hroom Hmax Hft Hfr w'. subst w'.
  unfold downloader. rewrite Hb.
  change (default [] (bs_rest <$> Some bs)) with (bs_rest bs).
  destruct (io_Copy_fits env hid b (length (bs_rest bs)) w h tw i bs
              Hh Htw Hi Hb Hw Hmax Hroom (le_n _))
    as (w1 & i1 & Hcopy & Hh1 & Hi1 & Hd1 & Hb1 & Hn1 & Ho1 & Hl1).
  rewrite Hcopy, Herr. rewrite Herr in Hb1.
  set (tw1 := mkTrackingWriter _ _ _ _) in Hh1.
  assert (Htemp1 : tempPathOf hid w1 = h_tempPath h).
  { unfold tempPathOf. rewrite Hh1. reflexivity. }
  rewrite Htemp1. unfold os_Chtimes. rewrite Hft, Hn1, Hname.
  set (w2 := log (CallChtimes _ _ _) _).
  assert (Hh2 : handles w2 !! hid = Some (set_writer h tw1)) by exact Hh1.
  unfold writer_Close. rewrite Hh2.
  cbn [h_trackingWriter set_writer tw_Close].
  set (tw2 := mkTrackingWriter (tw_wrapped tw1) (tw_size tw1) (tw_written tw1) true).
  set (w3 := log (CallCloseWriter _ _) _).
  assert (Hh3 : handles w3 !! hid = Some (set_writer h tw2)).
  { subst w3. cbn [handles log set_handles].
    apply list_lookup_insert_eq. eapply lookup_lt_Some. exact Hh2. }
  assert (Htemp3 : tempPathOf hid w3 = h_tempPath h).
  { unfold tempPathOf. rewrite Hh3. reflexivity. }
  unfold publish. rewrite Htemp3. unfold os_Rename. rewrite Hfr. cbn [snd].
  set (w4 := log (CallRename _ _ _) _).
  assert (Hclean : cleanPathOfHandle hid w4 = h_cleanPath h).
  { unfold cleanPathOfHandle. change (handles w4) with (handles w3).
    rewrite Hh3. reflexivity. }
  unfold registry_Delete. rewrite Hclean. unfold body_Close, lookup_file, bodyClosed.
  cbn [names inodes objectHandles handles bodies calls log set_objectHandles set_bodies].
  change (names w4) with (names w1).
  change (inodes w4)
    with (alter (λ i, mkInode (i_data i) modTime) (tw_wrapped tw) (inodes w1)).
  change (objectHandles w4) with (objectHandles w1).
  change (bodies w4) with (bodies w1).
  rewrite Hn1. split; [reflexivity|]. split.
  { rewrite Hname. cbn [mbind option_bind].
    rewrite list_lookup_alter.
    destruct (decide (tw_wrapped tw = tw_wrapped tw)); [|contradiction].
    rewrite Hi1. cbn [fmap option_fmap option_map]. rewrite Hd1. reflexivity. }
  split; [rewrite Ho1; reflexivity|]. split.
  { rewrite list_lookup_alter. destruct (decide (b = b)); [|contradiction].
    rewrite Hb1. reflexivity. }
  exists (calls w3). subst w4. cbn [calls log]. rewrite <- !app_assoc. reflexivity.
Qed.

Lemma rename_failure_leaves_temp_file_witness :
  let env := testEnv (faultOn (SysRename "cache.d/x/y.pkg.part.123456" "cache.d/x/y.pkg")
                        EACCES) (λ _, Some object1) in
  let started := (ServeHTTP env proxy1 newResponseWriter (request "GET" "/x/y.pkg")
                    emptyWorld).2 in
  let w' := downloader env 0 0 mtime1 "cache.d/x/y.pkg" started in
  names w' = <["cache.d/x/y.pkg.part.123456"%string := 0%nat]> ∅
  ∧ lookup_file "cache.d/x/y.pkg.part.123456" w'
    = Some (mkInode (bytes "0123456789") mtime1)
  ∧ objectHandles w' = ∅.
Proof.
  cbv zeta.
  destruct (rename_failure_leaves_temp_file
              (testEnv (faultOn (SysRename "cache.d/x/y.pkg.part.123456" "cache.d/x/y.pkg")
                          EACCES) (λ _, Some object1))
              0 0 mtime1 "cache.d/x/y.pkg"
              (ServeHTTP
                 (testEnv (faultOn (SysRename "cache.d/x/y.pkg.part.123456"
                                      "cache.d/x/y.pkg") EACCES) (λ _, Some object1))
                 proxy1 newResponseWriter (request "GET" "/x/y.pkg") emptyWorld).2
              (mkHandle "/x/y.pkg" true "cache.d/x/y.pkg.part.123456"
                 (Some (newTrackingWriter 0 10)))
              (newTrackingWriter 0 10) (mkInode [] (mkTime 1700000000 0))
              (mkBodyState [bytes "01234"; bytes "56789"] None false) EACCES)
    as (Hn & Hf & Ho & _); try (vm_compute; reflexivity).
  - repeat (apply List.Forall_cons; [apply Nat.leb_le; vm_compute; reflexivity|]).
    apply List.Forall_nil.
  - vm_compute. intros H. discriminate H.
  - split; [|split; [exact Hf|]].
    + rewrite Hn. vm_compute. reflexivity.
    + rewrite Ho. vm_compute. reflexivity.
Defined.

(** ** The cache directories *)

Lemma mkdir_keeps (t : Time) (d : string) (ds : gmap string Time) (k : string) :
  is_Some (ds !! k) -> is_Some (mkdir t d ds !! k).
Proof.
  intros Hk. unfold mkdir, touch. destruct (ds !! d); [exact Hk|].
  destruct (decide (d = k)) as [->|Hne].
  - rewrite lookup_insert_eq. eauto.
  - rewrite lookup_insert_ne by exact Hne.
    destruct (decide (path_Dir d = k)) as [->|Hne'].
    + rewrite lookup_alter_eq. destruct Hk as [x ->]. eauto.
    + rewrite lookup_alter_ne by exact Hne'. exact Hk.
Qed.

Lemma mkdir_makes (t : Time) (d : string) (ds : gmap string Time) :
  is_Some (mkdir t d ds !! d).
Proof.
  unfold mkdir. destruct (ds !! d) eqn:Hd; [rewrite Hd; eauto|].
  rewrite lookup_insert_eq. eauto.
Qed.

Lemma mkdirs_keeps (t : Time) (l : list string) (ds : gmap string Time) (k : string) :
  is_Some (ds !! k) -> is_Some (foldr (mkdir t) ds l !! k).
Proof.
  intros Hk. induction l as [|d l IH]; [exact Hk|].
  cbn [foldr]. apply mkdir_keeps. exact IH.
Qed.

Lemma mkdirs_fresh (t : Time) (l : list string) (ds : gmap string Time) (k : string)
    (t' : Time) :
  ds !! k = None -> foldr (mkdir t) ds l !! k = Some t' -> t' = t.
Proof.
  intros Hk. induction l as [|d l IH]; cbn [foldr].
  - intros H. rewrite Hk in H. discriminate H.
  - unfold mkdir at 1, touch. destruct (foldr (mkdir t) ds l !! d) eqn:Hd; [exact IH|].
    destruct (decide (d = k)) as [->|Hne].
    + rewrite lookup_insert_eq. intros [= ->]. reflexivity.
    + rewrite lookup_insert_ne by exact Hne.
      destruct (decide (path_Dir d = k)) as [->|Hne'].
      * rewrite lookup_alter_eq.
        destruct (foldr (mkdir t) ds l !! _) eqn:E'; cbn; intros [= ->]; reflexivity.
      * rewrite lookup_alter_ne by exact Hne'. exact IH.
Qed.

(** X24: a successful [os.MkdirAll] leaves the directory it was asked for
    and those that were there as directories, gives the ones it made the
    current time, and touches no file; a later [os.Open] of the directory
    succeeds on the directory. *)
Theorem MkdirAll_makes_directory (env : Env) (dir : string) (w : World) :
  fault env (SysMkdirAll dir) = None -> path_Dir dir ≠ dir ->
  let w' := (os_MkdirAll env dir w).2 in
  (os_MkdirAll env dir w).1 = None
  ∧ is_Some (dirs w' !! dir)
  ∧ (∀ d, is_Some (dirs w !! d) -> is_Some (dirs w' !! d))
  ∧ (∀ d t, dirs w !! d = None -> dirs w' !! d = Some t -> t = now env)
  ∧ names w' = names w ∧ inodes w' = inodes w
  ∧ ∀ env', fault env' (SysOpen dir) = None -> names w !! dir = None ->
            (os_Open env' dir w').1 = inr (OpenedDir dir).
Proof.
  intros Hfault Hdir w'. subst w'. unfold os_MkdirAll. rewrite Hfault.
  cbn [fst snd dirs names inodes log set_dirs ancestors].
  destruct (String.eqb_spec (path_Dir dir) dir) as [Heq|_]; [contradiction|].
  cbn [foldr].
  assert (Hmade : is_Some (mkdir (now env) dir
                             (foldr (mkdir (now env)) (dirs w)
                                (ancestors (String.length dir) (path_Dir dir)))
                           !! dir)) by apply mkdir_makes.
  split; [reflexivity|]. split; [exact Hmade|]. split; [|split; [|split; [|split]]].
  - intros d Hd. apply mkdir_keeps, mkdirs_keeps. exact Hd.
  - intros d t Hd.
    apply (mkdirs_fresh (now env) (dir :: ancestors (String.length dir) (path_Dir dir))
             (dirs w) d t Hd).
  - reflexivity.
  - reflexivity.
  - intros env' Hopen Hname. unfold os_Open. rewrite Hopen.
    cbn [fst names dirs log set_dirs]. rewrite Hname.
    destruct Hmade as [t ->]. reflexivity.
Qed.

Lemma MkdirAll_makes_directory_witness :
  let env := testEnv noFault (λ _, Some object1) in
  let w' := (os_MkdirAll env "cache.d/x" emptyWorld).2 in
  is_Some (dirs w' !! "cache.d/x"%string)
  ∧ (os_Open env "cache.d/x" w').1 = inr (OpenedDir "cache.d/x").
Proof.
  cbv zeta.
  destruct (MkdirAll_makes_directory (testEnv noFault (λ _, Some object1)) "cache.d/x"
              emptyWorld) as (_ & Hdir & _ & _ & _ & _ & Hopen).
  - reflexivity.
  - vm_compute. intros H. discriminate H.
  - split; [exact Hdir|]. apply Hopen; reflexivity.
Defined.

(** ** Reachable states *)

(** X18: in every state that the clients of one request can reach, a
    registered key leads to a handle of that path, a downloader belongs to
    a handle whose [once] has run, a handle whose [once] has not run is
    still registered, and the handle a request works with is one of the
    requested path. *)
Theorem registry_well_formed (p : CachingReverseProxy) (w0 : World) (r : Request)
    (n : nat) (schedule : list Label) :
  objectHandles w0 = ∅ -> handles w0 = [] -> goroutines w0 = [] ->
  let m := run p (clients w0 r n) schedule in
  let w := m_world m in
  (∀ k hid, objectHandles w !! k = Some hid ->
            ∃ h, handles w !! hid = Some h ∧ h_cleanPath h = k)
  ∧ (∀ g d, goroutines w !! g = Some d ->
            ∃ h, handles w !! d_handle d = Some h ∧ h_once h = true)
  ∧ (∀ hid h, handles w !! hid = Some h -> h_once h = false ->
              objectHandles w !! h_cleanPath h = Some hid)
  ∧ (∀ i t hid, m_threads m !! i = Some t -> handleOf t = Some hid ->
                ∃ h, handles w !! hid = Some h
                     ∧ h_cleanPath h = path_Clean ("/" ++ URLPath r)).
Proof.
  intros Hreg Hhandles Hgo m w.
  pose proof (run_MInv p _ schedule _ (clients_MInv w0 r n Hreg Hhandles Hgo))
    as [Hsk Hthreads].
  fold m in Hsk, Hthreads. fold w in Hsk, Hthreads.
  assert (Hlookup : ∀ hid k o, sk_handles (skeleton w) !! hid = Some (k, o) ->
            ∃ h, handles w !! hid = Some h ∧ h_cleanPath h = k ∧ h_once h = o).
  { intros hid k o. cbn [sk_handles skeleton]. rewrite list_lookup_fmap.
    destruct (handles w !! hid) as [h|]; [|intros [=]].
    cbn. unfold hsk. intros [= <- <-]. eauto. }
  split; [|split; [|split]].
  - intros k hid Hk.
    destruct (inv_reg _ Hsk k hid Hk) as (o & Ho).
    destruct (Hlookup _ _ _ Ho) as (h & Hh & Hc & _). eauto.
  - intros g d Hd.
    assert (Hg : sk_goroutines (skeleton w) !! g = Some (d_handle d, registered d)).
    { cbn [sk_goroutines skeleton]. rewrite list_lookup_fmap, Hd. reflexivity. }
    destruct (inv_spawned _ Hsk g _ _ Hg) as (k & Hk).
    destruct (Hlookup _ _ _ Hk) as (h & Hh & _ & Ho). eauto.
  - intros hid h Hh Ho.
    apply (inv_fresh _ Hsk hid (h_cleanPath h)).
    cbn [sk_handles skeleton]. rewrite list_lookup_fmap, Hh. cbn. unfold hsk.
    rewrite Ho. reflexivity.
  - intros i t hid Ht Hhid.
    destruct (Hthreads i t Ht) as [Hr [Hok _]].
    destruct (Hok hid Hhid) as (o & Ho).
    destruct (Hlookup _ _ _ Ho) as (h & Hh & Hc & _).
    exists h. split; [exact Hh|]. rewrite Hc. exact Hr.
Qed.

Lemma registry_well_formed_witness :
  ∃ h, handles (m_world twoClients) !! 0%nat = Some h
       ∧ h_cleanPath h = "/x/y.pkg"%string.
Proof.
  apply (proj1 (registry_well_formed proxy1 emptyWorld (request "GET" "/x/y.pkg") 2
                  (replicate 5 (RunRequest (testEnv noFault (λ _, Some object1)) 0)
                   ++ replicate 5 (RunRequest (testEnv noFault (λ _, Some object1)) 1))
                  eq_refl eq_refl eq_refl) "/x/y.pkg"%string 0%nat).
  vm_compute. reflexivity.
Defined.

(** ** The cleaned path *)

Lemma split_slash_no_slash (s : list ascii) :
  ∀ cur, slash ∉ cur -> Forall (λ seg, slash ∉ seg) (split_slash cur s).
Proof.
  induction s as [|c s IH]; intros cur Hcur; cbn [split_slash].
  - constructor; [|constructor]. rewrite list_elem_of_In, <- in_rev, <- list_elem_of_In.
    exact Hcur.
  - destruct (Ascii.eqb_spec c slash) as [->|Hne].
    + constructor.
      * rewrite list_elem_of_In, <- in_rev, <- list_elem_of_In. exact Hcur.
      * apply IH. apply not_elem_of_nil.
    + apply IH. intros Hin. apply elem_of_cons in Hin as [Hin|Hin]; [|contradiction].
      apply Hne. symmetry. exact Hin.
Qed.

Lemma clean_step_plain (stack : list (list ascii)) (seg : list ascii) :
  Forall plainElement stack -> slash ∉ seg ->
  Forall plainElement (clean_step true stack seg).
Proof.
  intros Hstack Hseg. unfold clean_step.
  destruct (bool_decide (seg = [])) eqn:H1; [exact Hstack|].
  destruct (bool_decide (seg = ["."%char])) eqn:H2; [exact Hstack|].
  cbn [orb].
  apply bool_decide_eq_false in H1, H2.
  destruct (bool_decide (seg = dotdot)) eqn:H3.
  - destruct stack as [|top rest]; [constructor|].
    apply Forall_cons in Hstack as [(_ & _ & Htop & _) Hrest].
    destruct (bool_decide (top = dotdot)) eqn:H4; [|exact Hrest].
    apply bool_decide_eq_true in H4. contradiction.
  - apply bool_decide_eq_false in H3.
    constructor; [|exact Hstack]. repeat split; assumption.
Qed.

(** X19: whatever the request path, the cleaned path that keys the
    registry and is appended to the upstream prefix and the cache directory
    is rooted and has no empty, [.] or [..] element. *)
Theorem cleanPath_is_rooted_and_plain (p : string) :
  ∃ segs,
    path_Clean ("/" ++ p) = String slash (string_of_list_ascii (join_slash segs))
    ∧ Forall plainElement segs.
Proof.
  unfold path_Clean.
  change (list_ascii_of_string ("/" ++ p)) with (slash :: list_ascii_of_string p).
  cbv zeta. change (Ascii.eqb slash slash) with true. cbv iota.
  eexists. split; [reflexivity|].
  apply Forall_rev.
  assert (Hfold : ∀ segs stack,
            Forall (λ seg, slash ∉ seg) segs -> Forall plainElement stack ->
            Forall plainElement (fold_left (clean_step true) segs stack)).
  { induction segs as [|seg segs IH]; intros stack Hsegs Hstack; [exact Hstack|].
    apply Forall_cons in Hsegs as [Hseg Hsegs]. cbn [fold_left].
    apply IH; [exact Hsegs|]. apply clean_step_plain; assumption. }
  apply Hfold; [|constructor].
  apply split_slash_no_slash. apply not_elem_of_nil.
Qed.
